(** * ThicketDB: the Laubwerk plant database of the Thicket add-on

    A shallow embedding of [thicket_db.py]: the persisted document, the
    label resolver, the read-side views, the store operations and the
    bounded build scheduler, followed by the properties proved about them.

    Modelling conventions.
    - The database document is whatever [json.load] returns: a tree of
      dicts, lists, strings, integers, booleans and [None].  It is the
      type [json] below; a Python [dict] is an insertion-ordered
      association list with string keys.
    - A Python [str] is a [string]; its characters are the 8-bit
      characters of [ascii].  Floats, characters above U+00FF and dict
      keys that are not strings are not represented: where Python would
      produce one the model raises [NotModelled].
    - Exceptions are values of [exn]; a computation returns [result].
      Code that logs, touches the file system or spawns workers runs in
      the monad [M] over [world], which also carries what the code reads
      from its environment: the version of the SDK, the CPU count, the
      directory scan and what each worker prints.  Directories and
      permissions are not modelled: a path can always be opened for
      writing.
    - [Popen] and [communicate] record an event each; the list of events
      is the history of worker processes.  What a worker wrote to its
      standard output is [bytes], a [string] with one character per
      byte, which [json.loads] decodes; the files of the world hold the
      text that reading and writing in UTF-8 exchanges with them.
    - Loops run on fuel computed from their own state; [OutOfFuel] is what
      a loop would return if that fuel did not suffice, and it is proved
      never to be returned. *)

From Stdlib Require Import ZArith List String Ascii Bool Arith Lia.
From Stdlib Require Import DecimalString DecimalZ.
From Stdlib Require DecimalPos DecimalFacts.
From Stdlib Require Import Sorted Permutation.
Import ListNotations.
Local Open Scope string_scope.
Local Open Scope list_scope.
Set Warnings "-register-all".


(** ** Python values and exceptions *)

Inductive json : Type :=
| JNull
| JBool (b : bool)
| JInt (z : Z)
| JStr (s : string)
| JList (l : list json)
| JDict (d : list (string * json)).

Inductive exn : Type :=
| KeyError
| TypeError
| IndexError
| AttributeError
| UnboundLocalError
| FileNotFoundError
| JSONDecodeError
| UnicodeDecodeError
| ThicketDBOldSchemaError
| NotModelled
| OutOfFuel.

Scheme Equality for exn.

Inductive result (A : Type) : Type :=
| Ok (a : A)
| Raise (e : exn).

Arguments Ok {A} a.
Arguments Raise {A} e.

Definition rbind {A B} (c : result A) (k : A -> result B) : result B :=
  match c with
  | Ok a => k a
  | Raise e => Raise e
  end.

Declare Scope result_scope.
Delimit Scope result_scope with result.
Notation "x <- c ;; k" := (rbind c (fun x => k))
  (at level 61, c at next level, right associativity) : result_scope.
Local Open Scope result_scope.

(** [try: body except e: handler] *)
Definition try_except {A} (body : result A) (e : exn) (handler : result A)
  : result A :=
  match body with
  | Ok a => Ok a
  | Raise e' => if exn_beq e' e then handler else Raise e'
  end.

Fixpoint mapM {A B} (f : A -> result B) (l : list A) : result (list B) :=
  match l with
  | [] => Ok []
  | x :: r => y <- f x ;; ys <- mapM f r ;; Ok (y :: ys)
  end.

(** ** Python dicts: insertion-ordered, keys unique *)

Module Dict.

Fixpoint get {V} (k : string) (d : list (string * V)) : option V :=
  match d with
  | [] => None
  | (k', v) :: r => if (k' =? k)%string then Some v else get k r
  end.

Definition mem {V} (k : string) (d : list (string * V)) : bool :=
  match get k d with Some _ => true | None => false end.

(** [d[k] = v]: an existing key keeps its position. *)
Fixpoint set {V} (k : string) (v : V) (d : list (string * V))
  : list (string * V) :=
  match d with
  | [] => [(k, v)]
  | (k', v') :: r =>
      if (k' =? k)%string then (k', v) :: r else (k', v') :: set k v r
  end.

(** [d.update(other)] *)
Definition update {V} (d other : list (string * V)) : list (string * V) :=
  fold_left (fun acc kv => set (fst kv) (snd kv) acc) other d.

Definition keys {V} (d : list (string * V)) : list string := map fst d.

(** [dict(pairs)] *)
Definition of_pairs {V} (pairs : list (string * V)) : list (string * V) :=
  update [] pairs.

End Dict.

(** ** Python operations on values *)

Definition str_replace (a b : ascii) (s : string) : string :=
  string_of_list_ascii
    (map (fun c => if Ascii.eqb c a then b else c) (list_ascii_of_string s)).

(** [s[:n]] *)
Definition str_slice_to (n : nat) (s : string) : string := substring 0 n s.

(** [t in s] on two strings *)
Fixpoint str_contains (t s : string) : bool :=
  prefix t s ||
  match s with
  | EmptyString => false
  | String _ s' => str_contains t s'
  end.

Definition py_eq_str (v : json) (s : string) : bool :=
  match v with
  | JStr t => (t =? s)%string
  | _ => false
  end.

Definition py_truthy (v : json) : bool :=
  match v with
  | JNull => false
  | JBool b => b
  | JInt z => negb (z =? 0)%Z
  | JStr s => negb (s =? EmptyString)%string
  | JList l => match l with [] => false | _ => true end
  | JDict d => match d with [] => false | _ => true end
  end.

Definition truthy_str (o : option string) : bool :=
  match o with
  | Some s => negb (s =? EmptyString)%string
  | None => false
  end.

(** Sequence indexing with Python's negative indices. *)
Definition py_index {A} (l : list A) (i : Z) : result A :=
  let n := Z.of_nat (List.length l) in
  let j := if (i <? 0)%Z then (i + n)%Z else i in
  if ((0 <=? j) && (j <? n))%Z
  then match nth_error l (Z.to_nat j) with
       | Some a => Ok a
       | None => Raise IndexError
       end
  else Raise IndexError.

Definition chars (s : string) : list json :=
  map (fun c => JStr (String c EmptyString)) (list_ascii_of_string s).

(** [container[key]] *)
Definition py_getitem (container key : json) : result json :=
  match container with
  | JDict d =>
      match key with
      | JStr k => match Dict.get k d with
                  | Some v => Ok v
                  | None => Raise KeyError
                  end
      | JNull | JBool _ | JInt _ => Raise KeyError
      | JList _ | JDict _ => Raise TypeError
      end
  | JList l =>
      match key with
      | JInt i => py_index l i
      | JBool b => py_index l (if b then 1 else 0)%Z
      | _ => Raise TypeError
      end
  | JStr s =>
      match key with
      | JInt i => py_index (chars s) i
      | JBool b => py_index (chars s) (if b then 1 else 0)%Z
      | _ => Raise TypeError
      end
  | JNull | JBool _ | JInt _ => Raise TypeError
  end.

(** [s in container] for a string [s] *)
Definition py_contains_str (s : string) (container : json) : result bool :=
  match container with
  | JDict d => Ok (Dict.mem s d)
  | JList l => Ok (existsb (fun e => py_eq_str e s) l)
  | JStr t => Ok (str_contains s t)
  | JNull | JBool _ | JInt _ => Raise TypeError
  end.

(** [for x in v] *)
Definition py_iter (v : json) : result (list json) :=
  match v with
  | JList l => Ok l
  | JDict d => Ok (map JStr (Dict.keys d))
  | JStr s => Ok (chars s)
  | JNull | JBool _ | JInt _ => Raise TypeError
  end.

(** [len(v)] *)
Definition py_len (v : json) : result nat :=
  match v with
  | JList l => Ok (List.length l)
  | JDict d => Ok (List.length d)
  | JStr s => Ok (String.length s)
  | JNull | JBool _ | JInt _ => Raise TypeError
  end.

(** [container[key] = v].  A dict key that is hashable but not a string
    cannot be held by [json]. *)
Definition py_setitem (container key v : json) : result json :=
  match container with
  | JDict d =>
      match key with
      | JStr k => Ok (JDict (Dict.set k v d))
      | JNull | JBool _ | JInt _ => Raise NotModelled
      | JList _ | JDict _ => Raise TypeError
      end
  | JList l =>
      match key with
      | JInt _ | JBool _ => Raise NotModelled
      | _ => Raise TypeError
      end
  | JNull | JBool _ | JInt _ | JStr _ => Raise TypeError
  end.

(** [d.update(other)] for a dict [d].  Python also accepts an iterable of
    key/value pairs; with a dict it copies every key of [other]. *)
Definition py_dict_update (d other : json) : result json :=
  match d with
  | JDict dd =>
      match other with
      | JDict o => Ok (JDict (Dict.update dd o))
      | JList [] | JStr EmptyString => Ok d
      | JList _ | JStr _ => Raise NotModelled
      | JNull | JBool _ | JInt _ => Raise TypeError
      end
  | _ => Raise AttributeError
  end.

(** [v < n] for an integer constant [n] *)
Definition py_lt_int (v : json) (n : Z) : result bool :=
  match v with
  | JInt z => Ok (z <? n)%Z
  | JBool b => Ok ((if b then 1 else 0) <? n)%Z
  | _ => Raise TypeError
  end.

(** ** The database object and the label resolver *)

Definition SCHEMA_VERSION : Z := 2.

Record ThicketDB : Type := {
  _db_filename : string;
  locale : string;
  python : string;
  _db : option json          (* [None]: the attribute was never assigned *)
}.

Definition self_db (self : ThicketDB) : result json :=
  match _db self with
  | Some d => Ok d
  | None => Raise AttributeError
  end.

Definition set_db (self : ThicketDB) (d : json) : ThicketDB :=
  {| _db_filename := _db_filename self; locale := locale self;
     python := python self; _db := Some d |}.

(** [self._db["labels"][key]] *)
Definition labels_entry (self : ThicketDB) (key : json) : result json :=
  d <- self_db self ;;
  labels <- py_getitem d (JStr "labels") ;;
  py_getitem labels key.

Definition get_label (self : ThicketDB) (key : json) (loc : option string)
  : result json :=
  let loc := match loc with
             | Some l => if negb (l =? EmptyString)%string
                         then str_replace "_" "-" l
                         else locale self
             | None => locale self
             end in
  try_except
    (e <- labels_entry self key ;;
     b <- py_contains_str loc e ;;
     if b : bool then
       e <- labels_entry self key ;; py_getitem e (JStr loc)
     else
       e <- labels_entry self key ;;
       b <- py_contains_str (str_slice_to 2 loc) e ;;
       if b : bool then
         e <- labels_entry self key ;;
         py_getitem e (JStr (str_slice_to 2 loc))
       else Ok key)
    KeyError (Ok key).

(** [self._db["labels"].update(labels)] *)
Definition update_labels (self : ThicketDB) (labels : json)
  : result ThicketDB :=
  d <- self_db self ;;
  old <- py_getitem d (JStr "labels") ;;
  new <- py_dict_update old labels ;;
  d' <- py_setitem d (JStr "labels") new ;;
  Ok (set_db self d').

(** ** Views *)

Record DBSeason : Type := {
  s_name : json;
  s_label : json
}.

Definition DBSeason_init (db : ThicketDB) (name : json) : result DBSeason :=
  label <- get_label db name None ;;
  Ok {| s_name := name; s_label := label |}.

Record DBVariant : Type := {
  v_name : json;
  v_label : json;
  v_seasons : list DBSeason;
  v_default_season : DBSeason;
  v_preview : json
}.

Definition DBVariant_init (db : ThicketDB) (name v_rec model_preview : json)
  : result DBVariant :=
  label <- get_label db name None ;;
  ss <- py_getitem v_rec (JStr "seasons") ;;
  items <- py_iter ss ;;
  seasons <- mapM (DBSeason_init db) items ;;
  ds <- py_getitem v_rec (JStr "default_season") ;;
  default_season <- DBSeason_init db ds ;;
  preview <- py_getitem v_rec (JStr "preview") ;;
  Ok {| v_name := name; v_label := label; v_seasons := seasons;
        v_default_season := default_season;
        v_preview := if py_eq_str preview EmptyString then model_preview
                     else preview |}.

Record DBModel : Type := {
  m_name : json;
  m_md5 : json;
  m_filepath : json;
  m_label : json;
  m_variants : list DBVariant;
  m_default_variant : DBVariant;
  m_preview : json
}.

Definition DBModel_init (db : ThicketDB) (name : json) : result DBModel :=
  d <- self_db db ;;
  models <- py_getitem d (JStr "models") ;;
  m_rec <- py_getitem models name ;;
  md5 <- py_getitem m_rec (JStr "md5") ;;
  filepath <- py_getitem m_rec (JStr "filepath") ;;
  label <- get_label db name None ;;
  preview <- py_getitem m_rec (JStr "preview") ;;
  vs <- py_getitem m_rec (JStr "variants") ;;
  names <- py_iter vs ;;
  variants <- mapM (fun v =>
                      vs <- py_getitem m_rec (JStr "variants") ;;
                      v_rec <- py_getitem vs v ;;
                      DBVariant_init db v v_rec preview) names ;;
  def_v <- py_getitem m_rec (JStr "default_variant") ;;
  vs <- py_getitem m_rec (JStr "variants") ;;
  v_rec <- py_getitem vs def_v ;;
  default_variant <- DBVariant_init db def_v v_rec preview ;;
  Ok {| m_name := name; m_md5 := md5; m_filepath := filepath;
        m_label := label; m_variants := variants;
        m_default_variant := default_variant; m_preview := preview |}.

(** ** Store queries *)

(** The loop of [get_model]: the last model whose filepath matches wins. *)
Fixpoint scan_filepath (models : json) (filepath : string)
    (names : list json) (name : json) : result json :=
  match names with
  | [] => Ok name
  | n :: rest =>
      m_rec <- py_getitem models n ;;
      fp <- py_getitem m_rec (JStr "filepath") ;;
      scan_filepath models filepath rest
        (if py_eq_str fp filepath then n else name)
  end.

Definition get_model (self : ThicketDB) (filepath name : option string)
  : result (option DBModel) :=
  name <- match name with
          | Some n =>
              if truthy_str name then
                d <- self_db self ;;
                models <- py_getitem d (JStr "models") ;;
                b <- py_contains_str n models ;;
                Ok (if negb b then JNull else JStr n)
              else Ok (JStr n)
          | None => Ok JNull
          end ;;
  name <- match name, filepath with
          | JNull, Some fp =>
              if truthy_str filepath then
                d <- self_db self ;;
                models <- py_getitem d (JStr "models") ;;
                names <- py_iter models ;;
                scan_filepath models fp names name
              else Ok name
          | _, _ => Ok name
          end ;;
  if py_truthy name then
    m <- DBModel_init self name ;; Ok (Some m)
  else Ok None.

Definition model_count (self : ThicketDB) : result nat :=
  d <- self_db self ;;
  models <- py_getitem d (JStr "models") ;;
  py_len models.

(** ** The [json] module: [json.dump(obj, f, ensure_ascii=False, indent=4)]
    and [json.load] / [json.loads]

    The encoder and the decoder of the Python standard library, on the
    values of [json]: the encoder with the options [save] passes, the
    decoder in its default strict mode.  Texts are lists of characters
    while they are scanned. *)

Definition text := list ascii.

Definition dquote : ascii := "034"%char.

Definition lit (s : string) : text := list_ascii_of_string s.

Definition is_ctrl (c : ascii) : bool := (N_of_ascii c <? 32)%N.

Definition hex_digit (n : N) : ascii :=
  ascii_of_N (if (n <? 10)%N then 48 + n else 87 + n).

(** [ESCAPE_DCT]: the short escapes, and [\u00xx] for the other control
    characters. *)
Definition escape_char (c : ascii) : text :=
  if Ascii.eqb c dquote then ["\"%char; dquote]
  else if Ascii.eqb c "\" then lit "\\"
  else if Ascii.eqb c "008" then lit "\b"
  else if Ascii.eqb c "012" then lit "\f"
  else if Ascii.eqb c "010" then lit "\n"
  else if Ascii.eqb c "013" then lit "\r"
  else if Ascii.eqb c "009" then lit "\t"
  else if is_ctrl c then
    lit "\u00" ++ [hex_digit (N_of_ascii c / 16); hex_digit (N_of_ascii c mod 16)]
  else [c].

Definition encode_basestring (s : string) : text :=
  dquote :: flat_map escape_char (list_ascii_of_string s) ++ [dquote].

Definition dump_int (z : Z) : text :=
  lit (NilZero.string_of_int (Z.to_int z)).

Definition newline_indent (level : nat) : text :=
  "010"%char :: repeat " "%char (4 * level).

(** [_iterencode] with [indent=4]: items are separated by a comma and a
    newline, a key from its value by a colon and a space. *)
Fixpoint dump (level : nat) (v : json) : text :=
  match v with
  | JNull => lit "null"
  | JBool true => lit "true"
  | JBool false => lit "false"
  | JInt z => dump_int z
  | JStr s => encode_basestring s
  | JList [] => lit "[]"
  | JList (x :: xs) =>
      lit "[" ++ newline_indent (S level) ++ dump (S level) x
      ++ List.concat (map (fun y => lit "," ++ newline_indent (S level)
                               ++ dump (S level) y) xs)
      ++ newline_indent level ++ lit "]"
  | JDict [] => lit "{}"
  | JDict ((k, x) :: xs) =>
      lit "{" ++ newline_indent (S level)
      ++ encode_basestring k ++ lit ": " ++ dump (S level) x
      ++ List.concat (map (fun kv => lit "," ++ newline_indent (S level)
                                ++ encode_basestring (fst kv) ++ lit ": "
                                ++ dump (S level) (snd kv)) xs)
      ++ newline_indent level ++ lit "}"
  end.

Definition json_dumps (v : json) : string := string_of_list_ascii (dump 0 v).

(** Outcome of a scanner: a value and the rest of the text, a syntax
    error, a construct outside the model, or fuel exhausted. *)
Inductive pres (A : Type) : Type :=
| POk (a : A) (rest : text)
| PErr
| PUnsupported
| PFuel.

Arguments POk {A} a rest.
Arguments PErr {A}.
Arguments PUnsupported {A}.
Arguments PFuel {A}.

Definition pbind {A B} (p : pres A) (k : A -> text -> pres B) : pres B :=
  match p with
  | POk a rest => k a rest
  | PErr => PErr
  | PUnsupported => PUnsupported
  | PFuel => PFuel
  end.

Definition is_ws (c : ascii) : bool :=
  Ascii.eqb c " " || Ascii.eqb c "009" || Ascii.eqb c "010" || Ascii.eqb c "013".

Fixpoint skip_ws (s : text) : text :=
  match s with
  | c :: r => if is_ws c then skip_ws r else s
  | [] => []
  end.

Definition is_digit (c : ascii) : bool :=
  ((48 <=? N_of_ascii c) && (N_of_ascii c <=? 57))%N.

Definition hex_value (c : ascii) : option N :=
  let n := N_of_ascii c in
  if ((48 <=? n) && (n <=? 57))%N then Some (n - 48)%N
  else if ((97 <=? n) && (n <=? 102))%N then Some (n - 87)%N
  else if ((65 <=? n) && (n <=? 70))%N then Some (n - 55)%N
  else None.

Definition hex4 (a b c d : ascii) : option N :=
  match hex_value a, hex_value b, hex_value c, hex_value d with
  | Some x, Some y, Some z, Some t => Some (((x * 16 + y) * 16 + z) * 16 + t)%N
  | _, _, _, _ => None
  end.

(** The character a backslash escape stands for. *)
Definition unescape (c : ascii) : option ascii :=
  if Ascii.eqb c dquote then Some dquote
  else if Ascii.eqb c "\" then Some "\"%char
  else if Ascii.eqb c "/" then Some "/"%char
  else if Ascii.eqb c "b" then Some "008"%char
  else if Ascii.eqb c "f" then Some "012"%char
  else if Ascii.eqb c "n" then Some "010"%char
  else if Ascii.eqb c "r" then Some "013"%char
  else if Ascii.eqb c "t" then Some "009"%char
  else None.

Definition pcons (c : ascii) (p : pres string) : pres string :=
  pbind p (fun s rest => POk (String c s) rest).

(** [scanstring], strict, entered after the opening quote. *)
Fixpoint scanstring (s : text) : pres string :=
  match s with
  | [] => PErr
  | c :: r =>
      if Ascii.eqb c dquote then POk EmptyString r
      else if Ascii.eqb c "\" then
        match r with
        | [] => PErr
        | e :: r1 =>
            if Ascii.eqb e "u" then
              match r1 with
              | h1 :: h2 :: h3 :: h4 :: r2 =>
                  match hex4 h1 h2 h3 h4 with
                  | Some n => if (n <? 256)%N
                              then pcons (ascii_of_N n) (scanstring r2)
                              else PUnsupported
                  | None => PErr
                  end
              | _ => PErr
              end
            else
              match unescape e with
              | Some ch => pcons ch (scanstring r1)
              | None => PErr
              end
        end
      else if is_ctrl c then PErr
      else pcons c (scanstring r)
  end.

(** The longest run of digits at the head of a text. *)
Fixpoint span_digits (s : text) : text * text :=
  match s with
  | c :: r => if is_digit c
              then let (ds, rest) := span_digits r in (c :: ds, rest)
              else ([], s)
  | [] => ([], [])
  end.

Definition digits_value (ds : text) : Z :=
  match NilEmpty.uint_of_string (string_of_list_ascii ds) with
  | Some u => Z.of_uint u
  | None => 0
  end.

(** A fraction or an exponent after the integer part makes a float. *)
Definition float_tail (s : text) : bool :=
  match s with
  | c :: d :: r =>
      if Ascii.eqb c "." then is_digit d
      else if Ascii.eqb c "e" || Ascii.eqb c "E" then
        is_digit d ||
        ((Ascii.eqb d "+" || Ascii.eqb d "-") &&
         match r with x :: _ => is_digit x | [] => false end)
      else false
  | _ => false
  end.

Fixpoint starts_with (p s : text) : bool :=
  match p, s with
  | [], _ => true
  | a :: p', b :: s' => Ascii.eqb a b && starts_with p' s'
  | _ :: _, [] => false
  end.

(** The integer part of a number, entered after the sign: a lone zero,
    or a non-zero digit and the digits after it. *)
Definition scan_digits (s : text) : pres Z :=
  match s with
  | c :: r =>
      if Ascii.eqb c "0" then
        if float_tail r then PUnsupported else POk 0%Z r
      else if is_digit c then
        let (ds, rest) := span_digits s in
        if float_tail rest then PUnsupported else POk (digits_value ds) rest
      else PErr
  | [] => PErr
  end.

Definition scan_number (s : text) : pres json :=
  match s with
  | c :: r =>
      if Ascii.eqb c "-" then
        if starts_with (lit "Infinity") r then PUnsupported
        else pbind (scan_digits r) (fun z rest => POk (JInt (- z)) rest)
      else pbind (scan_digits s) (fun z rest => POk (JInt z) rest)
  | [] => PErr
  end.

Definition scan_literal (word : string) (v : json) (s : text) : pres json :=
  if starts_with (lit word) s
  then POk v (skipn (String.length word) s)
  else PErr.

(** [scan_once], with the object and array parsers. *)
Fixpoint scan_once (fuel : nat) (s : text) {struct fuel} : pres json :=
  match fuel with
  | O => PFuel
  | S n =>
      match s with
      | [] => PErr
      | c :: r =>
          if Ascii.eqb c dquote then
            pbind (scanstring r) (fun str rest => POk (JStr str) rest)
          else if Ascii.eqb c "{" then
            match skip_ws r with
            | d :: r' =>
                if Ascii.eqb d "}" then POk (JDict []) r'
                else pbind (parse_members n (d :: r'))
                       (fun pairs rest => POk (JDict (Dict.of_pairs pairs)) rest)
            | [] => PErr
            end
          else if Ascii.eqb c "[" then
            match skip_ws r with
            | d :: r' =>
                if Ascii.eqb d "]" then POk (JList []) r'
                else pbind (parse_elements n (d :: r'))
                       (fun l rest => POk (JList l) rest)
            | [] => PErr
            end
          else if Ascii.eqb c "n" then scan_literal "null" JNull s
          else if Ascii.eqb c "t" then scan_literal "true" (JBool true) s
          else if Ascii.eqb c "f" then scan_literal "false" (JBool false) s
          else if Ascii.eqb c "N" then
            if starts_with (lit "NaN") s then PUnsupported else PErr
          else if Ascii.eqb c "I" then
            if starts_with (lit "Infinity") s then PUnsupported else PErr
          else scan_number s
      end
  end

with parse_elements (fuel : nat) (s : text) {struct fuel} : pres (list json) :=
  match fuel with
  | O => PFuel
  | S n =>
      pbind (scan_once n s) (fun v rest =>
        match skip_ws rest with
        | c :: r =>
            if Ascii.eqb c "," then
              pbind (parse_elements n (skip_ws r))
                (fun vs rest' => POk (v :: vs) rest')
            else if Ascii.eqb c "]" then POk [v] r
            else PErr
        | [] => PErr
        end)
  end

with parse_members (fuel : nat) (s : text) {struct fuel}
  : pres (list (string * json)) :=
  match fuel with
  | O => PFuel
  | S n =>
      match s with
      | q :: r =>
          if Ascii.eqb q dquote then
            pbind (scanstring r) (fun k rest =>
              match skip_ws rest with
              | c :: r1 =>
                  if Ascii.eqb c ":" then
                    pbind (scan_once n (skip_ws r1)) (fun v rest2 =>
                      match skip_ws rest2 with
                      | c2 :: r3 =>
                          if Ascii.eqb c2 "," then
                            pbind (parse_members n (skip_ws r3))
                              (fun ps rest3 => POk ((k, v) :: ps) rest3)
                          else if Ascii.eqb c2 "}" then POk [(k, v)] r3
                          else PErr
                      | [] => PErr
                      end)
                  else PErr
              | [] => PErr
              end)
          else PErr
      | [] => PErr
      end
  end.

Definition scan_fuel (s : text) : nat := 2 * List.length s + 1.

(** [json.loads]: one value between optional whitespace. *)
Definition json_loads (s : string) : result json :=
  let t := skip_ws (list_ascii_of_string s) in
  match scan_once (scan_fuel t) t with
  | POk v rest =>
      match skip_ws rest with
      | [] => Ok v
      | _ :: _ => Raise JSONDecodeError
      end
  | PErr => Raise JSONDecodeError
  | PUnsupported => Raise NotModelled
  | PFuel => Raise NotModelled
  end.


(** ** [json.loads] on [bytes]

    [communicate()] returns what the worker wrote as [bytes], one
    character of a [string] per byte here.  Given [bytes], [json.loads]
    picks the encoding with [detect_encoding], decodes with the error
    handler [surrogatepass] and hands the text to the decoder.  Of the
    encodings it can pick, UTF-8 with and without signature is modelled;
    bytes it takes for UTF-16 or UTF-32, and text with a character
    above U+00FF, are outside the model ([NotModelled]). *)

Definition bytes := string.

Inductive encoding : Type :=
| utf_8 | utf_8_sig | utf_16 | utf_16_be | utf_16_le
| utf_32 | utf_32_be | utf_32_le.

Definition is_nul (c : ascii) : bool := (N_of_ascii c =? 0)%N.

Definition byte_is (n : N) (c : ascii) : bool := (N_of_ascii c =? n)%N.

(** [b.startswith(...)] for a prefix given by its byte values. *)
Fixpoint bytes_start (p : list N) (b : bytes) : bool :=
  match p, b with
  | [], _ => true
  | n :: p', String c b' => byte_is n c && bytes_start p' b'
  | _ :: _, EmptyString => false
  end.

Definition detect_encoding (b : bytes) : encoding :=
  if bytes_start [0; 0; 254; 255]%N b || bytes_start [255; 254; 0; 0]%N b
  then utf_32
  else if bytes_start [254; 255]%N b || bytes_start [255; 254]%N b
  then utf_16
  else if bytes_start [239; 187; 191]%N b then utf_8_sig
  else
    match b with
    | String b0 (String b1 (String b2 (String b3 _))) =>
        if is_nul b0 then (if is_nul b1 then utf_32_be else utf_16_be)
        else if is_nul b1
        then (if is_nul b2 && is_nul b3 then utf_32_le else utf_16_le)
        else utf_8
    | String b0 (String b1 EmptyString) =>
        if is_nul b0 then utf_16_be
        else if is_nul b1 then utf_16_le
        else utf_8
    | _ => utf_8
    end.

(** What decoding gives: text of characters up to U+00FF, well-formed
    input with a character above U+00FF, or input that is not UTF-8. *)
Inductive decoded : Type :=
| DText (t : string)
| DWide
| DInvalid.

Definition dcons (c : ascii) (d : decoded) : decoded :=
  match d with
  | DText t => DText (String c t)
  | DWide => DWide
  | DInvalid => DInvalid
  end.

Definition dwide (d : decoded) : decoded :=
  match d with
  | DInvalid => DInvalid
  | _ => DWide
  end.

(** A continuation byte, [10xxxxxx]. *)
Definition is_cont (c : ascii) : bool :=
  ((128 <=? N_of_ascii c) && (N_of_ascii c <=? 191))%N.

(** The second byte of a three-byte sequence led by [b0]: [E0] excludes
    the overlong forms; with [surrogatepass] the surrogates, led by
    [ED], pass. *)
Definition second_of_3 (b0 b1 : ascii) : bool :=
  if byte_is 224 b0
  then ((160 <=? N_of_ascii b1) && (N_of_ascii b1 <=? 191))%N
  else is_cont b1.

(** The second byte of a four-byte sequence led by [b0]: [F0] excludes
    the overlong forms, [F4] what lies above U+10FFFF. *)
Definition second_of_4 (b0 b1 : ascii) : bool :=
  if byte_is 240 b0
  then ((144 <=? N_of_ascii b1) && (N_of_ascii b1 <=? 191))%N
  else if byte_is 244 b0
  then ((128 <=? N_of_ascii b1) && (N_of_ascii b1 <=? 143))%N
  else is_cont b1.

(** [b.decode("utf-8", "surrogatepass")] *)
Fixpoint utf8_decode (b : bytes) : decoded :=
  match b with
  | EmptyString => DText EmptyString
  | String b0 r0 =>
      let n0 := N_of_ascii b0 in
      if (n0 <? 128)%N then dcons b0 (utf8_decode r0)
      else if ((194 <=? n0) && (n0 <=? 223))%N then
        match r0 with
        | String b1 r1 =>
            if is_cont b1 then
              if (n0 <=? 195)%N
              then dcons (ascii_of_N ((n0 - 192) * 64 + (N_of_ascii b1 - 128)))
                     (utf8_decode r1)
              else dwide (utf8_decode r1)
            else DInvalid
        | EmptyString => DInvalid
        end
      else if ((224 <=? n0) && (n0 <=? 239))%N then
        match r0 with
        | String b1 (String b2 r2) =>
            if second_of_3 b0 b1 && is_cont b2
            then dwide (utf8_decode r2)
            else DInvalid
        | _ => DInvalid
        end
      else if ((240 <=? n0) && (n0 <=? 244))%N then
        match r0 with
        | String b1 (String b2 (String b3 r3)) =>
            if second_of_4 b0 b1 && is_cont b2 && is_cont b3
            then dwide (utf8_decode r3)
            else DInvalid
        | _ => DInvalid
        end
      else DInvalid
  end.

Definition decode_utf8 (b : bytes) : result string :=
  match utf8_decode b with
  | DText t => Ok t
  | DWide => Raise NotModelled
  | DInvalid => Raise UnicodeDecodeError
  end.

(** [s.decode(detect_encoding(s), "surrogatepass")] *)
Definition bytes_decode (b : bytes) : result string :=
  match detect_encoding b with
  | utf_8 => decode_utf8 b
  | utf_8_sig =>
      match b with
      | String _ (String _ (String _ r)) => decode_utf8 r
      | _ => decode_utf8 b
      end
  | _ => Raise NotModelled
  end.

(** An ASCII character other than NUL: as a byte it stands for itself. *)
Definition is_plain (c : ascii) : bool :=
  ((0 <? N_of_ascii c) && (N_of_ascii c <? 128))%N.

(** [json.loads(s)] for [s] of type [bytes] *)
Definition json_loads_bytes (b : bytes) : result json :=
  s <- bytes_decode b ;; json_loads s.


(** ** The world: files, the log, worker processes, the environment *)

Inductive log_record : Type :=
| WarningUnknownSchema
| CriticalJSONDecodeError
| InfoParsingModels (num_models num_jobs : nat)
| DebugParsing (f : string)
| InfoAdded (name : json)
| ErrorJSONDecodeError (f : string)
| ErrorFilesRemaining (n : nat)
| ErrorJobsRunning (n : nat)
| InfoProcessed (count total : nat).

(** A worker process is started by [Popen] and collected by
    [communicate]. *)
Inductive event : Type :=
| Spawn (pid : nat) (f : string)
| Reap (pid : nat).

Record world : Type := {
  files : list (string * string);        (* path |-> text *)
  log : list log_record;
  events : list event;
  (* the environment, never written *)
  lbw_version : string;
  lbw_version_info : Z * Z * Z;
  cpu_count : option nat;
  glob : string -> list string;
  worker_stdout : string -> bytes         (* file |-> what its worker writes *)
}.

Definition with_files (w : world) (fs : list (string * string)) : world :=
  {| files := fs; log := log w; events := events w;
     lbw_version := lbw_version w; lbw_version_info := lbw_version_info w;
     cpu_count := cpu_count w; glob := glob w;
     worker_stdout := worker_stdout w |}.

Definition add_log (w : world) (r : log_record) : world :=
  {| files := files w; log := log w ++ [r]; events := events w;
     lbw_version := lbw_version w; lbw_version_info := lbw_version_info w;
     cpu_count := cpu_count w; glob := glob w;
     worker_stdout := worker_stdout w |}.

Definition add_event (w : world) (e : event) : world :=
  {| files := files w; log := log w; events := events w ++ [e];
     lbw_version := lbw_version w; lbw_version_info := lbw_version_info w;
     cpu_count := cpu_count w; glob := glob w;
     worker_stdout := worker_stdout w |}.

Definition M (A : Type) : Type := world -> result A * world.

Definition ret {A} (a : A) : M A := fun w => (Ok a, w).

Definition raise {A} (e : exn) : M A := fun w => (Raise e, w).

Definition lift {A} (r : result A) : M A := fun w => (r, w).

Definition mbind {A B} (c : M A) (k : A -> M B) : M B :=
  fun w =>
    match c w with
    | (Ok a, w') => k a w'
    | (Raise e, w') => (Raise e, w')
    end.

Declare Scope M_scope.
Delimit Scope M_scope with M.
Notation "x <- c ;; k" := (mbind c (fun x => k))
  (at level 61, c at next level, right associativity) : M_scope.
Notation "c ;;; k" := (mbind c (fun _ => k))
  (at level 61, right associativity) : M_scope.
Arguments lift {A} r%_result.

(** [try: body except ...]: [handler e] is the clause that catches [e]. *)
Definition try_catch {A} (body : M A) (handler : exn -> option (M A)) : M A :=
  fun w =>
    match body w with
    | (Ok a, w') => (Ok a, w')
    | (Raise e, w') =>
        match handler e with
        | Some h => h w'
        | None => (Raise e, w')
        end
    end.

Definition logger (r : log_record) : M unit :=
  fun w => (Ok tt, add_log w r).

(** [open(path, "r")] and [f.read()] *)
Definition read_file (path : string) : M string :=
  fun w =>
    match Dict.get path (files w) with
    | Some t => (Ok t, w)
    | None => (Raise FileNotFoundError, w)
    end.

(** [open(path, "w")] creates or truncates; [f.write(t)] fills. *)
Definition write_file (path t : string) : M unit :=
  fun w => (Ok tt, with_files w (Dict.set path t (files w))).

(** ** Store operations *)

Definition initialize (self : ThicketDB) : M ThicketDB :=
  fun w =>
    let '(major, minor, micro) := lbw_version_info w in
    (Ok (set_db self
           (JDict [("info", JDict [("sdk_version", JStr (lbw_version w));
                                   ("sdk_major", JInt major);
                                   ("sdk_minor", JInt minor);
                                   ("sdk_micro", JInt micro);
                                   ("schema_version", JInt SCHEMA_VERSION)]);
                   ("labels", JDict []);
                   ("models", JDict [])])), w).

Definition save (self : ThicketDB) : M unit :=
  (write_file (_db_filename self) EmptyString ;;;
   d <- lift (self_db self) ;;
   write_file (_db_filename self) (json_dumps d))%M.

Definition ThicketDB_init (db_filename loc py : string) (create : bool)
  : M ThicketDB :=
  let self := {| _db_filename := db_filename;
                 locale := str_replace "_" "-" loc;
                 python := py; _db := None |} in
  try_catch
    (t <- read_file db_filename ;;
     d <- lift (json_loads t) ;;
     info <- lift (py_getitem d (JStr "info")) ;;
     sv <- lift (py_getitem info (JStr "schema_version")) ;;
     old <- lift (py_lt_int sv SCHEMA_VERSION) ;;
     if old : bool then
       logger WarningUnknownSchema ;;; raise ThicketDBOldSchemaError
     else ret (set_db self d))%M
    (fun e =>
       match e with
       | FileNotFoundError =>
           Some (if create then
                   (self <- initialize self ;; save self ;;; ret self)%M
                 else raise FileNotFoundError)
       | JSONDecodeError =>
           Some (logger CriticalJSONDecodeError ;;; ret self)%M
       | _ => None
       end).

(** ** The build scheduler *)

Record job : Type := {
  pid : nat;
  job_file : string
}.

Definition Popen (f : string) : M job :=
  fun w =>
    let p := List.length (events w) in
    (Ok {| pid := p; job_file := f |}, add_event w (Spawn p f)).

Definition communicate (j : job) : M bytes :=
  fun w => (Ok (worker_stdout w (job_file j)), add_event w (Reap (pid j))).

(** [l.pop()] takes the last element. *)
Definition list_pop {A} (l : list A) : option (A * list A) :=
  match rev l with
  | [] => None
  | x :: r => Some (x, rev r)
  end.

(** The local variables of [build] that its loops change. *)
Record build_state : Type := {
  bs_self : ThicketDB;
  bs_model_files : list string;
  bs_jobs : list job;                (* the deque, oldest first *)
  bs_f : option string           (* the variable [f], once bound *)
}.

(** Keep up to [num_jobs] jobs running. *)
Fixpoint top_up (fuel num_jobs : nat) (st : build_state) : M build_state :=
  match fuel with
  | O => raise OutOfFuel
  | S fuel' =>
      if ((List.length (bs_jobs st) <? num_jobs)
          && (0 <? List.length (bs_model_files st)))%nat
      then
        match list_pop (bs_model_files st) with
        | None => raise IndexError
        | Some (f, rest) =>
            (logger (DebugParsing f) ;;;
             j <- Popen f ;;
             top_up fuel' num_jobs
               {| bs_self := bs_self st; bs_model_files := rest;
                  bs_jobs := bs_jobs st ++ [j]; bs_f := Some f |})%M
        end
      else ret st
  end.

(** The body of the [try] that merges one worker's output, and its
    [except] clause. *)
Definition merge_result (st : build_state) (outs : bytes) : M build_state :=
  try_catch
    (m_rec <- lift (json_loads_bytes outs) ;;
     model <- lift (py_getitem m_rec (JStr "model")) ;;
     d <- lift (self_db (bs_self st)) ;;
     models <- lift (py_getitem d (JStr "models")) ;;
     name <- lift (m <- py_getitem m_rec (JStr "model") ;;
                   py_getitem m (JStr "name")) ;;
     models' <- lift (py_setitem models name model) ;;
     d' <- lift (py_setitem d (JStr "models") models') ;;
     labels <- lift (py_getitem m_rec (JStr "labels")) ;;
     self' <- lift (update_labels (set_db (bs_self st) d') labels) ;;
     name' <- lift (m <- py_getitem m_rec (JStr "model") ;;
                    py_getitem m (JStr "name")) ;;
     logger (InfoAdded name') ;;;
     ret {| bs_self := self'; bs_model_files := bs_model_files st;
            bs_jobs := bs_jobs st; bs_f := bs_f st |})%M
    (fun e =>
       match e with
       | JSONDecodeError =>
           Some (f <- lift (match bs_f st with
                            | Some f => Ok f
                            | None => Raise UnboundLocalError
                            end) ;;
                 logger (ErrorJSONDecodeError f) ;;;
                 ret st)%M
       | _ => None
       end).

Fixpoint build_loop (fuel num_jobs : nat) (st : build_state)
  : M build_state :=
  match fuel with
  | O => raise OutOfFuel
  | S fuel' =>
      if ((0 <? List.length (bs_model_files st))
          || (0 <? List.length (bs_jobs st)))%nat
      then
        (st1 <- top_up (S (List.length (bs_model_files st))) num_jobs st ;;
         (* wait for the oldest job to complete *)
         match bs_jobs st1 with
         | [] => raise IndexError
         | j :: rest =>
             outs <- communicate j ;;
             st2 <- merge_result
                      {| bs_self := bs_self st1;
                         bs_model_files := bs_model_files st1;
                         bs_jobs := rest; bs_f := bs_f st1 |} outs ;;
             build_loop fuel' num_jobs st2
         end)%M
      else ret st
  end.

(** [os.cpu_count()], or 4 when it is [None] or zero. *)
Definition num_jobs_of (cpus : option nat) : nat :=
  match cpus with
  | Some (S n) => S n
  | _ => 4
  end.

Definition build (self : ThicketDB) (models_dir sdk_path : string)
  : M ThicketDB :=
  (self <- initialize self ;;
   model_files <- (fun w => (Ok (glob w (models_dir ++ "/*/*.lbw.gz")%string), w)) ;;
   let num_models := List.length model_files in
   num_jobs <- (fun w => (Ok (num_jobs_of (cpu_count w)), w)) ;;
   logger (InfoParsingModels num_models num_jobs) ;;;
   st <- build_loop (S (List.length model_files)) num_jobs
           {| bs_self := self; bs_model_files := model_files;
              bs_jobs := []; bs_f := None |} ;;
   (if (0 <? List.length (bs_model_files st))%nat
    then logger (ErrorFilesRemaining (List.length (bs_model_files st)))
    else ret tt) ;;;
   (if (0 <? List.length (bs_jobs st))%nat
    then logger (ErrorJobsRunning (List.length (bs_jobs st)))
    else ret tt) ;;;
   save (bs_self st) ;;;
   count <- lift (model_count (bs_self st)) ;;
   logger (InfoProcessed count num_models) ;;;
   ret (bs_self st))%M.

(** ** The data model of the document, as predicates *)

Definition is_str (v : json) : bool :=
  match v with JStr _ => true | _ => false end.

Definition is_dict (v : json) : bool :=
  match v with JDict _ => true | _ => false end.

Definition nonempty_str (v : json) : bool :=
  match v with
  | JStr s => negb (s =? EmptyString)%string
  | _ => false
  end.

(** The label table of a loaded document maps each entity key to a
    locale mapping. *)
Definition labels_ok (self : ThicketDB) : bool :=
  match _db self with
  | Some (JDict d) =>
      match Dict.get "labels" d with
      | Some (JDict tbl) => forallb (fun kv => is_dict (snd kv)) tbl
      | Some _ => false
      | None => true
      end
  | _ => false
  end.

(** Every display string stored for [key] is a non-empty string. *)
Definition display_strings_nonempty (self : ThicketDB) (key : string) : bool :=
  match labels_entry self (JStr key) with
  | Ok (JDict e) => forallb (fun kv => nonempty_str (snd kv)) e
  | _ => true
  end.

(** The locale [get_label] looks up: the normalized argument, or the
    store's locale when the argument is missing or empty. *)
Definition effective_locale (self : ThicketDB) (loc : option string) : string :=
  match loc with
  | Some l => if negb (l =? EmptyString)%string
              then str_replace "_" "-" l
              else locale self
  | None => locale self
  end.

(** A Variant record with the fields [index], [seasons], [default_season]
    and [preview], season names being strings. *)
Definition variant_rec_ok (v_rec : json) : bool :=
  match v_rec with
  | JDict d =>
      Dict.mem "index" d
      && match Dict.get "seasons" d with
         | Some (JList ss) => forallb is_str ss
         | _ => false
         end
      && match Dict.get "default_season" d with
         | Some (JStr _) => true
         | _ => false
         end
      && Dict.mem "preview" d
  | _ => false
  end.

(** A Model record with its fields, whose variants are Variant records. *)
Definition model_rec_ok (m_rec : json) : bool :=
  match m_rec with
  | JDict d =>
      Dict.mem "md5" d && Dict.mem "filepath" d && Dict.mem "preview" d
      && match Dict.get "variants" d with
         | Some (JDict vs) => forallb (fun kv => variant_rec_ok (snd kv)) vs
         | _ => false
         end
      && match Dict.get "default_variant" d with
         | Some (JStr _) => true
         | _ => false
         end
  | _ => false
  end.

(** [default_variant] names a key of [variants]. *)
Definition default_variant_present (m_rec : json) : bool :=
  match m_rec with
  | JDict d =>
      match Dict.get "default_variant" d, Dict.get "variants" d with
      | Some (JStr dv), Some (JDict vs) => Dict.mem dv vs
      | _, _ => false
      end
  | _ => false
  end.

(** The invariant as far as it names fields only: [default_variant] is
    a key of [variants], and every variant record has the fields
    [index], [seasons], [default_season] and [preview], whatever they
    hold. *)
Definition variant_fields_present (v_rec : json) : bool :=
  match v_rec with
  | JDict d =>
      Dict.mem "index" d && Dict.mem "seasons" d
      && Dict.mem "default_season" d && Dict.mem "preview" d
  | _ => false
  end.

Definition fields_present (m_rec : json) : bool :=
  default_variant_present m_rec
  && match m_rec with
     | JDict d =>
         match Dict.get "variants" d with
         | Some (JDict vs) =>
             forallb (fun kv => variant_fields_present (snd kv)) vs
         | _ => false
         end
     | _ => false
     end.

(** [self._db["models"][name]] *)
Definition stored_model (self : ThicketDB) (name : string) : result json :=
  d <- self_db self ;;
  models <- py_getitem d (JStr "models") ;;
  py_getitem models (JStr name).

(** ** The resolver as the specification words it *)

(** The substring before the first hyphen, or the whole string. *)
Fixpoint primary_subtag (l : string) : string :=
  match l with
  | EmptyString => EmptyString
  | String c r => if Ascii.eqb c "-" then EmptyString
                  else String c (primary_subtag r)
  end.

Definition resolve_spec (table : list (string * json)) (key loc : string)
  : json :=
  let loc := str_replace "_" "-" loc in
  match Dict.get key table with
  | Some (JDict e) =>
      match Dict.get loc e with
      | Some v => v
      | None =>
          match Dict.get (primary_subtag loc) e with
          | Some v => v
          | None => JStr key
          end
      end
  | _ => JStr key
  end.

(** ** Sample stores and worlds *)

Definition store_of (d : json) : ThicketDB :=
  {| _db_filename := "thicket.db"; locale := "en-US";
     python := "python"; _db := Some d |}.

Definition doc_of (schema : Z) (labels models : list (string * json)) : json :=
  JDict [("info", JDict [("sdk_version", JStr "1.0.33");
                         ("schema_version", JInt schema)]);
         ("labels", JDict labels);
         ("models", JDict models)].

Definition world_of (fs : list (string * string)) : world :=
  {| files := fs; log := []; events := [];
     lbw_version := "1.0.33";
     lbw_version_info := (1, 0, 33)%Z;
     cpu_count := Some 2;
     glob := fun _ => [];
     worker_stdout := fun _ => EmptyString |}.

Definition oak_db : ThicketDB :=
  store_of (doc_of 2 [("oak", JDict [("en", JStr "Oak")])] []).

Definition oak_incoming : json :=
  JDict [("oak", JDict [("de", JStr "Eiche")])].

Definition yue_db : ThicketDB :=
  store_of (doc_of 2 [("oak", JDict [("yue", JStr "A")])] []).

Definition blank_db : ThicketDB :=
  store_of (doc_of 2 [("oak", JDict [("en", JStr EmptyString)])] []).

Definition variant_rec : json :=
  JDict [("index", JInt 0); ("seasons", JList [JStr "summer"]);
         ("default_season", JStr "summer"); ("preview", JStr EmptyString)].

Definition model_rec (name default_variant : string) : json :=
  JDict [("name", JStr name); ("filepath", JStr "/plants/oak.lbw.gz");
         ("md5", JStr "d41d8cd98f00b204e9800998ecf8427e");
         ("default_variant", JStr default_variant);
         ("preview", JStr "/plants/oak.png");
         ("variants", JDict [("young", variant_rec)])].

(** A Variant record whose [seasons] is a number. *)
Definition odd_variant_rec : json :=
  JDict [("index", JInt 0); ("seasons", JInt 3);
         ("default_season", JStr "summer"); ("preview", JStr EmptyString)].

Definition odd_model_rec : json :=
  JDict [("name", JStr "oak"); ("filepath", JStr "/plants/oak.lbw.gz");
         ("md5", JStr "d41d8cd98f00b204e9800998ecf8427e");
         ("default_variant", JStr "young");
         ("preview", JStr "/plants/oak.png");
         ("variants", JDict [("young", odd_variant_rec)])].

Definition farm_files : list string :=
  ["/plants/a/a.lbw.gz"; "/plants/b/b.lbw.gz"; "/plants/c/c.lbw.gz"].

Definition farm_record (f : string) : json :=
  JDict [("model", model_rec f "young");
         ("labels", JDict [(f, JDict [("en", JStr "Tree")])])].

(** Three asset files; the worker of the second one crashes. *)
Definition farm_world : world :=
  {| files := []; log := []; events := [];
     lbw_version := "1.0.33";
     lbw_version_info := (1, 0, 33)%Z;
     cpu_count := Some 2;
     glob := fun _ => farm_files;
     worker_stdout := fun f =>
       if (f =? "/plants/b/b.lbw.gz")%string
       then "Traceback (most recent call last):"
       else json_dumps (farm_record f) |}.

(** Three asset files; the worker of the second one writes a byte that
    is no UTF-8. *)
Definition garbled_world : world :=
  {| files := []; log := []; events := [];
     lbw_version := "1.0.33";
     lbw_version_info := (1, 0, 33)%Z;
     cpu_count := Some 2;
     glob := fun _ => farm_files;
     worker_stdout := fun f =>
       if (f =? "/plants/b/b.lbw.gz")%string
       then String "255" EmptyString
       else json_dumps (farm_record f) |}.

Definition fresh_store : ThicketDB :=
  {| _db_filename := "thicket.db"; locale := "en-US";
     python := "python"; _db := None |}.

(** ** Reading the trace of worker processes *)

Definition spawned (tr : list event) : list nat :=
  flat_map (fun e => match e with Spawn p _ => [p] | Reap _ => [] end) tr.

Definition reaped (tr : list event) : list nat :=
  flat_map (fun e => match e with Spawn _ _ => [] | Reap p => [p] end) tr.

Definition spawned_files (tr : list event) : list string :=
  flat_map (fun e => match e with Spawn _ f => [f] | Reap _ => [] end) tr.

(** Workers started and not yet collected. *)
Definition in_flight (tr : list event) : nat :=
  List.length (spawned tr) - List.length (reaped tr).

(** At every point of the trace the workers collected so far are the
    first ones started, in the order they were started, and at most
    [n] are waiting to be collected. *)
Definition fifo_bounded (n : nat) (tr : list event) : Prop :=
  forall p q, tr = p ++ q ->
    exists waiting,
      spawned p = reaped p ++ waiting /\ List.length waiting <= n.

(** The jobs [top_up] starts for the files it takes, and their events. *)
Fixpoint spawn_jobs (base : nat) (fs : list string) : list job :=
  match fs with
  | [] => []
  | f :: r => {| pid := base; job_file := f |} :: spawn_jobs (S base) r
  end.

Definition spawn_events (js : list job) : list event :=
  map (fun j => Spawn (pid j) (job_file j)) js.

(** The world after more log records and more events. *)
Definition extend (w : world) (l : list log_record) (e : list event) : world :=
  {| files := files w; log := log w ++ l; events := events w ++ e;
     lbw_version := lbw_version w; lbw_version_info := lbw_version_info w;
     cpu_count := cpu_count w; glob := glob w;
     worker_stdout := worker_stdout w |}.

(** The files still to be collected, in the order they will be: those of
    the jobs in flight, then the pending ones from the last to the
    first. *)
Definition pending (st : build_state) : list string :=
  map job_file (bs_jobs st) ++ rev (bs_model_files st).

(** What a worker wrote: text that does not decode as JSON, a record
    with a named model and its labels, or anything else, bytes that are
    no text among it. *)
Inductive outcome : Type :=
| Malformed
| Parsed (name : string) (model : json) (labels : list (string * json))
| Other.

Definition classify (outs : bytes) : outcome :=
  match json_loads_bytes outs with
  | Raise JSONDecodeError => Malformed
  | Raise _ => Other
  | Ok m_rec =>
      match py_getitem m_rec (JStr "model") with
      | Ok model =>
          match py_getitem model (JStr "name"),
                py_getitem m_rec (JStr "labels") with
          | Ok (JStr n), Ok (JDict ls) => Parsed n model ls
          | _, _ => Other
          end
      | Raise _ => Other
      end
  end.

Definition is_malformed (w : world) (f : string) : bool :=
  match classify (worker_stdout w f) with
  | Malformed => true
  | _ => false
  end.

Definition is_other (w : world) (f : string) : bool :=
  match classify (worker_stdout w f) with
  | Other => true
  | _ => false
  end.


(** The model and label tables of the in-memory document. *)
Definition db_tables (self : ThicketDB) (ms ls : list (string * json)) : Prop :=
  exists d,
    _db self = Some (JDict d) /\
    Dict.get "models" d = Some (JDict ms) /\
    Dict.get "labels" d = Some (JDict ls).

(** The exceptions the operations on values raise. *)
Definition op_exn (e : exn) : bool :=
  match e with
  | KeyError | TypeError | IndexError | AttributeError | NotModelled => true
  | _ => false
  end.

(** The state and the world [build] enters its loop with. *)
Definition build_entry (self : ThicketDB) (models_dir : string) (w : world)
  : build_state * world :=
  let model_files := glob w (models_dir ++ "/*/*.lbw.gz")%string in
  ({| bs_self := match initialize self w with
                 | (Ok s, _) => s
                 | (Raise _, _) => self
                 end;
      bs_model_files := model_files; bs_jobs := []; bs_f := None |},
   add_log w (InfoParsingModels (List.length model_files)
                (num_jobs_of (cpu_count w)))).

(** ** Well-formed values, and measures used in the proofs *)

(** A text of decimal digits only. *)
Fixpoint all_digits (s : string) : bool :=
  match s with
  | EmptyString => true
  | String c r => is_digit c && all_digits r
  end.

(** The text after a number does not continue it: no digit, no
    fraction, no exponent. *)
Definition delimited (rest : text) : bool :=
  match rest with
  | [] => true
  | c :: _ => negb (is_digit c) && negb (Ascii.eqb c ".")
              && negb (Ascii.eqb c "e") && negb (Ascii.eqb c "E")
  end.

(** Pairwise distinct strings. *)
Fixpoint nodupb (l : list string) : bool :=
  match l with
  | [] => true
  | x :: r => negb (existsb (String.eqb x) r) && nodupb r
  end.

(** Every dict of the value has pairwise distinct keys, as a Python
    dict has. *)
Fixpoint json_wf (v : json) : bool :=
  match v with
  | JList l => forallb json_wf l
  | JDict d => nodupb (map fst d) && forallb (fun kv => json_wf (snd kv)) d
  | _ => true
  end.

(** Fuel that suffices to scan the text of a value. *)
Fixpoint fsize (v : json) : nat :=
  match v with
  | JList l => S (list_sum (map (fun x => S (fsize x)) l))
  | JDict d => S (list_sum (map (fun kv => S (fsize (snd kv))) d))
  | _ => 1
  end.

(** What [dump] prints for the items of a list after the first, and for
    the members of a dict after the first. *)
Definition dump_items (level : nat) (xs : list json) : text :=
  List.concat (map (fun y => lit "," ++ newline_indent (S level)
                             ++ dump (S level) y) xs).

Definition dump_members (level : nat) (xs : list (string * json)) : text :=
  List.concat (map (fun kv => lit "," ++ newline_indent (S level)
                              ++ encode_basestring (fst kv) ++ lit ": "
                              ++ dump (S level) (snd kv)) xs).

(** A character a value can start with: neither whitespace nor a
    delimiter. *)
Definition value_start (c : ascii) : bool :=
  negb (is_ws c) && negb (Ascii.eqb c "]") && negb (Ascii.eqb c "}")
  && negb (Ascii.eqb c ",") && negb (Ascii.eqb c ":").

(** Scanning the text of a value gives the value back. *)
Definition scans_back (v : json) : Prop :=
  json_wf v = true ->
  forall level rest fuel,
    delimited rest = true -> fsize v <= fuel ->
    scan_once fuel (dump level v ++ rest) = POk v rest.

(** The schema guard of [__init__] lets the document pass. *)
Definition schema_current (doc : json) : bool :=
  match (info <- py_getitem doc (JStr "info") ;;
         sv <- py_getitem info (JStr "schema_version") ;;
         py_lt_int sv SCHEMA_VERSION) with
  | Ok old => negb old
  | Raise _ => false
  end.

(** The in-memory document, when there is one, is well formed and passes
    the schema guard. *)
Definition store_ok (self : ThicketDB) : Prop :=
  forall doc, _db self = Some doc ->
              json_wf doc = true /\ schema_current doc = true.

(** The stores a caller can hold: what the constructor returns, what
    [build] leaves, and what [update_labels] makes of them. *)
Inductive reachable : ThicketDB -> Prop :=
| reach_init db_filename loc py create w self w' :
    ThicketDB_init db_filename loc py create w = (Ok self, w') ->
    reachable self
| reach_build self models_dir sdk_path w self' w' :
    build self models_dir sdk_path w = (Ok self', w') ->
    reachable self'
| reach_update_labels self labels self' :
    reachable self ->
    json_wf labels = true ->
    update_labels self labels = Ok self' ->
    reachable self'.

(** ** What the workers of a build printed, file by file *)

(** The entries of the model table, and the label tables, of the files
    whose worker printed a record. *)
Definition parsed_models (w : world) (fs : list string)
  : list (string * json) :=
  flat_map (fun f => match classify (worker_stdout w f) with
                     | Parsed n model _ => [(n, model)]
                     | _ => []
                     end) fs.


(** Output that decodes to a value without a [model] entry. *)
Definition not_a_record (outs : bytes) : bool :=
  match json_loads_bytes outs with
  | Ok m_rec =>
      match py_getitem m_rec (JStr "model") with
      | Ok _ => false
      | Raise _ => true
      end
  | Raise _ => false
  end.

(** The file of the last [DebugParsing] record of a log; [cur] when it
    has none. *)
Fixpoint last_parsing (cur : option string) (l : list log_record)
  : option string :=
  match l with
  | [] => cur
  | DebugParsing f :: r => last_parsing (Some f) r
  | _ :: r => last_parsing cur r
  end.

(** Every [ErrorJSONDecodeError] record of a log names the file of the
    closest [DebugParsing] record before it; [cur] is that file at the
    start of the log. *)
Fixpoint errors_named (cur : option string) (l : list log_record) : bool :=
  match l with
  | [] => true
  | DebugParsing f :: r => errors_named (Some f) r
  | ErrorJSONDecodeError f :: r =>
      match cur with
      | Some g => (g =? f)%string
      | None => false
      end && errors_named cur r
  | _ :: r => errors_named cur r
  end.

(** Three asset files beside an older database; the worker of the second
    file prints [null]. *)
Definition stray_world : world :=
  {| files := [("thicket.db", "old")]; log := []; events := [];
     lbw_version := "1.0.33";
     lbw_version_info := (1, 0, 33)%Z;
     cpu_count := Some 2;
     glob := fun _ => farm_files;
     worker_stdout := fun f =>
       if (f =? "/plants/b/b.lbw.gz")%string
       then "null"
       else json_dumps (farm_record f) |}.

(** ** Looking a model up by the path of its file *)

(** [m_rec["filepath"] == filepath], when the record has the entry. *)
Definition filepath_is (filepath : string) (m_rec : json) : bool :=
  match py_getitem m_rec (JStr "filepath") with
  | Ok v => py_eq_str v filepath
  | Raise _ => false
  end.

Definition has_filepath (m_rec : json) : bool :=
  match py_getitem m_rec (JStr "filepath") with
  | Ok _ => true
  | Raise _ => false
  end.

(** The name of the last model of the table stored with that path. *)
Definition last_with_filepath (filepath : string) (ms : list (string * json))
  : option string :=
  match find (fun kv => filepath_is filepath (snd kv)) (rev ms) with
  | Some kv => Some (fst kv)
  | None => None
  end.

(** ** Lookups in the views *)

(** [DBVariant.get_season]: the first season of that name, or the
    default season when [name] is [None] or names no season. *)
Definition get_season (self : DBVariant) (name : option string) : DBSeason :=
  match name with
  | Some n =>
      match find (fun s => py_eq_str (s_name s) n) (v_seasons self) with
      | Some s => s
      | None => v_default_season self
      end
  | None => v_default_season self
  end.

(** [DBModel.get_variant], likewise. *)
Definition get_variant (self : DBModel) (name : option string) : DBVariant :=
  match name with
  | Some n =>
      match find (fun v => py_eq_str (v_name v) n) (m_variants self) with
      | Some v => v
      | None => m_default_variant self
      end
  | None => m_default_variant self
  end.

(** ** Iterating over the store *)

(** [a < b] between the keys a sort compares: strings by code point,
    integers (a boolean counting as 0 or 1) by value.  Lists compare
    too, which is not modelled; any other pair raises [TypeError]. *)
Definition py_lt (a b : json) : result bool :=
  match a, b with
  | JStr x, JStr y => Ok (String.ltb x y)
  | JInt x, JInt y => Ok (x <? y)%Z
  | JInt x, JBool y => Ok (x <? (if y then 1 else 0))%Z
  | JBool x, JInt y => Ok ((if x then 1 else 0) <? y)%Z
  | JBool x, JBool y => Ok ((if x then 1 else 0) <? (if y then 1 else 0))%Z
  | JList _, JList _ => Raise NotModelled
  | _, _ => Raise TypeError
  end.

(** [list.sort(key=lambda model: model.name)]: a stable sort that
    compares keys with [<] only.  Each item goes after the items whose
    key is not greater than its own. *)
Fixpoint insert_sorted (x : DBModel) (l : list DBModel)
  : result (list DBModel) :=
  match l with
  | [] => Ok [x]
  | y :: r =>
      b <- py_lt (m_name x) (m_name y) ;;
      if b : bool then Ok (x :: y :: r)
      else r' <- insert_sorted x r ;; Ok (y :: r')
  end.

Definition sort_by_name (l : list DBModel) : result (list DBModel) :=
  fold_left (fun acc x => acc <- acc ;; insert_sorted x acc) l (Ok []).

Record DBIter : Type := {
  _items : list DBModel;
  _index : nat
}.

Definition DBIter_init (db : ThicketDB) : result DBIter :=
  d <- self_db db ;;
  models <- py_getitem d (JStr "models") ;;
  names <- py_iter models ;;
  items <- mapM (DBModel_init db) names ;;
  items <- sort_by_name items ;;
  Ok {| _items := items; _index := 0 |}.

(** [__next__]: the next item and the iterator moved on, or [None] for
    [StopIteration].  Under the test the index is in range. *)
Definition DBIter_next (self : DBIter) : option (DBModel * DBIter) :=
  if (_index self <? List.length (_items self))%nat then
    match nth_error (_items self) (_index self) with
    | Some item =>
        Some (item, {| _items := _items self; _index := S (_index self) |})
    | None => None
    end
  else None.

(** [ThicketDB.__iter__] *)
Definition ThicketDB_iter (self : ThicketDB) : result DBIter :=
  DBIter_init self.

(** [for model in it]: the items up to [StopIteration], and the
    iterator as the loop leaves it. *)
Fixpoint for_each (fuel : nat) (it : DBIter)
  : result (list DBModel * DBIter) :=
  match fuel with
  | O => Raise OutOfFuel
  | S n =>
      match DBIter_next it with
      | Some (item, it') =>
          r <- for_each n it' ;; Ok (item :: fst r, snd r)
      | None => Ok ([], it)
      end
  end.

(** Strings in ascending order, as the sort leaves the names. *)
Fixpoint insert_str (k : string) (l : list string) : list string :=
  match l with
  | [] => [k]
  | y :: r => if String.ltb k y then k :: y :: r else y :: insert_str k r
  end.

Definition sort_str (l : list string) : list string :=
  fold_left (fun acc k => insert_str k acc) l [].

(** ** [md5sum] *)

(** [f.read(size)] on a file opened in binary mode, a character of the
    content being one byte: the block read, and what is left of the file
    after it. *)
Fixpoint read_block (size : nat) (rest : string) : string * string :=
  match size, rest with
  | S n, String c r => let (b, r') := read_block n r in (String c b, r')
  | _, _ => (EmptyString, rest)
  end.

(** The loop of [md5sum].  The hash object is the bytes fed to it so
    far: [md5.update(buf)] appends, and the digest is a function of the
    bytes fed.  [buf] is the block read last. *)
Fixpoint md5sum_loop (size fuel : nat) (md5 buf rest : string)
  : result string :=
  match fuel with
  | O => Raise OutOfFuel
  | S n =>
      if negb (buf =? EmptyString)%string then
        let (buf', rest') := read_block size rest in
        md5sum_loop size n (md5 ++ buf) buf' rest'
      else Ok md5
  end.

(** [hexdigest] is [hashlib]'s MD5 digest, in hexadecimal, of the bytes
    fed. *)
Definition md5sum (hexdigest : string -> string) (filename : string)
  : M string :=
  (content <- read_file filename ;;
   let (buf, rest) := read_block 4096 content in
   fed <- lift (md5sum_loop 4096 (S (String.length content))
                  EmptyString buf rest) ;;
   ret (hexdigest fed))%M.

(** ** [json.dumps(obj)] with its defaults, as a worker prints a record *)

(** [ESCAPE_ASCII]: the short escapes, and [\u00xx] for every other
    character outside the printable ASCII range. *)
Definition escape_char_ascii (c : ascii) : text :=
  if Ascii.eqb c dquote then ["\"%char; dquote]
  else if Ascii.eqb c "\" then lit "\\"
  else if Ascii.eqb c "008" then lit "\b"
  else if Ascii.eqb c "012" then lit "\f"
  else if Ascii.eqb c "010" then lit "\n"
  else if Ascii.eqb c "013" then lit "\r"
  else if Ascii.eqb c "009" then lit "\t"
  else if ((N_of_ascii c <? 32) || (126 <? N_of_ascii c))%N then
    lit "\u00" ++ [hex_digit (N_of_ascii c / 16); hex_digit (N_of_ascii c mod 16)]
  else [c].

Definition encode_basestring_ascii (s : string) : text :=
  dquote :: flat_map escape_char_ascii (list_ascii_of_string s) ++ [dquote].

(** [_iterencode] without indent: items are separated by a comma and a
    space, a key from its value by a colon and a space. *)
Fixpoint dump_compact (v : json) : text :=
  match v with
  | JNull => lit "null"
  | JBool true => lit "true"
  | JBool false => lit "false"
  | JInt z => dump_int z
  | JStr s => encode_basestring_ascii s
  | JList [] => lit "[]"
  | JList (x :: xs) =>
      lit "[" ++ dump_compact x
      ++ List.concat (map (fun y => lit ", " ++ dump_compact y) xs)
      ++ lit "]"
  | JDict [] => lit "{}"
  | JDict ((k, x) :: xs) =>
      lit "{" ++ encode_basestring_ascii k ++ lit ": " ++ dump_compact x
      ++ List.concat (map (fun kv => lit ", "
                                     ++ encode_basestring_ascii (fst kv)
                                     ++ lit ": " ++ dump_compact (snd kv)) xs)
      ++ lit "}"
  end.

(** [parse_model_json] once the record is there:
    [print(json.dumps(m_rec))], what goes to the worker's standard
    output.  The text [json.dumps] makes is ASCII, so the bytes in the
    pipe are its characters. *)
Definition print_json (m_rec : json) : string :=
  string_of_list_ascii (dump_compact m_rec ++ ["010"%char]).

(** What [dump_compact] prints for the items of a list after the first,
    and for the members of a dict after the first. *)
Definition compact_items (xs : list json) : text :=
  List.concat (map (fun y => lit ", " ++ dump_compact y) xs).

Definition compact_members (xs : list (string * json)) : text :=
  List.concat (map (fun kv => lit ", " ++ encode_basestring_ascii (fst kv)
                              ++ lit ": " ++ dump_compact (snd kv)) xs).

(** The text after a value printed inside a worker's record: the end of
    the text, or a character that is no digit, point or exponent. *)
Definition scans_back_compact (v : json) : Prop :=
  json_wf v = true ->
  forall rest fuel,
    delimited rest = true -> fsize v <= fuel ->
    scan_once fuel (dump_compact v ++ rest) = POk v rest.

(** ** [parse_model]: from the object the SDK loads to the record

    What [parse_model] reads of the object [lbw.load] returns is
    [lbw_model]; the functions of [hashlib], [pathlib] and [os.path] it
    calls are the fields of [libs], left uninterpreted; a path is the
    string [str] makes of it, and [is_file] looks it up among the files
    of the world. *)

Record lbw_model : Type := {
  lbw_name : json;                  (* [m.name] *)
  lbw_params : json;                (* [m.params] *)
  lbw_plant_meta : json;            (* [m.plant_meta] *)
  lbw_variants : list json          (* [v.name] for [v] in [m.variants] *)
}.

Record libs : Type := {
  lbw_load : string -> result lbw_model;     (* [lbw.load] *)
  md5_hexdigest : string -> string;          (* MD5 of the bytes, in hex *)
  path_stem : string -> string;              (* [Path(p).stem] *)
  path_parent_absolute : string -> string;   (* [Path(p).parent.absolute()] *)
  path_join : string -> string -> string;    (* [a / b] *)
  splitext_root : string -> string           (* [os.path.splitext(s)[0]] *)
}.

(** How a computation of the worker ends: with a value, with an
    exception, or with [StopIteration], which [next] raises on a
    generator that yields nothing. *)
Inductive ending (A : Type) : Type :=
| Done (a : A)
| Fails (e : exn)
| StopIteration.

Arguments Done {A} a.
Arguments Fails {A} e.
Arguments StopIteration {A}.

(** The worker reads the world and logs warnings: the paths of the
    previews it did not find. *)
Definition W (A : Type) : Type := world -> ending A * list string.

Definition wret {A} (a : A) : W A := fun _ => (Done a, []).

Definition wbind {A B} (c : W A) (k : A -> W B) : W B :=
  fun w =>
    match c w with
    | (Done a, l) => let (r, l') := k a w in (r, l ++ l')
    | (Fails e, l) => (Fails e, l)
    | (StopIteration, l) => (StopIteration, l)
    end.

Declare Scope W_scope.
Delimit Scope W_scope with W.
Notation "x <- c ;; k" := (wbind c (fun x => k))
  (at level 61, c at next level, right associativity) : W_scope.
Notation "c ;;; k" := (wbind c (fun _ => k))
  (at level 61, right associativity) : W_scope.

Definition wlift {A} (r : result A) : W A :=
  fun _ => (match r with Ok a => Done a | Raise e => Fails e end, []).

Arguments wlift {A} r%_result.

Definition wend {A} (r : ending A) : W A := fun _ => (r, []).

(** [logger.warning("Preview not found: %s" % path)] *)
Definition warn_preview (path : string) : W unit := fun _ => (Done tt, [path]).

(** [path.is_file()] *)
Definition is_file (path : string) : W bool :=
  fun w => (Done (Dict.mem path (files w)), []).

(** [key in container].  Membership of a value that is no string in a
    list goes by [==], which is not modelled. *)
Definition py_contains (key container : json) : result bool :=
  match key with
  | JStr s => py_contains_str s container
  | JNull | JBool _ | JInt _ =>
      match container with
      | JDict _ => Ok false
      | JList _ => Raise NotModelled
      | _ => Raise TypeError
      end
  | JList _ | JDict _ =>
      match container with
      | JList _ => Raise NotModelled
      | _ => Raise TypeError
      end
  end.

(** [next(x for x in xs if x['name'] == name)] *)
Fixpoint next_named (name : string) (xs : list json) : ending json :=
  match xs with
  | [] => StopIteration
  | x :: r =>
      match py_getitem x (JStr "name") with
      | Ok n => if py_eq_str n name then Done x else next_named name r
      | Raise e => Fails e
      end
  end.

(** The loop over the plant's labels: the first text of a language is
    kept. *)
Fixpoint first_labels (ls : list json) (m_labels : json) : result json :=
  match ls with
  | [] => Ok m_labels
  | label :: r =>
      lang <- py_getitem label (JStr "lang") ;;
      b <- py_contains lang m_labels ;;
      m_labels <- (if b : bool then Ok m_labels
                   else
                     text <- py_getitem label (JStr "text") ;;
                     lang <- py_getitem label (JStr "lang") ;;
                     py_setitem m_labels lang text) ;;
      first_labels r m_labels
  end.

(** The loop over the labels of a variant: the last text of a language
    is kept. *)
Fixpoint last_labels (ls : list json) (v_labels : json) : result json :=
  match ls with
  | [] => Ok v_labels
  | label :: r =>
      text <- py_getitem label (JStr "text") ;;
      lang <- py_getitem label (JStr "lang") ;;
      v_labels <- py_setitem v_labels lang text ;;
      last_labels r v_labels
  end.

(** The loop over the labels of the season [s]:
    [s_labels[s['name']][s_lang['lang']] = s_lang['text']]. *)
Fixpoint season_labels (s : json) (ls : list json) (s_labels : json)
  : result json :=
  match ls with
  | [] => Ok s_labels
  | s_lang :: r =>
      text <- py_getitem s_lang (JStr "text") ;;
      name <- py_getitem s (JStr "name") ;;
      inner <- py_getitem s_labels name ;;
      lang <- py_getitem s_lang (JStr "lang") ;;
      inner <- py_setitem inner lang text ;;
      s_labels <- py_setitem s_labels name inner ;;
      season_labels s r s_labels
  end.

(** The loop over the options of the [season] parameter. *)
Fixpoint seasons_loop (options : list json) (seasons : list json)
    (s_labels : json) : result (list json * json) :=
  match options with
  | [] => Ok (seasons, s_labels)
  | s :: r =>
      name <- py_getitem s (JStr "name") ;;
      let seasons := seasons ++ [name] in
      name <- py_getitem s (JStr "name") ;;
      s_labels <- py_setitem s_labels name (JDict []) ;;
      ls <- py_getitem s (JStr "labels") ;;
      ls <- py_iter ls ;;
      s_labels <- season_labels s ls s_labels ;;
      seasons_loop r seasons s_labels
  end.

(** [preview_stem + "_" + v.name + ".png"] needs a string. *)
Definition str_of (v : json) : result string :=
  match v with
  | JStr s => Ok s
  | _ => Raise TypeError
  end.

(** The loop over the variants of the model; [i] counts them. *)
Fixpoint variants_loop (lib : libs) (filepath preview_stem : string)
    (params_variant : json) (seasons : list json) (default_season : json)
    (s_labels : json) (vs : list json) (labels variants : json) (i : Z)
  : W (json * json) :=
  match vs with
  | [] => wret (labels, variants)
  | v_name :: r =>
      (labels <- wlift (py_dict_update labels s_labels) ;;
       ds <- wlift (py_getitem (JList seasons) default_season) ;;
       vn <- wlift (str_of v_name) ;;
       let preview_path :=
         path_join lib
           (path_join lib (path_parent_absolute lib filepath) "models")
           (preview_stem ++ "_" ++ vn ++ ".png") in
       found <- is_file preview_path ;;
       preview <- (if found : bool then wret preview_path
                   else warn_preview preview_path ;;; wret EmptyString) ;;
       let v_rec := JDict [("index", JInt i); ("seasons", JList seasons);
                           ("default_season", ds);
                           ("preview", JStr preview)] in
       variants <- wlift (py_setitem variants v_name v_rec) ;;
       options <- wlift (o <- py_getitem params_variant (JStr "options") ;;
                         py_iter o) ;;
       option <- wend (next_named vn options) ;;
       ls <- wlift (l <- py_getitem option (JStr "labels") ;; py_iter l) ;;
       v_labels <- wlift (last_labels ls (JDict [])) ;;
       labels <- wlift (py_setitem labels v_name v_labels) ;;
       variants_loop lib filepath preview_stem params_variant seasons
         default_season s_labels r labels variants (i + 1))%W
  end.

(** [parse_model] after [lbw.load]. *)
Definition parse_model_record (lib : libs) (m : lbw_model) (filepath : string)
  : W json :=
  (md5 <- (fun w => match md5sum (md5_hexdigest lib) filepath w with
                    | (Ok s, _) => (Done s, [])
                    | (Raise e, _) => (Fails e, [])
                    end) ;;
   params <- wlift (py_iter (lbw_params m)) ;;
   p <- wend (next_named "variant" params) ;;
   params_variant <- wlift (py_getitem p (JStr "enum")) ;;
   default_variant_idx <- wlift (py_getitem params_variant (JStr "default")) ;;
   options <- wlift (py_getitem params_variant (JStr "options")) ;;
   option <- wlift (py_getitem options default_variant_idx) ;;
   default_variant <- wlift (py_getitem option (JStr "name")) ;;
   let preview_stem := path_stem lib filepath in
   let preview_path := path_join lib (path_parent_absolute lib filepath)
                         (preview_stem ++ ".png") in
   found <- is_file preview_path ;;
   sp <- (if found : bool then wret (preview_stem, preview_path)
          else
            let preview_stem := splitext_root lib preview_stem in
            let preview_path :=
              path_join lib (path_parent_absolute lib filepath)
                (preview_stem ++ ".png") in
            found <- is_file preview_path ;;
            if found : bool then wret (preview_stem, preview_path)
            else warn_preview preview_path ;;;
                 wret (preview_stem, EmptyString)) ;;
   let preview_stem := fst sp in
   let preview := snd sp in
   ls <- wlift (l <- py_getitem (lbw_plant_meta m) (JStr "labels") ;;
                py_iter l) ;;
   m_labels <- wlift (first_labels ls (JDict [])) ;;
   labels <- wlift (py_setitem (JDict []) (lbw_name m) m_labels) ;;
   params <- wlift (py_iter (lbw_params m)) ;;
   p <- wend (next_named "season" params) ;;
   params_season <- wlift (py_getitem p (JStr "enum")) ;;
   options <- wlift (o <- py_getitem params_season (JStr "options") ;;
                     py_iter o) ;;
   ss <- wlift (seasons_loop options [] (JDict [])) ;;
   default_season <- wlift (py_getitem params_season (JStr "default")) ;;
   lv <- variants_loop lib filepath preview_stem params_variant (fst ss)
           default_season (snd ss) (lbw_variants m) labels (JDict []) 0 ;;
   wret (JDict [("model",
                 JDict [("name", lbw_name m);
                        ("filepath", JStr filepath);
                        ("md5", JStr md5);
                        ("default_variant", default_variant);
                        ("preview", JStr preview);
                        ("variants", snd lv)]);
                ("labels", fst lv)]))%W.

(** [parse_model(filepath)], and [parse_model_json]: what the worker
    prints on its standard output, when it prints. *)
Definition parse_model_of (lib : libs) (filepath : string) : W json :=
  (m <- wlift (lbw_load lib filepath) ;; parse_model_record lib m filepath)%W.

Definition parse_model_json (lib : libs) (filepath : string) : W string :=
  (m_rec <- parse_model_of lib filepath ;; wret (print_json m_rec))%W.

(** [add_model]: the target [self._db["models"][m_rec["name"]]] is
    evaluated after the value [m_rec["model"]], and before anything is
    stored. *)
Definition add_model (lib : libs) (self : ThicketDB) (filepath : string)
  : W ThicketDB :=
  (m_rec <- parse_model_of lib filepath ;;
   model <- wlift (py_getitem m_rec (JStr "model")) ;;
   d <- wlift (self_db self) ;;
   models <- wlift (py_getitem d (JStr "models")) ;;
   name <- wlift (py_getitem m_rec (JStr "name")) ;;
   models' <- wlift (py_setitem models name model) ;;
   d' <- wlift (py_setitem d (JStr "models") models') ;;
   labels <- wlift (py_getitem m_rec (JStr "labels")) ;;
   wlift (update_labels (set_db self d') labels))%W.

(** The record of the variant [vn], the [i]-th of its model. *)
Definition variant_record (lib : libs) (filepath preview_stem : string)
    (seasons : list json) (ds : json) (w : world) (i : Z) (vn : string)
  : json :=
  let preview_path :=
    path_join lib
      (path_join lib (path_parent_absolute lib filepath) "models")
      (preview_stem ++ "_" ++ vn ++ ".png") in
  JDict [("index", JInt i); ("seasons", JList seasons);
         ("default_season", ds);
         ("preview", JStr (if Dict.mem preview_path (files w)
                           then preview_path else EmptyString))].

Fixpoint variant_entries (lib : libs) (filepath preview_stem : string)
    (seasons : list json) (ds : json) (w : world) (names : list string)
    (i : Z) : list (string * json) :=
  match names with
  | [] => []
  | n :: r =>
      (n, variant_record lib filepath preview_stem seasons ds w i n)
      :: variant_entries lib filepath preview_stem seasons ds w r (i + 1)
  end.

(** An entry of a list of labels. *)
Definition label_entry (p : string * json) : json :=
  JDict [("lang", JStr (fst p)); ("text", snd p)].

(** A sample plant: an oak with two variants and two seasons, its file
    and the preview of the model beside it. *)
Definition oak_plant : lbw_model :=
  {| lbw_name := JStr "Quercus robur";
     lbw_params :=
       JList
         [JDict [("name", JStr "variant");
                 ("enum",
                  JDict [("default", JInt 1);
                         ("options",
                          JList
                            [JDict [("name", JStr "young");
                                    ("labels",
                                     JList [label_entry ("en", JStr "Young")])];
                             JDict [("name", JStr "old");
                                    ("labels",
                                     JList [label_entry ("en", JStr "Old");
                                            label_entry ("en", JStr "Aged")])]])])];
          JDict [("name", JStr "season");
                 ("enum",
                  JDict [("default", JInt 0);
                         ("options",
                          JList
                            [JDict [("name", JStr "summer");
                                    ("labels",
                                     JList [label_entry ("en", JStr "Summer")])];
                             JDict [("name", JStr "winter");
                                    ("labels",
                                     JList [label_entry ("en", JStr "Winter")])]])])]];
     lbw_plant_meta :=
       JDict [("labels",
               JList [label_entry ("en", JStr "English oak");
                      label_entry ("en", JStr "Pedunculate oak");
                      label_entry ("de", JStr "Stieleiche")])];
     lbw_variants := [JStr "young"; JStr "old"] |}.

Definition oak_libs : libs :=
  {| lbw_load := fun _ => Ok oak_plant;
     md5_hexdigest := fun _ => "d41d8cd98f00b204e9800998ecf8427e";
     path_stem := fun _ => "oak.lbw";
     path_parent_absolute := fun _ => "/plants/oak";
     path_join := fun a b => (a ++ "/" ++ b)%string;
     splitext_root := fun _ => "oak" |}.

Definition oak_world : world :=
  world_of [("/plants/oak/oak.lbw.gz", EmptyString);
            ("/plants/oak/oak.png", EmptyString);
            ("/plants/oak/models/oak_old.png", EmptyString)].

(** What the coordinator reads from the standard output of a worker:
    the bytes of the text [parse_model_json] printed, or nothing when
    the worker ended with an exception. *)
Definition worker_prints (lib : libs) (filepath : string) (w : world)
  : string :=
  match fst (parse_model_json lib filepath w) with
  | Done out => out
  | _ => EmptyString
  end.

(** A plant file whose object has a [season] parameter only. *)
Definition bare_plant : lbw_model :=
  {| lbw_name := JStr "Quercus robur";
     lbw_params := JList [JDict [("name", JStr "season")]];
     lbw_plant_meta := JDict [];
     lbw_variants := [] |}.

Definition bare_libs : libs :=
  {| lbw_load := fun _ => Ok bare_plant;
     md5_hexdigest := md5_hexdigest oak_libs;
     path_stem := path_stem oak_libs;
     path_parent_absolute := path_parent_absolute oak_libs;
     path_join := path_join oak_libs;
     splitext_root := splitext_root oak_libs |}.

(** * Properties *)

(** ** Dicts *)

Lemma dict_get_set_eq {V} (k : string) (v : V) d :
  Dict.get k (Dict.set k v d) = Some v.
Proof.
  induction d as [|[k' v'] r IH]; simpl.
  - now rewrite String.eqb_refl.
  - destruct (k' =? k)%string eqn:E; simpl; rewrite E; auto.
Qed.

Lemma dict_get_set_neq {V} (k k' : string) (v : V) d :
  k <> k' -> Dict.get k' (Dict.set k v d) = Dict.get k' d.
Proof.
  intros Hne. induction d as [|[k1 v1] r IH]; simpl.
  - destruct (k =? k')%string eqn:E; auto.
    apply String.eqb_eq in E. contradiction.
  - destruct (k1 =? k)%string eqn:E; simpl.
    + apply String.eqb_eq in E. subst k1.
      destruct (k =? k')%string eqn:E'; auto.
      apply String.eqb_eq in E'. contradiction.
    + destruct (k1 =? k')%string; auto.
Qed.

Lemma dict_get_none_notin {V} (k : string) (d : list (string * V)) :
  ~ In k (Dict.keys d) -> Dict.get k d = None.
Proof.
  induction d as [|[k1 v1] r IH]; simpl; intros H; auto.
  destruct (String.eqb_spec k1 k) as [->|Hne].
  - exfalso. apply H. now left.
  - apply IH. intros Hin. apply H. now right.
Qed.

Lemma dict_get_some_in {V} (k : string) (v : V) (d : list (string * V)) :
  Dict.get k d = Some v -> In (k, v) d.
Proof.
  induction d as [|[k1 v1] r IH]; simpl; intros H; try discriminate.
  destruct (String.eqb_spec k1 k) as [->|Hne].
  - inversion H. now left.
  - right. auto.
Qed.

Lemma dict_get_update {V} (k : string) (other d : list (string * V)) :
  NoDup (Dict.keys other) ->
  Dict.get k (Dict.update d other) =
  match Dict.get k other with
  | Some v => Some v
  | None => Dict.get k d
  end.
Proof.
  unfold Dict.update. revert d.
  induction other as [|[k1 v1] r IH]; intros d Hnd; simpl; auto.
  inversion Hnd as [|? ? Hnotin Hnd']; subst.
  rewrite IH by assumption.
  destruct (String.eqb_spec k1 k) as [->|Hne].
  - rewrite (dict_get_none_notin _ _ Hnotin). apply dict_get_set_eq.
  - rewrite dict_get_set_neq by assumption. reflexivity.
Qed.

Lemma dict_mem_get {V} (k : string) (d : list (string * V)) :
  Dict.mem k d = true -> exists v, Dict.get k d = Some v.
Proof.
  unfold Dict.mem. destruct (Dict.get k d); [eauto | discriminate].
Qed.

(** ** The label merge *)

Lemma update_labels_dict self d old new :
  _db self = Some (JDict d) ->
  Dict.get "labels" d = Some (JDict old) ->
  update_labels self (JDict new) =
  Ok (set_db self (JDict (Dict.set "labels" (JDict (Dict.update old new)) d))).
Proof.
  intros Hdb Hl. unfold update_labels, self_db. rewrite Hdb. simpl.
  rewrite Hl. reflexivity.
Qed.

(** C3, as amended: [update_labels] is a union per entity key.  A key of
    the incoming mapping takes the incoming locale mapping as a whole; any
    other key keeps the one it had. *)
Theorem update_labels_key_union self d old new :
  _db self = Some (JDict d) ->
  Dict.get "labels" d = Some (JDict old) ->
  NoDup (Dict.keys new) ->
  exists self',
    update_labels self (JDict new) = Ok self' /\
    forall key,
      labels_entry self' (JStr key) =
      match Dict.get key new with
      | Some e => Ok e
      | None => labels_entry self (JStr key)
      end.
Proof.
  intros Hdb Hl Hnd. eexists. split.
  - apply update_labels_dict; eassumption.
  - intros key. unfold labels_entry, self_db. rewrite Hdb. simpl.
    rewrite dict_get_set_eq, Hl. simpl.
    rewrite dict_get_update by assumption.
    destruct (Dict.get key new); reflexivity.
Qed.

Lemma update_labels_key_union_witness :
  exists self',
    update_labels oak_db oak_incoming = Ok self' /\
    forall key,
      labels_entry self' (JStr key) =
      match Dict.get key [("oak", JDict [("de", JStr "Eiche")])] with
      | Some e => Ok e
      | None => labels_entry oak_db (JStr key)
      end.
Proof.
  apply (update_labels_key_union oak_db
           [("info", JDict [("sdk_version", JStr "1.0.33");
                            ("schema_version", JInt 2)]);
            ("labels", JDict [("oak", JDict [("en", JStr "Oak")])]);
            ("models", JDict [])]
           [("oak", JDict [("en", JStr "Oak")])]
           [("oak", JDict [("de", JStr "Eiche")])]).
  - reflexivity.
  - reflexivity.
  - repeat constructor. simpl. intuition.
Defined.

(** C3 as stated fails: merging a German label for a key drops the
    English label the table held for it. *)
Lemma update_labels_drops_locale :
  labels_entry oak_db (JStr "oak") = Ok (JDict [("en", JStr "Oak")]) /\
  exists self',
    update_labels oak_db oak_incoming = Ok self' /\
    labels_entry self' (JStr "oak") = Ok (JDict [("de", JStr "Eiche")]) /\
    get_label oak_db (JStr "oak") (Some "en") = Ok (JStr "Oak") /\
    get_label self' (JStr "oak") (Some "en") = Ok (JStr "oak").
Proof.
  split; [reflexivity|]. eexists. repeat split; reflexivity.
Qed.

(** ** The label resolver *)

Lemma get_label_unfold self key loc :
  get_label self key loc =
  let l := effective_locale self loc in
  try_except
    (e <- labels_entry self key ;;
     b <- py_contains_str l e ;;
     if b : bool then
       e <- labels_entry self key ;; py_getitem e (JStr l)
     else
       e <- labels_entry self key ;;
       b <- py_contains_str (str_slice_to 2 l) e ;;
       if b : bool then
         e <- labels_entry self key ;;
         py_getitem e (JStr (str_slice_to 2 l))
       else Ok key)
    KeyError (Ok key).
Proof. reflexivity. Qed.

Lemma get_label_no_entry self key loc :
  labels_entry self key = Raise KeyError -> get_label self key loc = Ok key.
Proof.
  intros H. rewrite get_label_unfold. simpl. rewrite H. reflexivity.
Qed.

Lemma get_label_entry self key loc e :
  labels_entry self key = Ok (JDict e) ->
  get_label self key loc =
  Ok (let l := effective_locale self loc in
      match Dict.get l e with
      | Some v => v
      | None =>
          match Dict.get (str_slice_to 2 l) e with
          | Some v => v
          | None => key
          end
      end).
Proof.
  intros H. rewrite get_label_unfold. cbv zeta.
  generalize (effective_locale self loc). intros l.
  rewrite H. cbn [rbind py_contains_str py_getitem]. unfold Dict.mem.
  destruct (Dict.get l e) as [v|] eqn:E1.
  - cbn [rbind]. reflexivity.
  - cbn [rbind]. destruct (Dict.get (str_slice_to 2 l) e) as [v|] eqn:E2;
      reflexivity.
Qed.

(** C5, as amended: for a key of the label table, [get_label] tries the
    normalized locale, then its first two characters, and returns the key
    when both are absent.  A missing or empty locale argument stands for
    the locale of the store. *)
Theorem get_label_two_char_fallback self d tbl key e loc :
  _db self = Some (JDict d) ->
  Dict.get "labels" d = Some (JDict tbl) ->
  Dict.get key tbl = Some (JDict e) ->
  get_label self (JStr key) loc =
  Ok (let l := effective_locale self loc in
      match Dict.get l e with
      | Some v => v
      | None =>
          match Dict.get (str_slice_to 2 l) e with
          | Some v => v
          | None => JStr key
          end
      end).
Proof.
  intros Hdb Hl Hk. apply get_label_entry.
  unfold labels_entry, self_db. rewrite Hdb. simpl. rewrite Hl. simpl.
  rewrite Hk. reflexivity.
Qed.

Lemma get_label_two_char_fallback_witness :
  get_label (store_of (doc_of 2 [("oak", JDict [("en-US", JStr "A");
                                                ("en", JStr "B")])] []))
    (JStr "oak") (Some "en_GB") = Ok (JStr "B").
Proof.
  apply (get_label_two_char_fallback
           (store_of (doc_of 2 [("oak", JDict [("en-US", JStr "A");
                                               ("en", JStr "B")])] []))
           [("info", JDict [("sdk_version", JStr "1.0.33");
                            ("schema_version", JInt 2)]);
            ("labels", JDict [("oak", JDict [("en-US", JStr "A");
                                             ("en", JStr "B")])]);
            ("models", JDict [])]
           [("oak", JDict [("en-US", JStr "A"); ("en", JStr "B")])]
           "oak" [("en-US", JStr "A"); ("en", JStr "B")] (Some "en_GB"));
    reflexivity.
Defined.

(** C5 as stated fails: with a label stored under [yue], the locale
    [yue-HK] falls back to [yu], finds nothing and yields the key, where
    the primary subtag [yue] would have found the label. *)
Lemma get_label_not_primary_subtag :
  primary_subtag "yue-HK" = "yue" /\
  resolve_spec [("oak", JDict [("yue", JStr "A")])] "oak" "yue-HK" = JStr "A" /\
  get_label yue_db (JStr "oak") (Some "yue-HK") = Ok (JStr "oak").
Proof. repeat split; reflexivity. Qed.

Lemma labels_entry_cases self key :
  labels_ok self = true ->
  labels_entry self (JStr key) = Raise KeyError \/
  exists e, labels_entry self (JStr key) = Ok (JDict e).
Proof.
  unfold labels_ok. intros Hok.
  destruct (_db self) as [[| | | | |d]|] eqn:Hdb; try discriminate.
  unfold labels_entry, self_db. rewrite Hdb. simpl.
  destruct (Dict.get "labels" d) as [[| | | | |tbl]|] eqn:Hl;
    try discriminate; simpl; auto.
  destruct (Dict.get key tbl) as [x|] eqn:Hk; auto.
  right. apply dict_get_some_in in Hk.
  rewrite forallb_forall in Hok. specialize (Hok _ Hk). simpl in Hok.
  destruct x; try discriminate. eauto.
Qed.

Lemma get_label_returns self key loc :
  labels_ok self = true -> exists v, get_label self (JStr key) loc = Ok v.
Proof.
  intros Hok. destruct (labels_entry_cases self key Hok) as [Hno|[e He]].
  - rewrite (get_label_no_entry _ _ _ Hno). eauto.
  - rewrite (get_label_entry _ _ loc _ He). eauto.
Qed.

(** C6, as amended: on a store whose label table is well formed
    [get_label] returns for every key and locale; it returns the key when
    the key has no entry; and what it returns is a non-empty string when
    the key is non-empty and no display string stored for it is empty. *)
Theorem get_label_total self key loc :
  labels_ok self = true ->
  exists v,
    get_label self (JStr key) loc = Ok v /\
    (labels_entry self (JStr key) = Raise KeyError -> v = JStr key) /\
    (key <> EmptyString -> display_strings_nonempty self key = true ->
     nonempty_str v = true).
Proof.
  intros Hok.
  assert (Hkey : key <> EmptyString -> nonempty_str (JStr key) = true).
  { intros Hne. simpl. destruct (String.eqb_spec key EmptyString); auto. }
  destruct (labels_entry_cases self key Hok) as [Hno|[e He]].
  - exists (JStr key). rewrite (get_label_no_entry _ _ _ Hno). auto.
  - rewrite (get_label_entry _ _ loc _ He). eexists. split; [reflexivity|].
    split; [rewrite He; discriminate|].
    intros Hne Hds. unfold display_strings_nonempty in Hds. rewrite He in Hds.
    rewrite forallb_forall in Hds. cbv zeta.
    destruct (Dict.get (effective_locale self loc) e) as [v|] eqn:E1.
    + apply dict_get_some_in in E1. apply (Hds _ E1).
    + destruct (Dict.get (str_slice_to 2 (effective_locale self loc)) e)
        as [v|] eqn:E2; auto.
      apply dict_get_some_in in E2. apply (Hds _ E2).
Qed.

Lemma get_label_total_witness :
  exists v,
    get_label oak_db (JStr "oak") (Some "en_GB") = Ok v /\
    (labels_entry oak_db (JStr "oak") = Raise KeyError -> v = JStr "oak") /\
    ("oak" <> EmptyString -> display_strings_nonempty oak_db "oak" = true ->
     nonempty_str v = true).
Proof.
  apply (get_label_total oak_db "oak" (Some "en_GB")). reflexivity.
Defined.

(** C6 as stated fails: the empty key resolves to itself, the empty
    string, and an empty display string is returned as it is stored. *)
Lemma get_label_returns_empty :
  get_label oak_db (JStr EmptyString) (Some "en") = Ok (JStr EmptyString) /\
  get_label blank_db (JStr "oak") (Some "en") = Ok (JStr EmptyString).
Proof. split; reflexivity. Qed.

(** ** Views *)

Lemma mapM_ok {A B} (f : A -> result B) (l : list A) :
  (forall x, In x l -> exists y, f x = Ok y) ->
  exists ys, mapM f l = Ok ys.
Proof.
  induction l as [|x r IH]; intros H; simpl.
  - eauto.
  - destruct (H x (or_introl eq_refl)) as [y Hy]. rewrite Hy. simpl.
    destruct IH as [ys Hys]; [intros; apply H; now right|].
    rewrite Hys. simpl. eauto.
Qed.

Lemma DBSeason_init_ok db name :
  labels_ok db = true -> exists s, DBSeason_init db (JStr name) = Ok s.
Proof.
  intros Hok. unfold DBSeason_init.
  destruct (get_label_returns db name None Hok) as [v Hv].
  rewrite Hv. simpl. eauto.
Qed.

Lemma DBVariant_init_ok db name v_rec preview :
  labels_ok db = true -> variant_rec_ok v_rec = true ->
  exists v, DBVariant_init db (JStr name) v_rec preview = Ok v.
Proof.
  intros Hok Hv. unfold DBVariant_init.
  destruct (get_label_returns db name None Hok) as [lbl Hlbl].
  rewrite Hlbl. simpl.
  destruct v_rec as [| | | | |d]; try discriminate. simpl in Hv.
  repeat rewrite andb_true_iff in Hv. destruct Hv as [[[_ Hs] Hds] Hp].
  simpl.
  destruct (Dict.get "seasons" d) as [[| | | |ss|]|]; try discriminate.
  simpl.
  destruct (mapM_ok (DBSeason_init db) ss) as [seasons Hseasons].
  { intros x Hx. rewrite forallb_forall in Hs. specialize (Hs _ Hx).
    destruct x; try discriminate. now apply DBSeason_init_ok. }
  rewrite Hseasons. simpl.
  destruct (Dict.get "default_season" d) as [[| | |ds| |]|]; try discriminate.
  simpl.
  destruct (DBSeason_init_ok db ds Hok) as [s Hs']. rewrite Hs'. simpl.
  destruct (dict_mem_get _ _ Hp) as [p Hp']. rewrite Hp'. simpl. eauto.
Qed.

Lemma dict_keys_get {V} (k : string) (d : list (string * V)) :
  In k (Dict.keys d) -> exists v, Dict.get k d = Some v /\ In (k, v) d.
Proof.
  intros Hin.
  destruct (Dict.get k d) as [v|] eqn:E.
  - exists v. split; auto. now apply dict_get_some_in.
  - exfalso. induction d as [|[k1 v1] r IH]; simpl in *; auto.
    destruct (String.eqb_spec k1 k); try discriminate.
    destruct Hin; auto.
Qed.

Lemma DBModel_init_cases db name m_rec :
  labels_ok db = true ->
  stored_model db name = Ok m_rec ->
  model_rec_ok m_rec = true ->
  if default_variant_present m_rec
  then exists m, DBModel_init db (JStr name) = Ok m
  else DBModel_init db (JStr name) = Raise KeyError.
Proof.
  intros Hok Hs Hm. unfold DBModel_init. unfold stored_model in Hs.
  destruct (self_db db) as [dd|]; simpl in *; [|discriminate].
  destruct (py_getitem dd (JStr "models")) as [models|]; simpl in *;
    [|discriminate].
  rewrite Hs. simpl.
  destruct m_rec as [| | | | |d]; try discriminate. simpl in Hm.
  repeat rewrite andb_true_iff in Hm.
  destruct Hm as [[[[Hmd5 Hfp] Hpv] Hvs] Hdv].
  destruct (dict_mem_get _ _ Hmd5) as [md5 E1].
  destruct (dict_mem_get _ _ Hfp) as [fp E2].
  destruct (dict_mem_get _ _ Hpv) as [pv E3].
  cbn [py_getitem]. rewrite E1. cbn [rbind]. rewrite E2. cbn [rbind].
  destruct (get_label_returns db name None Hok) as [lbl Hlbl].
  rewrite Hlbl. cbn [rbind]. rewrite E3. cbn [rbind].
  destruct (Dict.get "variants" d) as [[| | | | |vs]|] eqn:E4;
    try discriminate.
  cbn [rbind py_iter].
  match goal with
  | |- context [mapM ?f ?l] => destruct (mapM_ok f l) as [variants Hvariants]
  end.
  { intros x Hx. apply in_map_iff in Hx. destruct Hx as [k [<- Hk]].
    cbn [rbind py_getitem].
    destruct (dict_keys_get _ _ Hk) as [v_rec [Hget Hin]]. rewrite Hget.
    cbn [rbind]. apply DBVariant_init_ok; auto.
    rewrite forallb_forall in Hvs. apply (Hvs _ Hin). }
  rewrite Hvariants. cbn [rbind].
  destruct (Dict.get "default_variant" d) as [[| | |dv| |]|] eqn:E5;
    try discriminate.
  cbn [rbind py_getitem]. simpl default_variant_present. rewrite E5, E4.
  unfold Dict.mem.
  destruct (Dict.get dv vs) as [v_rec|] eqn:E6.
  - cbn [rbind].
    destruct (DBVariant_init_ok db dv v_rec pv Hok) as [v Hv].
    { apply dict_get_some_in in E6. rewrite forallb_forall in Hvs.
      apply (Hvs _ E6). }
    rewrite Hv. cbn [rbind]. eauto.
  - reflexivity.
Qed.

Lemma get_model_by_name db fp name m_rec :
  stored_model db name = Ok m_rec ->
  name <> EmptyString ->
  get_model db fp (Some name) =
  (m <- DBModel_init db (JStr name) ;; Ok (Some m)).
Proof.
  intros Hs Hne. unfold get_model, stored_model in *.
  assert (Ht : negb (name =? EmptyString)%string = true).
  { destruct (String.eqb_spec name EmptyString); [contradiction|reflexivity]. }
  simpl truthy_str. rewrite Ht.
  destruct (self_db db) as [dd|]; simpl in *; [|discriminate].
  destruct (py_getitem dd (JStr "models")) as [models|]; simpl in *;
    [|discriminate].
  destruct models as [| | | | |ms]; try discriminate. simpl in *.
  unfold Dict.mem. destruct (Dict.get name ms); try discriminate.
  simpl. rewrite Ht. destruct fp; reflexivity.
Qed.

(** C10, as amended: on a store whose label table maps keys to locale
    mappings, for a stored Model record with its fields, whose variants
    are Variant records with theirs, season names being strings, the
    Model view is built when [default_variant] is a key of [variants],
    and building it raises [KeyError] when it is not; [get_model] by a
    non-empty name does the same, returning the view or raising. *)
Theorem model_view_needs_default_variant db name m_rec :
  labels_ok db = true ->
  stored_model db name = Ok m_rec ->
  model_rec_ok m_rec = true ->
  (default_variant_present m_rec = true ->
   exists m,
     DBModel_init db (JStr name) = Ok m /\
     (name <> EmptyString ->
      forall fp, get_model db fp (Some name) = Ok (Some m))) /\
  (default_variant_present m_rec = false ->
   DBModel_init db (JStr name) = Raise KeyError /\
   (name <> EmptyString ->
    forall fp, get_model db fp (Some name) = Raise KeyError)).
Proof.
  intros Hok Hs Hm.
  pose proof (DBModel_init_cases db name m_rec Hok Hs Hm) as H.
  split; intros Hp; rewrite Hp in H.
  - destruct H as [m Hm']. exists m. split; auto.
    intros Hne fp. rewrite (get_model_by_name db fp name m_rec Hs Hne).
    rewrite Hm'. reflexivity.
  - split; auto.
    intros Hne fp. rewrite (get_model_by_name db fp name m_rec Hs Hne).
    rewrite H. reflexivity.
Qed.

Lemma model_view_needs_default_variant_witness :
  (exists m,
     DBModel_init
       (store_of (doc_of 2 [] [("oak", model_rec "oak" "young")])) (JStr "oak")
     = Ok m /\
     get_model (store_of (doc_of 2 [] [("oak", model_rec "oak" "young")]))
       None (Some "oak") = Ok (Some m)) /\
  DBModel_init
    (store_of (doc_of 2 [] [("oak", model_rec "oak" "old")])) (JStr "oak")
  = Raise KeyError /\
  get_model (store_of (doc_of 2 [] [("oak", model_rec "oak" "old")]))
    None (Some "oak") = Raise KeyError.
Proof.
  assert (Hne : "oak" <> EmptyString) by discriminate.
  split; [|split].
  - destruct (model_view_needs_default_variant
                (store_of (doc_of 2 [] [("oak", model_rec "oak" "young")]))
                "oak" (model_rec "oak" "young")
                eq_refl eq_refl eq_refl) as [Hyes _].
    destruct (Hyes eq_refl) as [m [Hm Hg]].
    exists m. split; [exact Hm | exact (Hg Hne None)].
  - exact (proj1 (proj2 (model_view_needs_default_variant
                           (store_of (doc_of 2 [] [("oak", model_rec "oak" "old")]))
                           "oak" (model_rec "oak" "old")
                           eq_refl eq_refl eq_refl) eq_refl)).
  - exact (proj2 (proj2 (model_view_needs_default_variant
                           (store_of (doc_of 2 [] [("oak", model_rec "oak" "old")]))
                           "oak" (model_rec "oak" "old")
                           eq_refl eq_refl eq_refl) eq_refl) Hne None).
Defined.

(** C10 as stated fails three ways.  For a model stored under the
    empty name, whose [default_variant] is no key of its variants,
    [get_model] returns [None] instead of raising.  And with
    [default_variant] a key of [variants] and every variant record
    holding its four fields, building the view still raises [TypeError]
    when the label table holds a number for the model's name, or when
    the [seasons] of a variant is a number. *)
Lemma model_view_as_stated_fails :
  (stored_model (store_of (doc_of 2 [] [(EmptyString, model_rec EmptyString "old")]))
     EmptyString = Ok (model_rec EmptyString "old") /\
   default_variant_present (model_rec EmptyString "old") = false /\
   get_model (store_of (doc_of 2 [] [(EmptyString, model_rec EmptyString "old")]))
     None (Some EmptyString) = Ok None /\
   get_model (store_of (doc_of 2 [] [(EmptyString, model_rec EmptyString "old")]))
     (Some "/plants/oak.lbw.gz") None = Ok None) /\
  (fields_present (model_rec "oak" "young") = true /\
   DBModel_init
     (store_of (doc_of 2 [("oak", JInt 5)] [("oak", model_rec "oak" "young")]))
     (JStr "oak") = Raise TypeError /\
   get_model
     (store_of (doc_of 2 [("oak", JInt 5)] [("oak", model_rec "oak" "young")]))
     None (Some "oak") = Raise TypeError) /\
  (fields_present odd_model_rec = true /\
   DBModel_init (store_of (doc_of 2 [] [("oak", odd_model_rec)])) (JStr "oak")
   = Raise TypeError /\
   get_model (store_of (doc_of 2 [] [("oak", odd_model_rec)])) None (Some "oak")
   = Raise TypeError).
Proof. repeat split; reflexivity. Qed.

(** ** Opening a database *)

Lemma ThicketDB_init_loaded w path loc py create text d info v :
  Dict.get path (files w) = Some text ->
  json_loads text = Ok d ->
  py_getitem d (JStr "info") = Ok info ->
  py_getitem info (JStr "schema_version") = Ok (JInt v) ->
  ThicketDB_init path loc py create w =
  if (v <? SCHEMA_VERSION)%Z
  then (Raise ThicketDBOldSchemaError, add_log w WarningUnknownSchema)
  else (Ok {| _db_filename := path; locale := str_replace "_" "-" loc;
              python := py; _db := Some d |}, w).
Proof.
  intros Hf Hj Hi Hv.
  unfold ThicketDB_init, try_catch, mbind, read_file, lift.
  rewrite Hf, Hj, Hi, Hv. cbn [py_lt_int].
  destruct (v <? SCHEMA_VERSION)%Z; reflexivity.
Qed.

(** C4, as amended: a well-formed document is rejected with
    [ThicketDBOldSchemaError] exactly when its [schema_version] is below
    the current constant; a document at the current version or above it
    is accepted and becomes the in-memory document. *)
Theorem open_schema_guard w path loc py create text d info v :
  Dict.get path (files w) = Some text ->
  json_loads text = Ok d ->
  py_getitem d (JStr "info") = Ok info ->
  py_getitem info (JStr "schema_version") = Ok (JInt v) ->
  ((v < SCHEMA_VERSION)%Z ->
   ThicketDB_init path loc py create w =
   (Raise ThicketDBOldSchemaError, add_log w WarningUnknownSchema)) /\
  ((SCHEMA_VERSION <= v)%Z ->
   exists self,
     ThicketDB_init path loc py create w = (Ok self, w) /\
     _db self = Some d).
Proof.
  intros Hf Hj Hi Hv.
  rewrite (ThicketDB_init_loaded w path loc py create text d info v Hf Hj Hi Hv).
  split; intros H.
  - apply Z.ltb_lt in H. rewrite H. reflexivity.
  - apply Z.ltb_ge in H. rewrite H. eexists. split; reflexivity.
Qed.

Lemma open_schema_guard_witness :
  ThicketDB_init "thicket.db" "en_US" "python" false
    (world_of [("thicket.db", json_dumps (doc_of 1 [] []))]) =
  (Raise ThicketDBOldSchemaError,
   add_log (world_of [("thicket.db", json_dumps (doc_of 1 [] []))])
     WarningUnknownSchema).
Proof.
  refine (proj1 (open_schema_guard
                   (world_of [("thicket.db", json_dumps (doc_of 1 [] []))])
                   "thicket.db" "en_US" "python" false
                   (json_dumps (doc_of 1 [] [])) (doc_of 1 [] [])
                   (JDict [("sdk_version", JStr "1.0.33");
                           ("schema_version", JInt 1)]) 1
                   _ _ _ _) _).
  - reflexivity.
  - vm_compute. reflexivity.
  - reflexivity.
  - reflexivity.
  - reflexivity.
Defined.

(** C4 as stated fails: a well-formed document whose [schema_version] is
    3, not the current 2, is accepted. *)
Lemma open_accepts_newer_schema :
  json_loads (json_dumps (doc_of 3 [] [])) = Ok (doc_of 3 [] []) /\
  fst (ThicketDB_init "thicket.db" "en_US" "python" false
         (world_of [("thicket.db", json_dumps (doc_of 3 [] []))])) =
  Ok {| _db_filename := "thicket.db"; locale := "en-US";
        python := "python"; _db := Some (doc_of 3 [] []) |}.
Proof. split; vm_compute; reflexivity. Qed.

(** C7, as amended: when the persisted text is not well-formed JSON the
    failure is logged as critical and the constructor returns a store
    whose document is unset; no error reaches the caller, and a later
    lookup on that store raises [AttributeError]. *)
Theorem open_corrupt_logged w path loc py create text :
  Dict.get path (files w) = Some text ->
  json_loads text = Raise JSONDecodeError ->
  exists self,
    ThicketDB_init path loc py create w =
    (Ok self, add_log w CriticalJSONDecodeError) /\
    _db self = None /\
    (forall key l, get_label self key l = Raise AttributeError) /\
    model_count self = Raise AttributeError.
Proof.
  intros Hf Hj.
  unfold ThicketDB_init, try_catch, mbind, read_file, lift.
  rewrite Hf, Hj. eexists. split; [reflexivity|].
  repeat split.
Qed.

Lemma open_corrupt_logged_witness :
  exists self,
    ThicketDB_init "thicket.db" "en_US" "python" false
      (world_of [("thicket.db", "{")]) =
    (Ok self, add_log (world_of [("thicket.db", "{")]) CriticalJSONDecodeError) /\
    _db self = None /\
    (forall key l, get_label self key l = Raise AttributeError) /\
    model_count self = Raise AttributeError.
Proof.
  apply (open_corrupt_logged (world_of [("thicket.db", "{")])
           "thicket.db" "en_US" "python" false "{").
  - reflexivity.
  - vm_compute. reflexivity.
Defined.

(** C7 as stated fails: on a file holding an unfinished object the
    constructor raises nothing and returns a store. *)
Lemma open_corrupt_does_not_fail :
  json_loads "{" = Raise JSONDecodeError /\
  fst (ThicketDB_init "thicket.db" "en_US" "python" false
         (world_of [("thicket.db", "{")])) =
  Ok {| _db_filename := "thicket.db"; locale := "en-US";
        python := "python"; _db := None |}.
Proof. split; vm_compute; reflexivity. Qed.

(** ** The scheduler *)

Lemma list_pop_snoc {A} (l : list A) (x : A) :
  list_pop (l ++ [x]) = Some (x, l).
Proof.
  unfold list_pop. rewrite rev_app_distr. simpl. now rewrite rev_involutive.
Qed.

Lemma list_pop_nonempty {A} (l : list A) :
  l <> [] -> exists x r, l = r ++ [x] /\ list_pop l = Some (x, r).
Proof.
  intros H. destruct (exists_last H) as [r [x ->]].
  exists x, r. split; auto. apply list_pop_snoc.
Qed.

Lemma extend_nil w : extend w [] [] = w.
Proof.
  destruct w. unfold extend. simpl. now rewrite !app_nil_r.
Qed.

Lemma extend_extend w l1 e1 l2 e2 :
  extend (extend w l1 e1) l2 e2 = extend w (l1 ++ l2) (e1 ++ e2).
Proof. unfold extend. simpl. now rewrite !app_assoc. Qed.

Lemma add_log_extend w r : add_log w r = extend w [r] [].
Proof. unfold add_log, extend. now rewrite app_nil_r. Qed.

Lemma add_event_extend w e : add_event w e = extend w [] [e].
Proof. unfold add_event, extend. now rewrite app_nil_r. Qed.

Lemma spawn_jobs_files base fs : map job_file (spawn_jobs base fs) = fs.
Proof.
  revert base. induction fs as [|f r IH]; intros base; simpl; auto.
  now rewrite IH.
Qed.

Lemma spawn_jobs_length base fs :
  List.length (spawn_jobs base fs) = List.length fs.
Proof.
  revert base. induction fs as [|f r IH]; intros base; simpl; auto.
Qed.

(** What the inner loop does: it takes files from the end of the pending
    list, starts a job for each, and stops when none is left or
    [num_jobs] jobs are in flight. *)
Lemma top_up_spec fuel n st w :
  List.length (bs_model_files st) < fuel ->
  exists taken rest,
    bs_model_files st = rest ++ rev taken /\
    top_up fuel n st w =
    (Ok {| bs_self := bs_self st; bs_model_files := rest;
           bs_jobs := bs_jobs st ++ spawn_jobs (List.length (events w)) taken;
           bs_f := match rev taken with
                   | f :: _ => Some f
                   | [] => bs_f st
                   end |},
     extend w (map DebugParsing taken)
       (spawn_events (spawn_jobs (List.length (events w)) taken))) /\
    (taken = [] \/ List.length (bs_jobs st) + List.length taken <= n) /\
    (rest = [] \/ n <= List.length (bs_jobs st) + List.length taken).
Proof.
  revert st w. induction fuel as [|fuel IH]; intros st w Hfuel; [lia|].
  simpl.
  destruct (Nat.ltb_spec (List.length (bs_jobs st)) n) as [Hlt|Hge];
    [destruct (bs_model_files st) as [|f0 fs0] eqn:Hfiles|].
  - (* no file is left *)
    simpl. exists [], []. simpl. rewrite app_nil_r, extend_nil.
    destruct st; simpl in *; subst. repeat split; auto.
  - (* one more job *)
    assert (Hne : f0 :: fs0 <> []) by discriminate.
    destruct (list_pop_nonempty (f0 :: fs0) Hne) as [f [r [Heq Hpop]]].
    cbn [List.length Nat.ltb Nat.leb andb]. rewrite Hpop.
    unfold mbind at 1. unfold logger at 1. unfold mbind at 1. unfold Popen at 1.
    set (st1 := {| bs_self := bs_self st; bs_model_files := r;
                   bs_jobs := bs_jobs st ++
                     [{| pid := List.length (events (add_log w (DebugParsing f)));
                         job_file := f |}];
                   bs_f := Some f |}).
    set (w1 := add_event (add_log w (DebugParsing f))
                 (Spawn (List.length (events (add_log w (DebugParsing f)))) f)).
    assert (Hlen : List.length (bs_model_files st1) < fuel).
    { simpl. rewrite Heq, length_app in Hfuel. simpl in Hfuel. lia. }
    destruct (IH st1 w1 Hlen) as [taken [rest [Hsplit [Hrun [Hb1 Hb2]]]]].
    exists (f :: taken), rest. simpl in Hsplit.
    split; [|split; [|split]].
    + rewrite Heq, Hsplit. simpl. now rewrite app_assoc.
    + rewrite Hrun. f_equal.
      * unfold st1. cbn [bs_self bs_model_files bs_jobs bs_f].
        assert (Hev : List.length (events w1) = S (List.length (events w))).
        { unfold w1. simpl. rewrite length_app. simpl. lia. }
        rewrite Hev. simpl spawn_jobs. rewrite <- app_assoc. simpl.
        f_equal. simpl rev. destruct (rev taken); reflexivity.
      * unfold w1. rewrite add_log_extend, add_event_extend.
        rewrite !extend_extend. simpl.
        rewrite app_nil_r, length_app. simpl.
        now replace (List.length (events w) + 1) with (S (List.length (events w)))
          by lia.
    + right. unfold st1 in Hb1. simpl in Hb1. rewrite length_app in Hb1.
      simpl in Hb1. simpl. destruct Hb1 as [->|Hb1]; simpl; lia.
    + unfold st1 in Hb2. simpl in Hb2. rewrite length_app in Hb2.
      simpl in Hb2. simpl. destruct Hb2 as [Hb2|Hb2]; [now left|right; lia].
  - (* enough jobs are in flight *)
    simpl. exists [], (bs_model_files st). simpl.
    rewrite !app_nil_r, extend_nil.
    destruct st; simpl in *. repeat split; auto. right. lia.
Qed.

Lemma mbind_run {A B} (c : M A) (k : A -> M B) w :
  mbind c k w =
  match c w with
  | (Ok a, w') => k a w'
  | (Raise e, w') => (Raise e, w')
  end.
Proof. reflexivity. Qed.

Lemma py_index_exn {A} (l : list A) i e :
  py_index l i = Raise e -> op_exn e = true.
Proof.
  unfold py_index.
  destruct ((0 <=? _)%Z && _); [destruct (nth_error _ _)|];
    intros H; inversion H; reflexivity.
Qed.

Lemma py_getitem_exn a b e : py_getitem a b = Raise e -> op_exn e = true.
Proof.
  destruct a, b; simpl; intros H;
    try (inversion H; reflexivity);
    try (apply py_index_exn in H; exact H).
  destruct (Dict.get s d); inversion H; reflexivity.
Qed.

Lemma py_setitem_exn a b c e : py_setitem a b c = Raise e -> op_exn e = true.
Proof. destruct a, b; simpl; intros H; inversion H; reflexivity. Qed.

Lemma self_db_exn self e : self_db self = Raise e -> op_exn e = true.
Proof.
  unfold self_db. destruct (_db self); intros H; inversion H; reflexivity.
Qed.

Lemma py_dict_update_exn a b e :
  py_dict_update a b = Raise e -> op_exn e = true.
Proof.
  destruct a, b; simpl; intros H; try (inversion H; reflexivity).
  - destruct s; inversion H; reflexivity.
  - destruct l; inversion H; reflexivity.
Qed.

Lemma py_len_exn a e : py_len a = Raise e -> op_exn e = true.
Proof. destruct a; simpl; intros H; inversion H; reflexivity. Qed.

Lemma rbind_exn {A B} (c : result A) (k : A -> result B) e :
  (forall e', c = Raise e' -> op_exn e' = true) ->
  (forall a e', k a = Raise e' -> op_exn e' = true) ->
  rbind c k = Raise e -> op_exn e = true.
Proof.
  intros Hc Hk. destruct c as [a|e0]; simpl; intros H.
  - eapply Hk; eassumption.
  - apply Hc. inversion H. reflexivity.
Qed.

Lemma update_labels_exn self labels e :
  update_labels self labels = Raise e -> op_exn e = true.
Proof.
  unfold update_labels.
  repeat (apply rbind_exn;
          [intros ?; first [apply self_db_exn | apply py_getitem_exn
                           | apply py_dict_update_exn | apply py_setitem_exn]
          |intros ? ?]).
  discriminate.
Qed.

Lemma model_count_exn self e : model_count self = Raise e -> op_exn e = true.
Proof.
  unfold model_count.
  repeat (apply rbind_exn;
          [intros ?; first [apply self_db_exn | apply py_getitem_exn]
          |intros ? ?]).
  apply py_len_exn.
Qed.

Lemma json_loads_exn s e :
  json_loads s = Raise e -> e = JSONDecodeError \/ e = NotModelled.
Proof.
  unfold json_loads. destruct (scan_once _ _); [destruct (skip_ws rest)| | |];
    intros H; inversion H; auto.
Qed.

Lemma decode_utf8_exn b e :
  decode_utf8 b = Raise e -> e = UnicodeDecodeError \/ e = NotModelled.
Proof.
  unfold decode_utf8. destruct (utf8_decode b); intros H; inversion H; auto.
Qed.

Lemma bytes_decode_exn b e :
  bytes_decode b = Raise e -> e = UnicodeDecodeError \/ e = NotModelled.
Proof.
  unfold bytes_decode.
  destruct (detect_encoding b); try (intros H; inversion H; now auto);
    try apply decode_utf8_exn.
  destruct b as [|? [|? [|? ?]]]; apply decode_utf8_exn.
Qed.

Lemma json_loads_bytes_ok b v :
  json_loads_bytes b = Ok v ->
  exists s, bytes_decode b = Ok s /\ json_loads s = Ok v.
Proof.
  unfold json_loads_bytes. destruct (bytes_decode b) as [s|e]; simpl;
    [eauto | discriminate].
Qed.

Lemma json_loads_bytes_exn b e :
  json_loads_bytes b = Raise e ->
  e = JSONDecodeError \/ e = NotModelled \/ e = UnicodeDecodeError.
Proof.
  unfold json_loads_bytes. destruct (bytes_decode b) as [s|e'] eqn:E; simpl.
  - intros H. apply json_loads_exn in H. tauto.
  - intros H. inversion H. subst. apply bytes_decode_exn in E. tauto.
Qed.

(** Closes a goal with a hypothesis that an operation raised what it
    cannot raise. *)
Ltac absurd_exn :=
  match goal with
  | H : py_getitem _ _ = Raise _ |- _ =>
      apply py_getitem_exn in H; discriminate H
  | H : py_setitem _ _ _ = Raise _ |- _ =>
      apply py_setitem_exn in H; discriminate H
  | H : self_db _ = Raise _ |- _ =>
      apply self_db_exn in H; discriminate H
  | H : update_labels _ _ = Raise _ |- _ =>
      apply update_labels_exn in H; discriminate H
  | H : model_count _ = Raise _ |- _ =>
      apply model_count_exn in H; discriminate H
  | H : json_loads _ = Raise _ |- _ =>
      apply json_loads_exn in H; destruct H; discriminate
  | H : json_loads_bytes _ = Raise _ |- _ =>
      apply json_loads_bytes_exn in H; destruct H as [H|[H|H]]; discriminate
  end.

Ltac destruct_results :=
  repeat (match goal with
          | |- context [json_loads_bytes ?x] =>
              destruct (json_loads_bytes x) as [?|[]] eqn:?
          | |- context [json_loads ?x] =>
              destruct (json_loads x) as [?|[]] eqn:?
          | |- context [self_db ?a] =>
              destruct (self_db a) as [?|[]] eqn:?
          | |- context [py_getitem ?a ?b] =>
              destruct (py_getitem a b) as [?|[]] eqn:?
          | |- context [py_setitem ?a ?b ?c] =>
              destruct (py_setitem a b c) as [?|[]] eqn:?
          | |- context [update_labels ?a ?b] =>
              destruct (update_labels a b) as [?|[]] eqn:?
          | |- context [model_count ?a] =>
              destruct (model_count a) as [?|[]] eqn:?
          end; try absurd_exn; cbn [rbind fst snd]).

Ltac frame_leaf :=
  cbn [fst snd];
  first [ rewrite add_log_extend; eexists; split; [reflexivity|]
        | exists []; rewrite extend_nil; split; [reflexivity|] ];
  split;
  [ discriminate
  | let Hst := fresh "Hst" in
    intros ? Hst;
    first [ discriminate Hst
          | inversion Hst; subst; auto ] ].

(** The merge step writes to the log only, and leaves the queues alone. *)
Lemma merge_result_frame st outs w :
  exists l,
    snd (merge_result st outs w) = extend w l [] /\
    fst (merge_result st outs w) <> Raise OutOfFuel /\
    forall st', fst (merge_result st outs w) = Ok st' ->
      bs_model_files st' = bs_model_files st /\
      bs_jobs st' = bs_jobs st /\
      bs_f st' = bs_f st.
Proof.
  unfold merge_result, try_catch, mbind, lift, logger, ret.
  destruct_results; try frame_leaf.
  destruct (bs_f st) eqn:Hf; frame_leaf.
Qed.

Lemma build_loop_done fuel n st w :
  bs_model_files st = [] -> bs_jobs st = [] ->
  build_loop (S fuel) n st w = (Ok st, w).
Proof. intros Hf Hj. simpl. rewrite Hf, Hj. reflexivity. Qed.

(** One turn of the outer loop: top up, wait for the oldest job, merge
    what it printed, go on. *)
Lemma build_loop_step fuel n st w :
  1 <= n ->
  pending st <> [] ->
  exists taken rest j js,
    bs_model_files st = rest ++ rev taken /\
    bs_jobs st ++ spawn_jobs (List.length (events w)) taken = j :: js /\
    (taken = [] \/ List.length (bs_jobs st) + List.length taken <= n) /\
    build_loop (S fuel) n st w =
    mbind
      (merge_result
         {| bs_self := bs_self st; bs_model_files := rest; bs_jobs := js;
            bs_f := match rev taken with
                    | f :: _ => Some f
                    | [] => bs_f st
                    end |}
         (worker_stdout w (job_file j)))
      (build_loop fuel n)
      (extend w (map DebugParsing taken)
         (spawn_events (spawn_jobs (List.length (events w)) taken)
          ++ [Reap (pid j)])).
Proof.
  intros Hn Hpend.
  destruct (top_up_spec (S (List.length (bs_model_files st))) n st w
              (Nat.lt_succ_diag_r _))
    as [taken [rest [Hsplit [Hrun [Hb1 Hb2]]]]].
  destruct (bs_jobs st ++ spawn_jobs (List.length (events w)) taken)
    as [|j js] eqn:Hjobs.
  - (* the deque cannot be empty here *)
    exfalso. apply app_eq_nil in Hjobs. destruct Hjobs as [Hj Hs].
    assert (Ht : taken = []) by (destruct taken; [reflexivity|discriminate]).
    subst taken. rewrite Hj in Hb2. simpl in Hb2.
    destruct Hb2 as [Hr|Hr]; [|lia].
    apply Hpend. unfold pending. rewrite Hj, Hsplit, Hr. reflexivity.
  - exists taken, rest, j, js. repeat split; auto.
    cbn [build_loop].
    assert (Hc : ((0 <? List.length (bs_model_files st))
                  || (0 <? List.length (bs_jobs st)))%nat = true).
    { unfold pending in Hpend.
      destruct (bs_model_files st), (bs_jobs st); simpl; auto;
        now elim Hpend. }
    rewrite Hc, mbind_run, Hrun. cbn [bs_jobs].
    rewrite mbind_run. unfold communicate.
    rewrite add_event_extend, extend_extend, app_nil_r.
    cbn [bs_self bs_model_files bs_f]. reflexivity.
Qed.

Lemma spawned_app a b : spawned (a ++ b) = spawned a ++ spawned b.
Proof. unfold spawned. apply flat_map_app. Qed.

Lemma reaped_app a b : reaped (a ++ b) = reaped a ++ reaped b.
Proof. unfold reaped. apply flat_map_app. Qed.

Lemma spawned_files_app a b :
  spawned_files (a ++ b) = spawned_files a ++ spawned_files b.
Proof. unfold spawned_files. apply flat_map_app. Qed.

Lemma spawned_spawn_events js : spawned (spawn_events js) = map pid js.
Proof. induction js; simpl; congruence. Qed.

Lemma reaped_spawn_events js : reaped (spawn_events js) = [].
Proof. induction js; simpl; congruence. Qed.

Lemma spawned_files_spawn_events js :
  spawned_files (spawn_events js) = map job_file js.
Proof. induction js; simpl; congruence. Qed.

Lemma fifo_bounded_nil n : fifo_bounded n [].
Proof.
  intros p q H. symmetry in H. apply app_eq_nil in H. destruct H as [-> _].
  exists []. simpl. split; [reflexivity|lia].
Qed.

Lemma fifo_bounded_snoc n tr e :
  fifo_bounded n tr ->
  (exists waiting,
     spawned (tr ++ [e]) = reaped (tr ++ [e]) ++ waiting /\
     List.length waiting <= n) ->
  fifo_bounded n (tr ++ [e]).
Proof.
  intros Htr Hlast p q Heq.
  induction q as [|x q' _] using rev_ind.
  - rewrite app_nil_r in Heq. subst p. exact Hlast.
  - rewrite app_assoc in Heq. apply app_inj_tail in Heq.
    destruct Heq as [Heq _]. apply (Htr p q' Heq).
Qed.

(** Starting jobs while fewer than [n] are in flight keeps the trace
    bounded and in order. *)
Lemma fifo_bounded_spawn n tr js waiting :
  fifo_bounded n tr ->
  spawned tr = reaped tr ++ waiting ->
  List.length waiting + List.length js <= n ->
  fifo_bounded n (tr ++ spawn_events js).
Proof.
  revert tr waiting. induction js as [|j js IH]; intros tr waiting Htr Hs Hlen.
  - simpl. now rewrite app_nil_r.
  - assert (Heq : tr ++ spawn_events (j :: js) =
                  (tr ++ [Spawn (pid j) (job_file j)]) ++ spawn_events js)
      by (rewrite <- app_assoc; reflexivity).
    rewrite Heq. apply (IH _ (waiting ++ [pid j])).
    + apply fifo_bounded_snoc; auto.
      exists (waiting ++ [pid j]). rewrite spawned_app, reaped_app, Hs.
      simpl. rewrite app_nil_r, <- app_assoc. split; auto.
      rewrite length_app. simpl in *. lia.
    + rewrite spawned_app, reaped_app, Hs. simpl.
      now rewrite app_nil_r, <- app_assoc.
    + rewrite length_app. simpl in *. lia.
Qed.

(** The invariant of the outer loop, read off the trace: the jobs in the
    deque are the ones started and not yet collected, oldest first; the
    files started so far are the last ones of the scan, the last first. *)
Lemma build_loop_trace n files0 e0 :
  1 <= n ->
  forall fuel st w tr,
    events w = e0 ++ tr ->
    fifo_bounded n tr ->
    spawned tr = reaped tr ++ map pid (bs_jobs st) ->
    List.length (bs_jobs st) <= n ->
    rev files0 = spawned_files tr ++ rev (bs_model_files st) ->
    exists tr',
      events (snd (build_loop fuel n st w)) = e0 ++ tr' /\
      fifo_bounded n tr' /\
      (exists rest, rev files0 = spawned_files tr' ++ rest) /\
      (forall st', fst (build_loop fuel n st w) = Ok st' ->
         spawned tr' = reaped tr' /\
         spawned_files tr' = rev files0 /\
         bs_model_files st' = [] /\ bs_jobs st' = []).
Proof.
  intros Hn. induction fuel as [|fuel IH]; intros st w tr Hev Hfifo Hq Hlen Hfiles.
  - exists tr. simpl. split; [assumption|]. split; [assumption|].
    split; [eauto | discriminate].
  - destruct (list_eq_dec string_dec (pending st) []) as [Hp|Hp].
    + (* both queues are empty *)
      unfold pending in Hp. apply app_eq_nil in Hp. destruct Hp as [Hj Hf].
      apply map_eq_nil in Hj.
      assert (Hf' : bs_model_files st = []).
      { destruct (bs_model_files st) as [|x r]; auto.
        simpl in Hf. now apply app_eq_nil in Hf. }
      rewrite (build_loop_done fuel n st w Hf' Hj). exists tr. simpl.
      rewrite Hj, Hf' in *. simpl in *. rewrite app_nil_r in *.
      split; [assumption|]. split; [assumption|]. split.
      * exists []. now rewrite app_nil_r.
      * intros st' H. inversion H. subst. auto.
    + destruct (build_loop_step fuel n st w Hn Hp)
        as [taken [rest [j [js [Hsplit [Hjobs [Hb Hloop]]]]]]].
      rewrite Hloop, mbind_run. clear Hloop.
      set (new := spawn_jobs (List.length (events w)) taken) in *.
      set (st_mid := {| bs_self := bs_self st; bs_model_files := rest;
                        bs_jobs := js;
                        bs_f := match rev taken with
                                | f :: _ => Some f
                                | [] => bs_f st
                                end |}).
      set (w_mid := extend w (map DebugParsing taken)
                      (spawn_events new ++ [Reap (pid j)])).
      destruct (merge_result_frame st_mid (worker_stdout w (job_file j)) w_mid)
        as [l [Hw [_ Hframe]]].
      set (tr2 := (tr ++ spawn_events new) ++ [Reap (pid j)]).
      assert (Hnew : List.length new = List.length taken)
        by apply spawn_jobs_length.
      assert (Hcap : List.length (bs_jobs st) + List.length new <= n).
      { destruct Hb as [->|Hb]; simpl in *; lia. }
      assert (Hq2 : spawned tr2 = reaped tr2 ++ map pid js).
      { unfold tr2. rewrite !spawned_app, !reaped_app.
        rewrite spawned_spawn_events, reaped_spawn_events. simpl.
        rewrite !app_nil_r, Hq, <- !app_assoc, <- map_app, Hjobs.
        reflexivity. }
      assert (Hjs : List.length js <= n).
      { apply (f_equal (@List.length job)) in Hjobs.
        rewrite length_app in Hjobs. simpl in Hjobs. lia. }
      assert (Hfifo2 : fifo_bounded n tr2).
      { apply fifo_bounded_snoc.
        - apply (fifo_bounded_spawn n tr new (map pid (bs_jobs st))); auto.
          now rewrite length_map.
        - exists (map pid js). split; [exact Hq2 | now rewrite length_map]. }
      assert (Hfiles2 : rev files0 = spawned_files tr2 ++ rev rest).
      { unfold tr2. rewrite !spawned_files_app, spawned_files_spawn_events.
        simpl. rewrite app_nil_r. unfold new. rewrite spawn_jobs_files.
        rewrite Hfiles, Hsplit, rev_app_distr, rev_involutive.
        now rewrite app_assoc. }
      assert (Hev2 : forall w2, w2 = extend w_mid l [] -> events w2 = e0 ++ tr2).
      { intros w2 ->. unfold w_mid, tr2. simpl.
        rewrite Hev, app_nil_r, <- !app_assoc. reflexivity. }
      destruct (merge_result st_mid (worker_stdout w (job_file j)) w_mid)
        as [[st2|e] w2] eqn:Hmerge; simpl in Hw, Hframe.
      * destruct (Hframe st2 eq_refl) as [Hf2 [Hj2 _]].
        apply (IH st2 w2 tr2); auto.
        -- now rewrite Hj2.
        -- now rewrite Hj2.
        -- now rewrite Hf2.
      * exists tr2. simpl. split; [auto|]. split; [assumption|].
        split; [eauto | discriminate].
Qed.

Lemma num_jobs_of_pos cpus : 1 <= num_jobs_of cpus.
Proof. destruct cpus as [[|k]|]; simpl; lia. Qed.

Lemma in_flight_bounded n tr :
  fifo_bounded n tr -> forall p q, tr = p ++ q -> in_flight p <= n.
Proof.
  intros H p q Heq. destruct (H p q Heq) as [waiting [Hs Hl]].
  unfold in_flight. rewrite Hs, length_app. lia.
Qed.

Lemma build_unfold self models_dir sdk_path w :
  build self models_dir sdk_path w =
  (let (st0, w0) := build_entry self models_dir w in
   mbind (build_loop (S (List.length (bs_model_files st0)))
            (num_jobs_of (cpu_count w)) st0)
     (fun st =>
        (if (0 <? List.length (bs_model_files st))%nat
         then logger (ErrorFilesRemaining (List.length (bs_model_files st)))
         else ret tt) ;;;
        (if (0 <? List.length (bs_jobs st))%nat
         then logger (ErrorJobsRunning (List.length (bs_jobs st)))
         else ret tt) ;;;
        save (bs_self st) ;;;
        count <- lift (model_count (bs_self st)) ;;
        logger (InfoProcessed count (List.length (bs_model_files st0))) ;;;
        ret (bs_self st))%M w0).
Proof.
  unfold build, build_entry, initialize. rewrite !mbind_run.
  destruct (lbw_version_info w) as [[major minor] micro].
  reflexivity.
Qed.

(** After the loop [build] starts and collects no worker. *)
Lemma build_events self models_dir sdk_path w :
  let (st0, w0) := build_entry self models_dir w in
  let run := build_loop (S (List.length (bs_model_files st0)))
               (num_jobs_of (cpu_count w)) st0 w0 in
  events (snd (build self models_dir sdk_path w)) = events (snd run) /\
  forall self', fst (build self models_dir sdk_path w) = Ok self' ->
                exists st, fst run = Ok st.
Proof.
  rewrite build_unfold. destruct (build_entry self models_dir w) as [st0 w0].
  cbv zeta. rewrite mbind_run.
  destruct (build_loop _ _ st0 w0) as [[st|e] w1]; simpl;
    [|split; [reflexivity | discriminate]].
  split; [|eauto].
  unfold mbind, save, write_file, lift, logger, ret.
  destruct (0 <? List.length (bs_model_files st))%nat,
           (0 <? List.length (bs_jobs st))%nat; simpl;
    destruct (self_db (bs_self st)); simpl; try reflexivity;
    destruct (model_count (bs_self st)); reflexivity.
Qed.

Lemma build_trace self models_dir sdk_path w :
  exists tr,
    events (snd (build self models_dir sdk_path w)) = events w ++ tr /\
    fifo_bounded (num_jobs_of (cpu_count w)) tr /\
    (exists rest,
       rev (glob w (models_dir ++ "/*/*.lbw.gz")%string)
       = spawned_files tr ++ rest) /\
    (forall self', fst (build self models_dir sdk_path w) = Ok self' ->
       spawned tr = reaped tr /\
       spawned_files tr = rev (glob w (models_dir ++ "/*/*.lbw.gz")%string)).
Proof.
  pose proof (build_events self models_dir sdk_path w) as Hb.
  unfold build_entry in Hb. cbv zeta in Hb.
  set (files0 := glob w (models_dir ++ "/*/*.lbw.gz")%string) in *.
  match type of Hb with
  | context [build_loop ?fuel ?n ?st0 ?w0] =>
      destruct (build_loop_trace n files0 (events w) (num_jobs_of_pos _)
                  fuel st0 w0 [])
        as [tr [Hev [Hfifo [Hrest Hok]]]]
  end.
  - simpl. now rewrite !app_nil_r.
  - apply fifo_bounded_nil.
  - reflexivity.
  - simpl. lia.
  - reflexivity.
  - destruct Hb as [Hbe Hbok]. exists tr. rewrite Hbe.
    split; [exact Hev|]. split; [exact Hfifo|]. split; [exact Hrest|].
    intros self' Hs. destruct (Hbok self' Hs) as [st Hst].
    destruct (Hok st Hst) as [H1 [H2 _]]. auto.
Qed.

(** C1: while [build] runs, at every point of its trace of worker
    processes no more than [num_jobs] workers (the CPU count, or 4) have
    been started and not collected, and the workers collected so far are
    the first ones started, in the order they were started: each wait is
    on the oldest job in flight.  When [build] returns every worker
    started has been collected. *)
Theorem build_bounded_fifo self models_dir sdk_path w :
  exists tr,
    events (snd (build self models_dir sdk_path w)) = events w ++ tr /\
    (forall p q, tr = p ++ q ->
       in_flight p <= num_jobs_of (cpu_count w) /\
       exists waiting, spawned p = reaped p ++ waiting) /\
    (forall p q pid, tr = p ++ Reap pid :: q ->
       exists waiting, spawned p = reaped p ++ pid :: waiting) /\
    (forall self', fst (build self models_dir sdk_path w) = Ok self' ->
       spawned tr = reaped tr).
Proof.
  destruct (build_trace self models_dir sdk_path w)
    as [tr [Hev [Hfifo [_ Hok]]]].
  exists tr. split; [exact Hev|]. split; [|split].
  - intros p q Heq. split.
    + apply (in_flight_bounded _ _ Hfifo p q Heq).
    + destruct (Hfifo p q Heq) as [waiting [Hs _]]. eauto.
  - intros p q pid Heq.
    destruct (Hfifo (p ++ [Reap pid]) q) as [waiting [Hs _]].
    { rewrite <- app_assoc. exact Heq. }
    rewrite spawned_app, reaped_app in Hs. simpl in Hs.
    rewrite app_nil_r, <- app_assoc in Hs. simpl in Hs. eauto.
  - intros self' Hs. apply (Hok self' Hs).
Qed.

(** The trace of a build over three files with two jobs at a time. *)
Example build_trace_farm :
  events (snd (build fresh_store "/plants" "/sdk" farm_world)) =
  [Spawn 0 "/plants/c/c.lbw.gz"; Spawn 1 "/plants/b/b.lbw.gz"; Reap 0;
   Spawn 3 "/plants/a/a.lbw.gz"; Reap 1; Reap 3].
Proof. vm_compute. reflexivity. Qed.

(** C8, as amended: the scheduler takes pending files from the end of
    the list the scan produced, so workers are started in the reverse of
    the scan order; when [build] returns, the files of the workers it
    started, in starting order, are the scanned list reversed. *)
Theorem build_launches_in_reverse self models_dir sdk_path w :
  exists tr,
    events (snd (build self models_dir sdk_path w)) = events w ++ tr /\
    (exists rest,
       rev (glob w (models_dir ++ "/*/*.lbw.gz")%string)
       = spawned_files tr ++ rest) /\
    (forall self', fst (build self models_dir sdk_path w) = Ok self' ->
       spawned_files tr = rev (glob w (models_dir ++ "/*/*.lbw.gz")%string)).
Proof.
  destruct (build_trace self models_dir sdk_path w)
    as [tr [Hev [_ [Hrest Hok]]]].
  exists tr. split; [exact Hev|]. split; [exact Hrest|].
  intros self' Hs. apply (Hok self' Hs).
Qed.

(** ** Merging what the workers printed *)

Lemma classify_malformed outs :
  classify outs = Malformed -> json_loads_bytes outs = Raise JSONDecodeError.
Proof.
  unfold classify. destruct (json_loads_bytes outs) as [m_rec|e].
  - destruct (py_getitem m_rec (JStr "model")) as [model|]; try discriminate.
    destruct (py_getitem model (JStr "name")) as [[]|];
      destruct (py_getitem m_rec (JStr "labels")) as [[]|]; discriminate.
  - destruct e; try discriminate. reflexivity.
Qed.

Lemma classify_parsed outs n model ls :
  classify outs = Parsed n model ls ->
  exists m_rec,
    json_loads_bytes outs = Ok m_rec /\
    py_getitem m_rec (JStr "model") = Ok model /\
    py_getitem model (JStr "name") = Ok (JStr n) /\
    py_getitem m_rec (JStr "labels") = Ok (JDict ls).
Proof.
  unfold classify. destruct (json_loads_bytes outs) as [m_rec|e] eqn:E0.
  - destruct (py_getitem m_rec (JStr "model")) as [model'|] eqn:E1;
      try discriminate.
    destruct (py_getitem model' (JStr "name")) as [[]|] eqn:E2;
      destruct (py_getitem m_rec (JStr "labels")) as [[]|] eqn:E3;
      try discriminate.
    intros H. inversion H. subst. exists m_rec. auto.
  - destruct e; discriminate.
Qed.

Lemma merge_result_malformed st outs w f :
  classify outs = Malformed ->
  bs_f st = Some f ->
  merge_result st outs w = (Ok st, add_log w (ErrorJSONDecodeError f)).
Proof.
  intros Hc Hf. apply classify_malformed in Hc.
  unfold merge_result, try_catch, mbind, lift. rewrite Hc, Hf. reflexivity.
Qed.

Lemma merge_result_parsed st outs w n model ls ms old :
  classify outs = Parsed n model ls ->
  db_tables (bs_self st) ms old ->
  exists self',
    merge_result st outs w =
    (Ok {| bs_self := self'; bs_model_files := bs_model_files st;
           bs_jobs := bs_jobs st; bs_f := bs_f st |},
     add_log w (InfoAdded (JStr n))) /\
    db_tables self' (Dict.set n model ms) (Dict.update old ls).
Proof.
  intros Hc [d [Hdb [Hms Hls]]].
  destruct (classify_parsed _ _ _ _ Hc) as [m_rec [Hj [Hm [Hn Hl]]]].
  assert (Hne : "models" <> "labels") by discriminate.
  set (d' := Dict.set "models" (JDict (Dict.set n model ms)) d).
  assert (Hup : update_labels (set_db (bs_self st) (JDict d')) (JDict ls) =
                Ok (set_db (set_db (bs_self st) (JDict d'))
                      (JDict (Dict.set "labels" (JDict (Dict.update old ls)) d')))).
  { apply update_labels_dict; [reflexivity|].
    unfold d'. rewrite dict_get_set_neq by exact Hne. exact Hls. }
  eexists. split.
  - unfold merge_result, try_catch, mbind, lift, logger, ret, self_db.
    rewrite Hj, Hm, Hdb. cbn [rbind py_getitem]. rewrite Hms, Hn, Hl.
    cbn [py_setitem]. fold d'. rewrite Hup. reflexivity.
  - exists (Dict.set "labels" (JDict (Dict.update old ls)) d').
    split; [reflexivity|]. split.
    + rewrite dict_get_set_neq by (intro; now apply Hne).
      unfold d'. apply dict_get_set_eq.
    + apply dict_get_set_eq.
Qed.

Lemma dict_keys_set_fresh {V} (k : string) (v : V) d :
  ~ In k (Dict.keys d) -> Dict.keys (Dict.set k v d) = Dict.keys d ++ [k].
Proof.
  induction d as [|[k1 v1] r IH]; simpl; intros H; auto.
  destruct (String.eqb_spec k1 k) as [->|Hne].
  - exfalso. apply H. now left.
  - simpl. f_equal. apply IH. intros Hin. apply H. now right.
Qed.

Lemma pending_step st rest taken j js base :
  bs_model_files st = rest ++ rev taken ->
  bs_jobs st ++ spawn_jobs base taken = j :: js ->
  pending st = job_file j :: map job_file js ++ rev rest.
Proof.
  intros Hsplit Hjobs. unfold pending.
  rewrite Hsplit, rev_app_distr, rev_involutive, app_assoc.
  rewrite <- (spawn_jobs_files base taken) at 1.
  rewrite <- map_app, Hjobs. reflexivity.
Qed.








(** C8 as stated fails: of the three files scanned, the last one is the
    first handed to a worker and the first one the last. *)
Lemma build_launches_last_file_first :
  glob farm_world "/plants/*/*.lbw.gz" =
  ["/plants/a/a.lbw.gz"; "/plants/b/b.lbw.gz"; "/plants/c/c.lbw.gz"] /\
  spawned_files (events (snd (build fresh_store "/plants" "/sdk" farm_world))) =
  ["/plants/c/c.lbw.gz"; "/plants/b/b.lbw.gz"; "/plants/a/a.lbw.gz"].
Proof. split; vm_compute; reflexivity. Qed.

(** ** The round trip through [json.dump] and [json.load] *)

Lemma scanstring_escape_char c tail :
  scanstring (escape_char c ++ tail) = pcons c (scanstring tail).
Proof.
  destruct c as [[] [] [] [] [] [] [] []]; reflexivity.
Qed.

Lemma scanstring_encode s rest :
  scanstring (flat_map escape_char (list_ascii_of_string s) ++ dquote :: rest)
  = POk s rest.
Proof.
  induction s as [|c s IH].
  - reflexivity.
  - cbn [list_ascii_of_string flat_map]. rewrite <- app_assoc.
    rewrite scanstring_escape_char, IH. reflexivity.
Qed.

Lemma encode_basestring_unfold s :
  encode_basestring s =
  dquote :: flat_map escape_char (list_ascii_of_string s) ++ [dquote].
Proof. reflexivity. Qed.

Lemma string_of_uint_digits d : all_digits (NilEmpty.string_of_uint d) = true.
Proof. induction d; simpl; auto. Qed.

Lemma span_digits_all s rest :
  all_digits s = true -> delimited rest = true ->
  span_digits (list_ascii_of_string s ++ rest) = (list_ascii_of_string s, rest).
Proof.
  intros Hs Hr. induction s as [|c s IH]; simpl in Hs |- *.
  - destruct rest as [|c r]; auto. simpl in Hr |- *.
    destruct (is_digit c); [discriminate Hr|reflexivity].
  - apply andb_true_iff in Hs. destruct Hs as [Hc Hs].
    rewrite Hc, (IH Hs). reflexivity.
Qed.

Lemma float_tail_delimited rest : delimited rest = true -> float_tail rest = false.
Proof.
  destruct rest as [|c [|d r]]; simpl; auto.
  intros H. repeat (apply andb_true_iff in H; destruct H as [H ?]).
  destruct (Ascii.eqb c "."), (Ascii.eqb c "e"), (Ascii.eqb c "E");
    simpl in *; try discriminate; reflexivity.
Qed.

Lemma to_uint_head p :
  exists c s, NilEmpty.string_of_uint (Pos.to_uint p) = String c s /\
              is_digit c = true /\ Ascii.eqb c "0" = false.
Proof.
  pose proof (DecimalPos.Unsigned.to_of (Pos.to_uint p)) as Hn.
  rewrite DecimalPos.Unsigned.of_to in Hn. simpl in Hn.
  pose proof (DecimalPos.Unsigned.to_uint_nonzero p) as Hz.
  pose proof (DecimalPos.Unsigned.to_uint_nonnil p) as Hnil.
  destruct (Pos.to_uint p) as [|d|d|d|d|d|d|d|d|d|d] eqn:E;
    try (now elim Hnil); simpl;
    try (do 2 eexists; split; [reflexivity|split; reflexivity]).
  exfalso. rewrite DecimalFacts.unorm_D0 in Hn.
  unfold Decimal.unorm in Hn.
  destruct (Decimal.nzhead d) eqn:Ed; try discriminate.
  - inversion Hn. subst. now apply Hz.
  - now apply (DecimalFacts.nzhead_nonzero d u).
Qed.

Lemma digits_value_to_uint p :
  digits_value (list_ascii_of_string (NilEmpty.string_of_uint (Pos.to_uint p)))
  = Z.pos p.
Proof.
  unfold digits_value. rewrite string_of_list_ascii_of_string, NilEmpty.usu.
  unfold Z.of_uint. now rewrite DecimalPos.Unsigned.of_to.
Qed.

Lemma scan_digits_pos p rest :
  delimited rest = true ->
  scan_digits (list_ascii_of_string (NilEmpty.string_of_uint (Pos.to_uint p))
               ++ rest) = POk (Z.pos p) rest.
Proof.
  intros Hr. destruct (to_uint_head p) as [c [s [Hs [Hd H0]]]].
  pose proof (string_of_uint_digits (Pos.to_uint p)) as Hall.
  pose proof (digits_value_to_uint p) as Hv.
  pose proof (span_digits_all _ rest Hall Hr) as Hspan.
  rewrite Hs in *. cbn [list_ascii_of_string app] in *.
  unfold scan_digits. rewrite H0, Hd, Hspan.
  rewrite (float_tail_delimited _ Hr), Hv. reflexivity.
Qed.

Lemma string_of_uint_pos p :
  NilZero.string_of_uint (Pos.to_uint p) = NilEmpty.string_of_uint (Pos.to_uint p).
Proof.
  pose proof (DecimalPos.Unsigned.to_uint_nonnil p). destruct (Pos.to_uint p); auto.
  contradiction.
Qed.

Lemma scan_number_dump_int z rest :
  delimited rest = true ->
  scan_number (dump_int z ++ rest) = POk (JInt z) rest.
Proof.
  intros Hr. unfold dump_int, lit. destruct z as [|p|p]; simpl Z.to_int.
  - simpl. rewrite (float_tail_delimited _ Hr). reflexivity.
  - cbn [NilZero.string_of_int]. rewrite string_of_uint_pos.
    pose proof (scan_digits_pos p rest Hr) as H.
    destruct (to_uint_head p) as [c [s [Hs [Hd H0]]]].
    rewrite Hs in *. cbn [list_ascii_of_string app] in *.
    unfold scan_number.
    assert (Hm : Ascii.eqb c "-" = false).
    { destruct c as [[] [] [] [] [] [] [] []]; try reflexivity; discriminate. }
    rewrite Hm, H. reflexivity.
  - cbn [NilZero.string_of_int]. rewrite string_of_uint_pos.
    pose proof (scan_digits_pos p rest Hr) as H.
    destruct (to_uint_head p) as [c [s [Hs [Hd H0]]]].
    cbn [list_ascii_of_string app]. unfold scan_number.
    rewrite Ascii.eqb_refl.
    assert (Hi : starts_with (lit "Infinity")
                   (list_ascii_of_string
                      (NilEmpty.string_of_uint (Pos.to_uint p)) ++ rest) = false).
    { rewrite Hs. cbn [list_ascii_of_string app lit starts_with].
      destruct c as [[] [] [] [] [] [] [] []]; try reflexivity; discriminate. }
    rewrite Hi, H. reflexivity.
Qed.

Lemma json_ind2 (P : json -> Prop) :
  P JNull ->
  (forall b, P (JBool b)) ->
  (forall z, P (JInt z)) ->
  (forall s, P (JStr s)) ->
  (forall l, Forall P l -> P (JList l)) ->
  (forall d, Forall (fun kv => P (snd kv)) d -> P (JDict d)) ->
  forall v, P v.
Proof.
  intros HN HB HI HS HL HD. fix IH 1.
  intros [|b|z|s|l|d]; [apply HN | apply HB | apply HI | apply HS | | ].
  - apply HL. induction l as [|x l IHl]; constructor; [apply IH | exact IHl].
  - apply HD. induction d as [|[k x] d IHd]; constructor;
      [apply IH | exact IHd].
Qed.

Lemma skip_ws_spaces k s : skip_ws (repeat " "%char k ++ s) = skip_ws s.
Proof. induction k; simpl; auto. Qed.

Lemma skip_ws_newline_indent k s : skip_ws (newline_indent k ++ s) = skip_ws s.
Proof. unfold newline_indent. simpl. apply skip_ws_spaces. Qed.

Lemma skip_ws_head c s : is_ws c = false -> skip_ws (c :: s) = c :: s.
Proof. intros H. simpl. now rewrite H. Qed.

Lemma dump_int_head z :
  exists c r, dump_int z = c :: r /\ (is_digit c || Ascii.eqb c "-") = true.
Proof.
  unfold dump_int, lit. destruct z as [|p|p]; simpl Z.to_int.
  - do 2 eexists. split; reflexivity.
  - cbn [NilZero.string_of_int]. rewrite string_of_uint_pos.
    destruct (to_uint_head p) as [c [s [Hs [Hd H0]]]]. rewrite Hs.
    do 2 eexists. split; [reflexivity|]. now rewrite Hd.
  - do 2 eexists. split; reflexivity.
Qed.

Lemma digit_value_start c :
  (is_digit c || Ascii.eqb c "-") = true -> value_start c = true.
Proof.
  destruct c as [[] [] [] [] [] [] [] []]; intros H; try reflexivity;
    discriminate H.
Qed.

Lemma dump_head level v :
  exists c r, dump level v = c :: r /\ value_start c = true.
Proof.
  destruct v as [|[]|z|s|[|x xs]|[|[k x] xs]];
    try (do 2 eexists; split; reflexivity).
  destruct (dump_int_head z) as [c [r [Hz Hc]]].
  exists c, r. split; [exact Hz | now apply digit_value_start].
Qed.

Lemma skip_ws_dump level v s :
  skip_ws (dump level v ++ s) = dump level v ++ s.
Proof.
  destruct (dump_head level v) as [c [r [Hd Hc]]]. rewrite Hd. simpl.
  unfold value_start in Hc. destruct (is_ws c); [discriminate|reflexivity].
Qed.

Lemma scan_once_number n c t :
  (is_digit c || Ascii.eqb c "-") = true ->
  scan_once (S n) (c :: t) = scan_number (c :: t).
Proof.
  destruct c as [[] [] [] [] [] [] [] []]; intros H; try reflexivity;
    discriminate H.
Qed.

Lemma of_pairs_nodup_gen {V} (d acc : list (string * V)) :
  NoDup (map fst acc ++ map fst d) ->
  fold_left (fun a kv => Dict.set (fst kv) (snd kv) a) d acc = acc ++ d.
Proof.
  revert acc. induction d as [|[k v] d IH]; intros acc Hnd; simpl.
  - now rewrite app_nil_r.
  - assert (Hset : Dict.set k v acc = acc ++ [(k, v)]).
    { assert (Hnotin : ~ In k (map fst acc)).
      { apply NoDup_remove_2 in Hnd. intros Hin. apply Hnd.
        apply in_or_app. now left. }
      clear - Hnotin. induction acc as [|[k1 v1] r IHr]; simpl; auto.
      destruct (String.eqb_spec k1 k) as [->|Hne].
      - exfalso. apply Hnotin. now left.
      - f_equal. apply IHr. intros Hin. apply Hnotin. now right. }
    rewrite Hset, IH.
    + now rewrite <- app_assoc.
    + rewrite map_app. simpl. rewrite <- app_assoc. exact Hnd.
Qed.

Lemma nodupb_NoDup l : nodupb l = true -> NoDup l.
Proof.
  induction l as [|x r IH]; simpl; intros H; constructor.
  - apply andb_true_iff in H. destruct H as [H _].
    intros Hin. apply negb_true_iff in H.
    assert (Ht : existsb (String.eqb x) r = true).
    { apply existsb_exists. exists x. split; auto. apply String.eqb_refl. }
    congruence.
  - apply IH. apply andb_true_iff in H. tauto.
Qed.

Lemma of_pairs_nodup {V} (d : list (string * V)) :
  nodupb (map fst d) = true -> Dict.of_pairs d = d.
Proof.
  intros H. unfold Dict.of_pairs, Dict.update.
  apply (of_pairs_nodup_gen d []). simpl. now apply nodupb_NoDup.
Qed.

Lemma dump_list_cons level x xs :
  dump level (JList (x :: xs)) =
  "["%char :: newline_indent (S level) ++ dump (S level) x
  ++ dump_items level xs ++ newline_indent level ++ ["]"%char].
Proof. reflexivity. Qed.

Lemma dump_dict_cons level k x xs :
  dump level (JDict ((k, x) :: xs)) =
  "{"%char :: newline_indent (S level) ++ encode_basestring k
  ++ ":"%char :: " "%char :: dump (S level) x ++ dump_members level xs
  ++ newline_indent level ++ ["}"%char].
Proof. reflexivity. Qed.

Lemma dump_items_cons level y ys :
  dump_items level (y :: ys) =
  ","%char :: newline_indent (S level) ++ dump (S level) y
  ++ dump_items level ys.
Proof.
  unfold dump_items. cbn [map List.concat lit list_ascii_of_string app].
  now rewrite <- !app_assoc.
Qed.

Lemma dump_members_cons level k y ys :
  dump_members level ((k, y) :: ys) =
  ","%char :: newline_indent (S level) ++ encode_basestring k
  ++ ":"%char :: " "%char :: dump (S level) y ++ dump_members level ys.
Proof.
  unfold dump_members. cbn [map List.concat lit list_ascii_of_string app fst snd].
  now rewrite <- !app_assoc.
Qed.

Lemma dump_items_nil level : dump_items level [] = [].
Proof. reflexivity. Qed.

Lemma dump_members_nil level : dump_members level [] = [].
Proof. reflexivity. Qed.

Lemma scanstring_basestring k t :
  exists body,
    encode_basestring k ++ t = dquote :: body /\
    scanstring body = POk k t.
Proof.
  exists (flat_map escape_char (list_ascii_of_string k) ++ dquote :: t).
  split.
  - unfold encode_basestring. cbn [app]. now rewrite <- app_assoc.
  - apply scanstring_encode.
Qed.

Lemma dump_int_eq level z : dump level (JInt z) = dump_int z.
Proof. reflexivity. Qed.

Lemma dump_str_eq level s : dump level (JStr s) = encode_basestring s.
Proof. reflexivity. Qed.

(** The printers stay folded while texts are matched against what the
    scanners expect. *)
Opaque newline_indent dump encode_basestring dump_items dump_members.

Lemma scan_once_list n t :
  (exists c r, skip_ws t = c :: r /\ value_start c = true) ->
  scan_once (S n) ("["%char :: t) =
  pbind (parse_elements n (skip_ws t)) (fun l rest => POk (JList l) rest).
Proof.
  intros [c [r [Ht Hc]]]. cbn [scan_once]. rewrite Ht.
  unfold value_start in Hc. cbn.
  destruct (Ascii.eqb c "]"); [|reflexivity].
  rewrite !andb_false_r in Hc. discriminate.
Qed.

Lemma scan_once_dict n t r :
  skip_ws t = dquote :: r ->
  scan_once (S n) ("{"%char :: t) =
  pbind (parse_members n (skip_ws t))
    (fun pairs rest => POk (JDict (Dict.of_pairs pairs)) rest).
Proof. intros Ht. cbn [scan_once]. rewrite Ht. reflexivity. Qed.

Lemma parse_elements_dump level rest :
  forall xs x m,
    Forall scans_back (x :: xs) ->
    forallb json_wf (x :: xs) = true ->
    list_sum (map (fun x => S (fsize x)) (x :: xs)) <= m ->
    parse_elements m (dump (S level) x ++ dump_items level xs
                      ++ newline_indent level ++ "]"%char :: rest)
    = POk (x :: xs) rest.
Proof.
  induction xs as [|y ys IH]; intros x m HF Hwf Hm;
    (destruct m as [|m]; [simpl in Hm; lia|]);
    inversion HF as [|? ? Hx HF']; subst;
    cbn [forallb] in Hwf; apply andb_true_iff in Hwf; destruct Hwf as [Hwx Hwf];
    cbn [map list_sum fold_right] in Hm; cbn [parse_elements].
  - rewrite dump_items_nil. cbn [app].
    rewrite (Hx Hwx (S level) _ m); [|reflexivity|lia].
    cbn [pbind]. rewrite skip_ws_newline_indent. reflexivity.
  - rewrite dump_items_cons. cbn [app].
    rewrite (Hx Hwx (S level) _ m); [|reflexivity|lia].
    cbn [pbind skip_ws]. cbn. rewrite <- !app_assoc.
    rewrite skip_ws_newline_indent, skip_ws_dump.
    rewrite (IH y m HF' Hwf); [reflexivity|].
    cbn [map list_sum fold_right]. lia.
Qed.

Lemma parse_members_key m k t :
  parse_members (S m) (encode_basestring k ++ t) =
  match skip_ws t with
  | c :: r1 =>
      if Ascii.eqb c ":" then
        pbind (scan_once m (skip_ws r1)) (fun v rest2 =>
          match skip_ws rest2 with
          | c2 :: r3 =>
              if Ascii.eqb c2 "," then
                pbind (parse_members m (skip_ws r3))
                  (fun ps rest3 => POk ((k, v) :: ps) rest3)
              else if Ascii.eqb c2 "}" then POk [(k, v)] r3
              else PErr
          | [] => PErr
          end)
      else PErr
  | [] => PErr
  end.
Proof.
  destruct (scanstring_basestring k t) as [body [Hb Hs]]. rewrite Hb.
  cbn [parse_members]. rewrite Ascii.eqb_refl, Hs. reflexivity.
Qed.

Lemma parse_members_dump level rest :
  forall xs k x m,
    Forall (fun kv => scans_back (snd kv)) ((k, x) :: xs) ->
    forallb (fun kv => json_wf (snd kv)) ((k, x) :: xs) = true ->
    list_sum (map (fun kv => S (fsize (snd kv))) ((k, x) :: xs)) <= m ->
    parse_members m (encode_basestring k
                     ++ ":"%char :: " "%char :: dump (S level) x
                     ++ dump_members level xs
                     ++ newline_indent level ++ "}"%char :: rest)
    = POk ((k, x) :: xs) rest.
Proof.
  induction xs as [|[k' y] ys IH]; intros k x m HF Hwf Hm;
    (destruct m as [|m]; [simpl in Hm; lia|]);
    inversion HF as [|? ? Hx HF']; subst;
    cbn [forallb snd] in Hwf; apply andb_true_iff in Hwf;
    destruct Hwf as [Hwx Hwf];
    cbn [map list_sum fold_right snd] in Hm, Hx;
    rewrite parse_members_key;
    cbn [lit list_ascii_of_string app]; cbn; rewrite skip_ws_dump.
  - rewrite dump_members_nil. cbn [app].
    rewrite (Hx Hwx (S level) _ m); [|reflexivity|lia].
    cbn [pbind]. rewrite skip_ws_newline_indent. reflexivity.
  - rewrite dump_members_cons. cbn [app].
    rewrite (Hx Hwx (S level) _ m); [|reflexivity|lia].
    cbn [pbind skip_ws]. cbn. rewrite <- !app_assoc.
    rewrite skip_ws_newline_indent.
    assert (Hq : forall t, skip_ws (encode_basestring k' ++ t)
                           = encode_basestring k' ++ t).
    { intros t. destruct (scanstring_basestring k' t) as [body [Hb _]].
      rewrite Hb. reflexivity. }
    rewrite Hq. cbn [app]. rewrite <- ?app_assoc.
    rewrite (IH k' y m HF' Hwf); [reflexivity|].
    cbn [map list_sum fold_right snd]. lia.
Qed.

Ltac norm_text := repeat (progress (cbn [app]; rewrite <- ?app_assoc)).

(** Scanning what [dump] printed for a well-formed value returns the
    value and the text after it. *)
Lemma scan_once_dump v : scans_back v.
Proof.
  induction v as [|b|z|s|l IHl|d IHd] using json_ind2;
    intros Hwf level rest fuel Hrest Hfuel;
    (destruct fuel as [|n]; [simpl in Hfuel; lia|]).
  - reflexivity.
  - destruct b; reflexivity.
  - rewrite dump_int_eq.
    destruct (dump_int_head z) as [c [r [Hz Hc]]].
    pose proof (scan_number_dump_int z rest Hrest) as Hn.
    rewrite Hz in *. cbn [app] in *.
    rewrite (scan_once_number n c _ Hc). exact Hn.
  - rewrite dump_str_eq.
    destruct (scanstring_basestring s rest) as [body [Hb Hs]]. rewrite Hb.
    cbn [scan_once]. change (Ascii.eqb dquote dquote) with true.
    cbv beta iota. rewrite Hs. reflexivity.
  - destruct l as [|x xs]; [reflexivity|].
    rewrite dump_list_cons. norm_text.
    rewrite scan_once_list.
    + rewrite skip_ws_newline_indent, skip_ws_dump. cbn [app].
      cbn [json_wf] in Hwf. cbn [fsize] in Hfuel.
      rewrite (parse_elements_dump level rest xs x n IHl Hwf); [reflexivity|].
      lia.
    + rewrite skip_ws_newline_indent, skip_ws_dump.
      destruct (dump_head (S level) x) as [c [r [Hd Hc]]]. rewrite Hd.
      cbn [app]. eauto.
  - destruct d as [|[k x] xs]; [reflexivity|].
    rewrite dump_dict_cons. norm_text.
    destruct (scanstring_basestring k
                (":"%char :: " "%char :: dump (S level) x
                 ++ dump_members level xs
                 ++ newline_indent level ++ "}"%char :: rest))
      as [body [Hb _]].
    cbn [json_wf] in Hwf. apply andb_true_iff in Hwf.
    destruct Hwf as [Hnd Hwf]. cbn [fsize] in Hfuel.
    rewrite (scan_once_dict n _ body).
    + rewrite skip_ws_newline_indent, Hb. cbn [skip_ws].
      change (is_ws dquote) with false. cbv beta iota. rewrite <- Hb.
      cbn [app].
      rewrite (parse_members_dump level rest xs k x n IHd Hwf); [|lia].
      cbn [pbind]. now rewrite of_pairs_nodup.
    + rewrite skip_ws_newline_indent, Hb. reflexivity.
Qed.

Transparent newline_indent dump encode_basestring dump_items dump_members.

Lemma dump_nonempty level v : 1 <= List.length (dump level v).
Proof.
  destruct (dump_head level v) as [c [r [Hd _]]]. rewrite Hd. simpl. lia.
Qed.

Lemma fsize_dump v : forall level, fsize v <= 2 * List.length (dump level v).
Proof.
  induction v as [|b|z|s|l IHl|d IHd] using json_ind2; intros level.
  - pose proof (dump_nonempty level JNull). simpl fsize. lia.
  - pose proof (dump_nonempty level (JBool b)). simpl fsize. lia.
  - pose proof (dump_nonempty level (JInt z)). simpl fsize. lia.
  - pose proof (dump_nonempty level (JStr s)). simpl fsize. lia.
  - destruct l as [|x xs]; [simpl; lia|].
    rewrite dump_list_cons. cbn [fsize List.length].
    rewrite !length_app.
    assert (Hitems : forall ys, Forall (fun v => forall level,
                        fsize v <= 2 * List.length (dump level v)) ys ->
              list_sum (map (fun x => S (fsize x)) ys)
              <= 2 * List.length (dump_items level ys)).
    { induction ys as [|y ys IHys]; intros HF; [simpl; lia|].
      inversion HF as [|? ? Hy HF']; subst.
      rewrite dump_items_cons. cbn [map list_sum fold_right List.length].
      rewrite !length_app. specialize (IHys HF').
      specialize (Hy (S level)). unfold list_sum in IHys. lia. }
    inversion IHl as [|? ? Hx HF]; subst.
    specialize (Hitems xs HF). specialize (Hx (S level)).
    cbn [map list_sum fold_right]. unfold list_sum in Hitems. simpl List.length.
    lia.
  - destruct d as [|[k x] xs]; [simpl; lia|].
    rewrite dump_dict_cons. cbn [fsize List.length].
    rewrite !length_app.
    assert (Hitems : forall ys, Forall (fun kv => forall level,
                        fsize (snd kv) <= 2 * List.length (dump level (snd kv))) ys ->
              list_sum (map (fun kv => S (fsize (snd kv))) ys)
              <= 2 * List.length (dump_members level ys)).
    { induction ys as [|[k' y] ys IHys]; intros HF; [simpl; lia|].
      inversion HF as [|? ? Hy HF']; subst.
      rewrite dump_members_cons. cbn [map list_sum fold_right List.length snd].
      rewrite !length_app. cbn [List.length]. rewrite !length_app.
      specialize (IHys HF').
      specialize (Hy (S level)). cbn [snd] in Hy. unfold list_sum in IHys. lia. }
    inversion IHd as [|? ? Hx HF]; subst.
    specialize (Hitems xs HF). specialize (Hx (S level)). cbn [snd] in Hx.
    cbn [map list_sum fold_right snd]. unfold list_sum in Hitems.
    cbn [List.length]. rewrite !length_app. simpl List.length. lia.
Qed.

(** [json.loads] inverts [json.dumps] on values whose dicts have
    distinct keys. *)
Lemma json_loads_dumps v :
  json_wf v = true -> json_loads (json_dumps v) = Ok v.
Proof.
  intros Hwf. unfold json_loads, json_dumps.
  rewrite list_ascii_of_string_of_list_ascii.
  pose proof (skip_ws_dump 0 v []) as Hskip. rewrite app_nil_r in Hskip.
  rewrite Hskip.
  pose proof (scan_once_dump v Hwf 0 [] (scan_fuel (dump 0 v)) eq_refl) as Hs.
  rewrite app_nil_r in Hs. rewrite Hs; [reflexivity|].
  unfold scan_fuel. pose proof (fsize_dump v 0). lia.
Qed.

(** ** What the scanner returns is well formed *)

Lemma dict_keys_set_mem {V} (k : string) (v : V) d :
  In k (Dict.keys d) -> Dict.keys (Dict.set k v d) = Dict.keys d.
Proof.
  induction d as [|[k1 v1] r IH]; simpl; intros H; [contradiction|].
  destruct (String.eqb_spec k1 k) as [->|Hne]; simpl; auto.
  f_equal. apply IH. destruct H; [contradiction|assumption].
Qed.

Lemma NoDup_nodupb l : NoDup l -> nodupb l = true.
Proof.
  induction 1 as [|x r Hnotin Hnd IH]; simpl; auto.
  rewrite IH, andb_true_r. apply negb_true_iff.
  destruct (existsb (String.eqb x) r) eqn:E; auto.
  apply existsb_exists in E. destruct E as [y [Hy Heq]].
  apply String.eqb_eq in Heq. subst y. contradiction.
Qed.

Lemma NoDup_snoc {A} (l : list A) (x : A) :
  NoDup l -> ~ In x l -> NoDup (l ++ [x]).
Proof.
  intros Hnd Hx. apply NoDup_rev in Hnd.
  rewrite <- (rev_involutive (l ++ [x])). apply NoDup_rev.
  rewrite rev_app_distr. simpl. constructor; auto.
  intros Hin. apply Hx. now apply in_rev.
Qed.

Lemma dict_set_nodup {V} (k : string) (v : V) d :
  NoDup (Dict.keys d) -> NoDup (Dict.keys (Dict.set k v d)).
Proof.
  intros Hnd. destruct (in_dec string_dec k (Dict.keys d)) as [Hin|Hout].
  - now rewrite dict_keys_set_mem.
  - rewrite dict_keys_set_fresh by assumption. now apply NoDup_snoc.
Qed.

Lemma dict_set_forallb {V} (P : V -> bool) (k : string) (v : V) d :
  forallb (fun kv => P (snd kv)) d = true -> P v = true ->
  forallb (fun kv => P (snd kv)) (Dict.set k v d) = true.
Proof.
  intros Hd Hv. induction d as [|[k1 v1] r IH]; simpl in *.
  - now rewrite Hv.
  - apply andb_true_iff in Hd. destruct Hd as [H1 Hr].
    destruct (k1 =? k)%string; simpl.
    + now rewrite Hv, Hr.
    + now rewrite H1, IH.
Qed.

Lemma of_pairs_wf ps :
  forallb (fun kv => json_wf (snd kv)) ps = true ->
  json_wf (JDict (Dict.of_pairs ps)) = true.
Proof.
  intros Hps. unfold Dict.of_pairs, Dict.update.
  assert (Hgen : forall acc : list (string * json),
             NoDup (Dict.keys acc) ->
             forallb (fun kv => json_wf (snd kv)) acc = true ->
             json_wf (JDict (fold_left
                               (fun a kv => Dict.set (fst kv) (snd kv) a)
                               ps acc)) = true).
  { induction ps as [|[k v] r IH]; intros acc Hnd Hacc.
    - simpl. rewrite Hacc, andb_true_r. now apply NoDup_nodupb.
    - simpl in Hps. apply andb_true_iff in Hps. destruct Hps as [Hv Hr].
      simpl. apply (IH Hr).
      + now apply dict_set_nodup.
      + now apply dict_set_forallb. }
  apply Hgen; [constructor | reflexivity].
Qed.

Lemma scan_number_int s v rest :
  scan_number s = POk v rest -> exists z, v = JInt z.
Proof.
  unfold scan_number. destruct s as [|c r]; [discriminate|].
  destruct (Ascii.eqb c "-").
  - destruct (starts_with _ _); [discriminate|].
    destruct (scan_digits r); simpl; intros H; inversion H; eauto.
  - destruct (scan_digits (c :: r)); simpl; intros H; inversion H; eauto.
Qed.

Lemma scan_wf fuel :
  (forall s v rest, scan_once fuel s = POk v rest -> json_wf v = true) /\
  (forall s l rest, parse_elements fuel s = POk l rest ->
                    forallb json_wf l = true) /\
  (forall s ps rest, parse_members fuel s = POk ps rest ->
                     forallb (fun kv => json_wf (snd kv)) ps = true).
Proof.
  induction fuel as [|n [IH1 [IH2 IH3]]].
  - repeat split; intros; discriminate.
  - split; [|split].
    + intros s v rest H. destruct s as [|c r]; [discriminate|].
      cbn [scan_once] in H.
      destruct (Ascii.eqb c dquote).
      { destruct (scanstring r); try discriminate. inversion H. reflexivity. }
      destruct (Ascii.eqb c "{").
      { destruct (skip_ws r) as [|d r']; [discriminate|].
        destruct (Ascii.eqb d "}"); [inversion H; reflexivity|].
        destruct (parse_members n (d :: r')) eqn:E; try discriminate.
        simpl in H. inversion H. subst. apply of_pairs_wf.
        eapply IH3; eauto. }
      destruct (Ascii.eqb c "[").
      { destruct (skip_ws r) as [|d r']; [discriminate|].
        destruct (Ascii.eqb d "]"); [inversion H; reflexivity|].
        destruct (parse_elements n (d :: r')) eqn:E; try discriminate.
        simpl in H. inversion H. subst. simpl. eapply IH2; eauto. }
      unfold scan_literal in H.
      destruct (Ascii.eqb c "n").
      { destruct (starts_with _ _); inversion H; reflexivity. }
      destruct (Ascii.eqb c "t").
      { destruct (starts_with _ _); inversion H; reflexivity. }
      destruct (Ascii.eqb c "f").
      { destruct (starts_with _ _); inversion H; reflexivity. }
      destruct (Ascii.eqb c "N").
      { destruct (starts_with _ _); discriminate. }
      destruct (Ascii.eqb c "I").
      { destruct (starts_with _ _); discriminate. }
      apply scan_number_int in H. destruct H as [z ->]. reflexivity.
    + intros s l rest H. cbn [parse_elements] in H.
      destruct (scan_once n s) as [v r1| | |] eqn:E; try discriminate.
      simpl in H. destruct (skip_ws r1) as [|c r2]; [discriminate|].
      destruct (Ascii.eqb c ",").
      { destruct (parse_elements n (skip_ws r2)) eqn:E2; try discriminate.
        simpl in H. inversion H. subst. simpl.
        rewrite (IH1 _ _ _ E). eapply IH2; eauto. }
      destruct (Ascii.eqb c "]"); [|discriminate].
      inversion H. subst. simpl. now rewrite (IH1 _ _ _ E).
    + intros s ps rest H. cbn [parse_members] in H.
      destruct s as [|q r]; [discriminate|].
      destruct (Ascii.eqb q dquote); [|discriminate].
      destruct (scanstring r) as [k r1| | |]; try discriminate.
      simpl in H. destruct (skip_ws r1) as [|c r2]; [discriminate|].
      destruct (Ascii.eqb c ":"); [|discriminate].
      destruct (scan_once n (skip_ws r2)) as [v r3| | |] eqn:E;
        try discriminate.
      simpl in H. destruct (skip_ws r3) as [|c2 r4]; [discriminate|].
      destruct (Ascii.eqb c2 ",").
      { destruct (parse_members n (skip_ws r4)) eqn:E2; try discriminate.
        simpl in H. inversion H. subst. simpl.
        rewrite (IH1 _ _ _ E). eapply IH3; eauto. }
      destruct (Ascii.eqb c2 "}"); [|discriminate].
      inversion H. subst. simpl. now rewrite (IH1 _ _ _ E).
Qed.

Lemma json_loads_wf s v : json_loads s = Ok v -> json_wf v = true.
Proof.
  unfold json_loads.
  destruct (scan_once _ _) as [v' rest| | |] eqn:E; try discriminate.
  destruct (skip_ws rest); [|discriminate].
  intros H. inversion H. subst.
  eapply (proj1 (scan_wf _)). exact E.
Qed.

Lemma json_loads_bytes_wf b v : json_loads_bytes b = Ok v -> json_wf v = true.
Proof.
  intros H. destruct (json_loads_bytes_ok _ _ H) as [s [_ Hs]].
  exact (json_loads_wf _ _ Hs).
Qed.

(** ** The invariant of the store *)

Lemma py_getitem_wf c k v :
  json_wf c = true -> py_getitem c k = Ok v -> json_wf v = true.
Proof.
  intros Hc H. destruct c as [| | |s|l|d]; try discriminate.
  - (* a character of a string *)
    assert (Hch : forall i, py_index (chars s) i = Ok v -> json_wf v = true).
    { intros i Hi. unfold py_index in Hi.
      destruct ((0 <=? _)%Z && _); [|discriminate].
      destruct (nth_error _ _) eqn:E; [|discriminate].
      inversion Hi. subst. apply nth_error_In in E. unfold chars in E.
      apply in_map_iff in E. destruct E as [ch [<- _]]. reflexivity. }
    destruct k; try discriminate; simpl in H; eauto.
  - assert (Hl : forall i, py_index l i = Ok v -> json_wf v = true).
    { intros i Hi. unfold py_index in Hi.
      destruct ((0 <=? _)%Z && _); [|discriminate].
      destruct (nth_error _ _) eqn:E; [|discriminate].
      inversion Hi. subst. apply nth_error_In in E. simpl in Hc.
      rewrite forallb_forall in Hc. now apply Hc. }
    destruct k; try discriminate; simpl in H; eauto.
  - destruct k; try discriminate. simpl in H.
    destruct (Dict.get s d) eqn:E; [|discriminate]. inversion H. subst.
    apply dict_get_some_in in E. simpl in Hc. apply andb_true_iff in Hc.
    destruct Hc as [_ Hc]. rewrite forallb_forall in Hc. apply (Hc _ E).
Qed.

Lemma dict_set_wf k v d :
  json_wf (JDict d) = true -> json_wf v = true ->
  json_wf (JDict (Dict.set k v d)) = true.
Proof.
  simpl. intros Hd Hv. apply andb_true_iff in Hd. destruct Hd as [Hnd Hd].
  apply andb_true_iff. split.
  - apply NoDup_nodupb. apply (dict_set_nodup k v d). now apply nodupb_NoDup.
  - now apply dict_set_forallb.
Qed.

Lemma py_setitem_wf c k v c' :
  json_wf c = true -> json_wf v = true -> py_setitem c k v = Ok c' ->
  json_wf c' = true.
Proof.
  intros Hc Hv H. destruct c, k; try discriminate. simpl in H.
  inversion H. subst. now apply dict_set_wf.
Qed.

Lemma dict_update_wf d o :
  json_wf (JDict d) = true -> json_wf (JDict o) = true ->
  json_wf (JDict (Dict.update d o)) = true.
Proof.
  unfold Dict.update. revert d.
  induction o as [|[k v] r IH]; intros d Hd Ho; simpl fold_left; auto.
  simpl in Ho. apply andb_true_iff in Ho. destruct Ho as [Hnd Ho].
  apply andb_true_iff in Hnd. destruct Hnd as [_ Hnd].
  apply andb_true_iff in Ho. destruct Ho as [Hv Ho].
  apply IH.
  - now apply dict_set_wf.
  - simpl. now rewrite Hnd, Ho.
Qed.

Lemma py_dict_update_wf d o d' :
  json_wf d = true -> json_wf o = true -> py_dict_update d o = Ok d' ->
  json_wf d' = true.
Proof.
  intros Hd Ho H. destruct d; try discriminate. simpl in H.
  destruct o as [| | |s|l|o]; try discriminate.
  - destruct s; inversion H; subst; exact Hd.
  - destruct l; inversion H; subst; exact Hd.
  - inversion H. subst. now apply dict_update_wf.
Qed.

Lemma schema_current_set k v d :
  k <> "info" ->
  schema_current (JDict (Dict.set k v d)) = schema_current (JDict d).
Proof.
  intros Hk. unfold schema_current. simpl.
  now rewrite dict_get_set_neq by assumption.
Qed.

Lemma py_setitem_current c k v c' :
  k <> "info" -> py_setitem c (JStr k) v = Ok c' ->
  schema_current c' = schema_current c.
Proof.
  intros Hk H. destruct c; try discriminate. simpl in H. inversion H.
  now apply schema_current_set.
Qed.

Lemma update_labels_ok self labels self' :
  store_ok self -> json_wf labels = true ->
  update_labels self labels = Ok self' -> store_ok self'.
Proof.
  intros Hok Hl H. unfold update_labels, self_db in H.
  destruct (_db self) as [d|] eqn:Hd; [|discriminate]. simpl in H.
  destruct (Hok d Hd) as [Hwf Hcur].
  destruct (py_getitem d (JStr "labels")) as [old|] eqn:E1; [|discriminate].
  simpl in H.
  destruct (py_dict_update old labels) as [new|] eqn:E2; [|discriminate].
  simpl in H.
  destruct (py_setitem d (JStr "labels") new) as [d'|] eqn:E3; [|discriminate].
  simpl in H. inversion H. subst. intros doc Hdoc. simpl in Hdoc.
  inversion Hdoc. subst. split.
  - apply (py_setitem_wf _ _ _ _ Hwf) in E3; auto.
    apply (py_dict_update_wf _ _ _ (py_getitem_wf _ _ _ Hwf E1) Hl E2).
  - rewrite (py_setitem_current _ "labels" _ _
               ltac:(intros Hq; discriminate Hq) E3). exact Hcur.
Qed.

Lemma merge_result_ok st outs w st' w' :
  store_ok (bs_self st) ->
  merge_result st outs w = (Ok st', w') -> store_ok (bs_self st').
Proof.
  intros Hok. unfold merge_result, try_catch, mbind, lift, logger, ret.
  destruct (json_loads_bytes outs) as [m_rec|e] eqn:E0.
  2:{ destruct e; try discriminate.
      destruct (bs_f st); [|discriminate]. intros H. inversion H. now subst. }
  pose proof (json_loads_bytes_wf _ _ E0) as Hm.
  destruct (py_getitem m_rec (JStr "model")) as [model|e] eqn:E1;
    [|destruct e; try discriminate; absurd_exn].
  pose proof (py_getitem_wf _ _ _ Hm E1) as Hmodel.
  unfold self_db at 1.
  destruct (_db (bs_self st)) as [d|] eqn:Hd; [|discriminate].
  destruct (Hok d Hd) as [Hwf Hcur].
  destruct (py_getitem d (JStr "models")) as [models|e] eqn:E2;
    [|destruct e; try discriminate; absurd_exn].
  cbn [rbind].
  destruct (py_getitem model (JStr "name")) as [name|e] eqn:E3;
    [|destruct e; try discriminate; absurd_exn].
  destruct (py_setitem models name model) as [models'|e] eqn:E4;
    [|destruct e; try discriminate; absurd_exn].
  destruct (py_setitem d (JStr "models") models') as [d'|e] eqn:E5;
    [|destruct e; try discriminate; absurd_exn].
  destruct (py_getitem m_rec (JStr "labels")) as [labels|e] eqn:E6;
    [|destruct e; try discriminate; absurd_exn].
  destruct (update_labels (set_db (bs_self st) d') labels) as [self'|e] eqn:E7;
    [|destruct e; try discriminate; absurd_exn].
  intros H. inversion H. subst. simpl.
  apply (update_labels_ok (set_db (bs_self st) d') labels self'); auto.
  - intros doc Hdoc. simpl in Hdoc. inversion Hdoc. subst. split.
    + apply (py_setitem_wf _ _ _ _ Hwf) in E5; auto.
      apply (py_setitem_wf _ _ _ _ (py_getitem_wf _ _ _ Hwf E2) Hmodel E4).
    + rewrite (py_setitem_current _ "models" _ _
                 ltac:(intros Hq; discriminate Hq) E5). exact Hcur.
  - apply (py_getitem_wf _ _ _ Hm E6).
Qed.

Lemma build_loop_ok n :
  forall fuel st w st' w',
    store_ok (bs_self st) ->
    build_loop fuel n st w = (Ok st', w') -> store_ok (bs_self st').
Proof.
  induction fuel as [|fuel IH]; intros st w st' w' Hok H; [discriminate|].
  cbn [build_loop] in H.
  destruct ((0 <? List.length (bs_model_files st))
            || (0 <? List.length (bs_jobs st)))%nat.
  2:{ inversion H. now subst. }
  rewrite mbind_run in H.
  destruct (top_up_spec (S (List.length (bs_model_files st))) n st w
              (Nat.lt_succ_diag_r _))
    as [taken [rest [_ [Hrun _]]]].
  rewrite Hrun in H. cbn [bs_jobs bs_self bs_model_files bs_f] in H.
  destruct (bs_jobs st ++ spawn_jobs (List.length (events w)) taken)
    as [|j js]; [discriminate|].
  rewrite mbind_run in H. unfold communicate in H. rewrite mbind_run in H.
  match type of H with
  | context [merge_result ?s ?o ?x] =>
      destruct (merge_result s o x) as [[st2|e] w2] eqn:Hm; [|discriminate]
  end.
  apply (IH st2 w2 st' w'); auto.
  eapply merge_result_ok; [|exact Hm]. exact Hok.
Qed.

Lemma initialize_ok self w self' w' :
  initialize self w = (Ok self', w') -> store_ok self'.
Proof.
  unfold initialize. destruct (lbw_version_info w) as [[major minor] micro].
  intros H. inversion H. subst. intros doc Hdoc. simpl in Hdoc.
  inversion Hdoc. subst. split; reflexivity.
Qed.

Lemma build_ok self models_dir sdk_path w self' w' :
  build self models_dir sdk_path w = (Ok self', w') -> store_ok self'.
Proof.
  rewrite build_unfold. unfold build_entry. cbv zeta. rewrite mbind_run.
  destruct (initialize self w) as [[s0|e0] w0] eqn:Hinit.
  2:{ unfold initialize in Hinit.
      destruct (lbw_version_info w) as [[? ?] ?]. discriminate. }
  match goal with
  | |- context [build_loop ?fuel ?n ?st0 ?x] =>
      destruct (build_loop fuel n st0 x) as [[st|e] w1] eqn:Hloop;
        [|discriminate]
  end.
  apply build_loop_ok in Hloop; [|exact (initialize_ok _ _ _ _ Hinit)].
  unfold mbind, save, write_file, lift, logger, ret.
  destruct (0 <? List.length (bs_model_files st))%nat,
           (0 <? List.length (bs_jobs st))%nat; cbv beta iota;
    unfold mbind;
    (destruct (self_db (bs_self st)); [|discriminate]);
    (destruct (model_count (bs_self st)); [|discriminate]);
    intros H; inversion H; subst; exact Hloop.
Qed.

Lemma schema_current_int doc :
  schema_current doc = true ->
  exists info v,
    py_getitem doc (JStr "info") = Ok info /\
    py_getitem info (JStr "schema_version") = Ok (JInt v) /\
    (SCHEMA_VERSION <= v)%Z.
Proof.
  unfold schema_current.
  destruct (py_getitem doc (JStr "info")) as [info|] eqn:E1; [|discriminate].
  cbn [rbind].
  destruct (py_getitem info (JStr "schema_version")) as [sv|] eqn:E2;
    [|discriminate].
  cbn [rbind]. destruct sv as [|b|z| | |]; try discriminate.
  - destruct b; discriminate.
  - simpl. intros H. apply negb_true_iff in H. apply Z.ltb_ge in H.
    exists info, z. auto.
Qed.

Lemma ThicketDB_init_ok db_filename loc py create w self w' :
  ThicketDB_init db_filename loc py create w = (Ok self, w') -> store_ok self.
Proof.
  unfold ThicketDB_init, try_catch. rewrite mbind_run. unfold read_file.
  destruct (Dict.get db_filename (files w)) as [t|].
  - rewrite mbind_run. unfold lift.
    destruct (json_loads t) as [d|e] eqn:E0.
    + pose proof (json_loads_wf _ _ E0) as Hwf.
      rewrite !mbind_run.
      destruct (py_getitem d (JStr "info")) as [info|e] eqn:E1;
        [|destruct e; try discriminate; absurd_exn].
      rewrite !mbind_run.
      destruct (py_getitem info (JStr "schema_version")) as [sv|e] eqn:E2;
        [|destruct e; try discriminate; absurd_exn].
      rewrite !mbind_run.
      destruct (py_lt_int sv SCHEMA_VERSION) as [old|e] eqn:E3.
      * destruct old; [discriminate|].
        intros H. inversion H. subst. intros doc Hdoc. simpl in Hdoc.
        inversion Hdoc. subst. split; [exact Hwf|].
        unfold schema_current. rewrite E1. cbn [rbind]. rewrite E2.
        cbn [rbind]. now rewrite E3.
      * destruct sv; simpl in E3; inversion E3; subst; discriminate.
    + destruct e; try discriminate; try absurd_exn.
      unfold mbind, logger, ret. intros H. inversion H. subst.
      intros doc Hdoc. simpl in Hdoc. discriminate Hdoc.
  - cbv beta iota. destruct create; [|discriminate].
    rewrite mbind_run.
    destruct (initialize _ w) as [[s0|e0] w0] eqn:Hinit; [|discriminate].
    pose proof (initialize_ok _ _ _ _ Hinit) as Hok.
    unfold mbind, save, write_file, lift, ret, mbind.
    destruct (self_db s0); [|discriminate].
    intros H. inversion H. now subst.
Qed.

(** Every store a caller can hold satisfies the invariant. *)
Lemma reachable_ok self : reachable self -> store_ok self.
Proof.
  induction 1 as [? ? ? ? ? ? ? H|? ? ? ? ? ? H|? ? ? ? IH Hl H].
  - exact (ThicketDB_init_ok _ _ _ _ _ _ _ H).
  - exact (build_ok _ _ _ _ _ _ H).
  - exact (update_labels_ok _ _ _ IH Hl H).
Qed.

(** ** Saving and opening again *)

Lemma save_writes self doc w :
  _db self = Some doc ->
  save self w =
  (Ok tt, with_files (with_files w (Dict.set (_db_filename self) EmptyString
                                      (files w)))
            (Dict.set (_db_filename self) (json_dumps doc)
               (Dict.set (_db_filename self) EmptyString (files w)))).
Proof.
  intros Hdb. unfold save, mbind, write_file, lift, self_db. rewrite Hdb.
  reflexivity.
Qed.

(** X23: for every document a store can hold in memory, as far as the
    values here go (a tree of dicts with distinct string keys, lists,
    strings of characters up to U+00FF, integers, booleans and null),
    [save] followed by opening the same path returns a store holding
    the very same document, hence the same info, labels and models. *)
Theorem save_open_roundtrip self doc w loc py create :
  reachable self ->
  _db self = Some doc ->
  exists w1 self',
    save self w = (Ok tt, w1) /\
    ThicketDB_init (_db_filename self) loc py create w1 = (Ok self', w1) /\
    _db self' = Some doc.
Proof.
  intros Hreach Hdb.
  destruct (reachable_ok self Hreach doc Hdb) as [Hwf Hcur].
  destruct (schema_current_int doc Hcur) as [info [v [Hi [Hv Hle]]]].
  rewrite (save_writes self doc w Hdb).
  eexists. eexists. split; [reflexivity|].
  rewrite (ThicketDB_init_loaded _ _ loc py create (json_dumps doc) doc info v).
  - apply Z.ltb_ge in Hle. rewrite Hle. split; reflexivity.
  - cbn [files with_files]. apply dict_get_set_eq.
  - now apply json_loads_dumps.
  - exact Hi.
  - exact Hv.
Qed.

Lemma save_open_roundtrip_witness :
  exists w1 self',
    save (store_of (doc_of 2 [("oak", JDict [("en", JStr "Oak")])]
                             [("oak", model_rec "oak" "young")]))
      (world_of []) = (Ok tt, w1) /\
    ThicketDB_init "thicket.db" "de_DE" "python" false w1 = (Ok self', w1) /\
    _db self' = Some (doc_of 2 [("oak", JDict [("en", JStr "Oak")])]
                               [("oak", model_rec "oak" "young")]).
Proof.
  apply (save_open_roundtrip
           (store_of (doc_of 2 [("oak", JDict [("en", JStr "Oak")])]
                               [("oak", model_rec "oak" "young")]))
           (doc_of 2 [("oak", JDict [("en", JStr "Oak")])]
                     [("oak", model_rec "oak" "young")])
           (world_of []) "de_DE" "python" false).
  - apply (reach_init "thicket.db" "en-US" "python" false
             (world_of [("thicket.db",
                         json_dumps
                           (doc_of 2 [("oak", JDict [("en", JStr "Oak")])]
                                     [("oak", model_rec "oak" "young")]))])
             _ (world_of [("thicket.db",
                         json_dumps
                           (doc_of 2 [("oak", JDict [("en", JStr "Oak")])]
                                     [("oak", model_rec "oak" "young")]))])).
    vm_compute. reflexivity.
  - reflexivity.
Defined.

(** ** The loops of [build] never run out of fuel *)

Lemma build_loop_fuel n :
  1 <= n ->
  forall fuel st w,
    List.length (pending st) < fuel ->
    fst (build_loop fuel n st w) <> Raise OutOfFuel.
Proof.
  intros Hn. induction fuel as [|fuel IH]; intros st w Hfuel; [lia|].
  destruct (list_eq_dec string_dec (pending st) []) as [Hp|Hp].
  - unfold pending in Hp. apply app_eq_nil in Hp. destruct Hp as [Hj Hf].
    apply map_eq_nil in Hj.
    assert (Hf' : bs_model_files st = []).
    { destruct (bs_model_files st) as [|x r]; auto.
      simpl in Hf. now apply app_eq_nil in Hf. }
    rewrite (build_loop_done fuel n st w Hf' Hj). discriminate.
  - destruct (build_loop_step fuel n st w Hn Hp)
      as [taken [rest [j [js [Hsplit [Hjobs [_ Hloop]]]]]]].
    rewrite Hloop, mbind_run. clear Hloop.
    pose proof (pending_step st rest taken j js _ Hsplit Hjobs) as Hpend.
    match goal with
    | |- context [merge_result ?s ?o ?x] =>
        destruct (merge_result_frame s o x) as [l [_ [Hne Hframe]]];
        destruct (merge_result s o x) as [[st2|e] w2]
    end; simpl in *.
    + destruct (Hframe st2 eq_refl) as [Hf2 [Hj2 _]].
      apply IH. unfold pending. rewrite Hf2, Hj2.
      rewrite Hpend in Hfuel. simpl in Hfuel. lia.
    + exact Hne.
Qed.

(** [build] returns or raises a Python exception: the fuel its loops are
    given always suffices. *)
Lemma build_fuel_suffices self models_dir sdk_path w :
  fst (build self models_dir sdk_path w) <> Raise OutOfFuel.
Proof.
  rewrite build_unfold. unfold build_entry. cbv zeta. rewrite mbind_run.
  match goal with
  | |- context [build_loop ?fuel ?n ?st0 ?x] =>
      pose proof (build_loop_fuel n (num_jobs_of_pos _) fuel st0 x) as Hl;
      destruct (build_loop fuel n st0 x) as [[st|e] w1]
  end.
  - unfold mbind, save, write_file, lift, logger, ret.
    destruct (0 <? List.length (bs_model_files st))%nat,
             (0 <? List.length (bs_jobs st))%nat; cbv beta iota;
      unfold mbind;
      (destruct (self_db (bs_self st)) as [?|[]] eqn:?;
       try absurd_exn; try discriminate);
      (destruct (model_count (bs_self st)) as [?|[]] eqn:?;
       try absurd_exn; discriminate).
  - simpl in *. intros He. inversion He. subst. apply Hl; [|reflexivity].
    unfold pending. simpl. rewrite length_rev. lia.
Qed.

(** ** [json.loads] never runs out of fuel *)

Lemma skip_ws_length s : List.length (skip_ws s) <= List.length s.
Proof.
  induction s as [|c r IH]; simpl; auto.
  destruct (is_ws c); simpl; lia.
Qed.

Lemma pcons_ok c p k rest :
  pcons c p = POk k rest -> exists k', p = POk k' rest.
Proof.
  destruct p; simpl; intros H; inversion H; eauto.
Qed.

Lemma scanstring_length s k rest :
  scanstring s = POk k rest -> List.length rest < List.length s.
Proof.
  remember (List.length s) as n eqn:Hn.
  assert (Hle : List.length s <= n) by lia. clear Hn.
  revert s k rest Hle.
  induction n as [|n IH]; intros s k rest Hle H;
    destruct s as [|c r]; simpl in Hle; try discriminate; try lia.
  cbn [scanstring] in H.
  destruct (Ascii.eqb c dquote).
  { inversion H. subst. simpl. lia. }
  destruct (Ascii.eqb c "\").
  - destruct r as [|e r1]; [discriminate|].
    destruct (Ascii.eqb e "u").
    + destruct r1 as [|h1 [|h2 [|h3 [|h4 r2]]]]; try discriminate.
      destruct (hex4 h1 h2 h3 h4) as [x|]; [|discriminate].
      destruct (x <? 256)%N; [|discriminate].
      apply pcons_ok in H. destruct H as [k' H].
      apply IH in H; simpl in *; lia.
    + destruct (unescape e); [|discriminate].
      apply pcons_ok in H. destruct H as [k' H].
      apply IH in H; simpl in *; lia.
  - destruct (is_ctrl c); [discriminate|].
    apply pcons_ok in H. destruct H as [k' H].
    apply IH in H; simpl in *; lia.
Qed.

Lemma span_digits_length s :
  List.length (snd (span_digits s)) <= List.length s.
Proof.
  induction s as [|c r IH]; simpl; auto.
  destruct (is_digit c); simpl; [|lia].
  destruct (span_digits r). simpl in *. lia.
Qed.

Lemma scan_digits_length s z rest :
  scan_digits s = POk z rest -> List.length rest < List.length s.
Proof.
  unfold scan_digits. destruct s as [|c r]; [discriminate|].
  destruct (Ascii.eqb c "0").
  - destruct (float_tail r); intros H; inversion H. subst. simpl. lia.
  - destruct (is_digit c) eqn:Hd; [|discriminate].
    pose proof (span_digits_length r) as Hl.
    simpl. rewrite Hd. destruct (span_digits r) as [ds rs]. simpl in Hl.
    destruct (float_tail rs); intros H; inversion H. subst. simpl. lia.
Qed.

Lemma scan_number_length s v rest :
  scan_number s = POk v rest -> List.length rest < List.length s.
Proof.
  unfold scan_number. destruct s as [|c r]; [discriminate|].
  destruct (Ascii.eqb c "-").
  - destruct (starts_with _ _); [discriminate|].
    destruct (scan_digits r) as [z rs| | |] eqn:E; simpl; try discriminate.
    intros H. inversion H. subst. apply scan_digits_length in E. simpl. lia.
  - destruct (scan_digits (c :: r)) as [z rs| | |] eqn:E; simpl;
      try discriminate.
    intros H. inversion H. subst. now apply scan_digits_length in E.
Qed.

Lemma scan_literal_length word v s v' rest :
  word <> EmptyString ->
  scan_literal word v s = POk v' rest -> List.length rest < List.length s.
Proof.
  unfold scan_literal. intros Hw.
  destruct (starts_with (lit word) s) eqn:E; [|discriminate].
  intros H. inversion H. subst. rewrite length_skipn.
  destruct word as [|a word']; [contradiction|].
  destruct s; simpl in *; [discriminate|lia].
Qed.

(** A scanner that returns has consumed at least one character. *)
Lemma scan_consumes fuel :
  (forall s v rest, scan_once fuel s = POk v rest ->
                    List.length rest < List.length s) /\
  (forall s l rest, parse_elements fuel s = POk l rest ->
                    List.length rest < List.length s) /\
  (forall s ps rest, parse_members fuel s = POk ps rest ->
                     List.length rest < List.length s).
Proof.
  induction fuel as [|n [IH1 [IH2 IH3]]].
  - repeat split; intros; discriminate.
  - split; [|split].
    + intros s v rest H. destruct s as [|c r]; [discriminate|].
      cbn [scan_once] in H.
      destruct (Ascii.eqb c dquote).
      { destruct (scanstring r) eqn:E; try discriminate. inversion H. subst.
        apply scanstring_length in E. simpl. lia. }
      destruct (Ascii.eqb c "{").
      { pose proof (skip_ws_length r) as Hs.
        destruct (skip_ws r) as [|d r']; [discriminate|].
        destruct (Ascii.eqb d "}").
        { inversion H. subst. simpl in *. lia. }
        destruct (parse_members n (d :: r')) eqn:E; try discriminate.
        simpl in H. inversion H. subst. apply IH3 in E. simpl in *. lia. }
      destruct (Ascii.eqb c "[").
      { pose proof (skip_ws_length r) as Hs.
        destruct (skip_ws r) as [|d r']; [discriminate|].
        destruct (Ascii.eqb d "]").
        { inversion H. subst. simpl in *. lia. }
        destruct (parse_elements n (d :: r')) eqn:E; try discriminate.
        simpl in H. inversion H. subst. apply IH2 in E. simpl in *. lia. }
      destruct (Ascii.eqb c "n").
      { apply scan_literal_length in H; [exact H|discriminate]. }
      destruct (Ascii.eqb c "t").
      { apply scan_literal_length in H; [exact H|discriminate]. }
      destruct (Ascii.eqb c "f").
      { apply scan_literal_length in H; [exact H|discriminate]. }
      destruct (Ascii.eqb c "N").
      { destruct (starts_with _ _); discriminate. }
      destruct (Ascii.eqb c "I").
      { destruct (starts_with _ _); discriminate. }
      now apply scan_number_length in H.
    + intros s l rest H. cbn [parse_elements] in H.
      destruct (scan_once n s) as [v r1| | |] eqn:E; try discriminate.
      simpl in H. apply IH1 in E. pose proof (skip_ws_length r1) as Hs.
      destruct (skip_ws r1) as [|c r2]; [discriminate|].
      destruct (Ascii.eqb c ",").
      { pose proof (skip_ws_length r2) as Hs2.
        destruct (parse_elements n (skip_ws r2)) eqn:E2; try discriminate.
        simpl in H. inversion H. subst. apply IH2 in E2. simpl in *. lia. }
      destruct (Ascii.eqb c "]"); [|discriminate].
      inversion H. subst. simpl in *. lia.
    + intros s ps rest H. cbn [parse_members] in H.
      destruct s as [|q r]; [discriminate|].
      destruct (Ascii.eqb q dquote); [|discriminate].
      destruct (scanstring r) as [k r1| | |] eqn:E0; try discriminate.
      apply scanstring_length in E0.
      simpl in H. pose proof (skip_ws_length r1) as Hs1.
      destruct (skip_ws r1) as [|c r2]; [discriminate|].
      destruct (Ascii.eqb c ":"); [|discriminate].
      pose proof (skip_ws_length r2) as Hs2.
      destruct (scan_once n (skip_ws r2)) as [v r3| | |] eqn:E;
        try discriminate.
      apply IH1 in E.
      simpl in H. pose proof (skip_ws_length r3) as Hs3.
      destruct (skip_ws r3) as [|c2 r4]; [discriminate|].
      destruct (Ascii.eqb c2 ",").
      { pose proof (skip_ws_length r4) as Hs4.
        destruct (parse_members n (skip_ws r4)) eqn:E2; try discriminate.
        simpl in H. inversion H. subst. apply IH3 in E2. simpl in *. lia. }
      destruct (Ascii.eqb c2 "}"); [|discriminate].
      inversion H. subst. simpl in *. lia.
Qed.

Lemma scanstring_fuel s : scanstring s <> PFuel.
Proof.
  remember (List.length s) as n eqn:Hn.
  assert (Hle : List.length s <= n) by lia. clear Hn. revert s Hle.
  assert (Hp : forall c p, p <> PFuel -> pcons c p <> PFuel).
  { intros c [] H; simpl; congruence. }
  induction n as [|n IH]; intros s Hle;
    destruct s as [|c r]; simpl in Hle; try discriminate; try lia.
  cbn [scanstring].
  destruct (Ascii.eqb c dquote); [discriminate|].
  destruct (Ascii.eqb c "\").
  - destruct r as [|e r1]; [discriminate|].
    destruct (Ascii.eqb e "u").
    + destruct r1 as [|h1 [|h2 [|h3 [|h4 r2]]]]; try discriminate.
      destruct (hex4 h1 h2 h3 h4) as [x|]; [|discriminate].
      destruct (x <? 256)%N; [|discriminate].
      apply Hp, IH. simpl in *. lia.
    + destruct (unescape e); [|discriminate].
      apply Hp, IH. simpl in *. lia.
  - destruct (is_ctrl c); [discriminate|]. apply Hp, IH. lia.
Qed.

Lemma scan_number_fuel s : scan_number s <> PFuel.
Proof.
  assert (Hd : forall t, scan_digits t <> PFuel).
  { intros t. unfold scan_digits. destruct t as [|c r]; [discriminate|].
    destruct (Ascii.eqb c "0"); [destruct (float_tail r); discriminate|].
    destruct (is_digit c); [|discriminate].
    destruct (span_digits (c :: r)) as [ds rs].
    destruct (float_tail rs); discriminate. }
  unfold scan_number. destruct s as [|c r]; [discriminate|].
  destruct (Ascii.eqb c "-").
  - destruct (starts_with _ _); [discriminate|].
    specialize (Hd r). destruct (scan_digits r); simpl; congruence.
  - specialize (Hd (c :: r)). destruct (scan_digits (c :: r)); simpl; congruence.
Qed.

(** With fuel twice the length of the text, and a little more, no
    scanner stops for lack of it. *)
Lemma scan_fuel_suffices fuel :
  (forall s, 2 * List.length s + 1 <= fuel -> scan_once fuel s <> PFuel) /\
  (forall s, 2 * List.length s + 2 <= fuel -> parse_elements fuel s <> PFuel) /\
  (forall s, 2 * List.length s + 2 <= fuel -> parse_members fuel s <> PFuel).
Proof.
  induction fuel as [|n [IH1 [IH2 IH3]]].
  - repeat split; intros; lia.
  - split; [|split].
    + intros s Hf. destruct s as [|c r]; [discriminate|].
      cbn [scan_once]. simpl in Hf.
      destruct (Ascii.eqb c dquote).
      { pose proof (scanstring_fuel r). destruct (scanstring r); simpl;
          congruence. }
      destruct (Ascii.eqb c "{").
      { pose proof (skip_ws_length r) as Hs.
        destruct (skip_ws r) as [|d r']; [discriminate|].
        destruct (Ascii.eqb d "}"); [discriminate|].
        assert (Hm : parse_members n (d :: r') <> PFuel)
          by (apply IH3; simpl in *; lia).
        destruct (parse_members n (d :: r')); simpl; congruence. }
      destruct (Ascii.eqb c "[").
      { pose proof (skip_ws_length r) as Hs.
        destruct (skip_ws r) as [|d r']; [discriminate|].
        destruct (Ascii.eqb d "]"); [discriminate|].
        assert (Hm : parse_elements n (d :: r') <> PFuel)
          by (apply IH2; simpl in *; lia).
        destruct (parse_elements n (d :: r')); simpl; congruence. }
      unfold scan_literal.
      destruct (Ascii.eqb c "n"); [destruct (starts_with _ _); discriminate|].
      destruct (Ascii.eqb c "t"); [destruct (starts_with _ _); discriminate|].
      destruct (Ascii.eqb c "f"); [destruct (starts_with _ _); discriminate|].
      destruct (Ascii.eqb c "N"); [destruct (starts_with _ _); discriminate|].
      destruct (Ascii.eqb c "I"); [destruct (starts_with _ _); discriminate|].
      apply scan_number_fuel.
    + intros s Hf. cbn [parse_elements].
      assert (H1 : scan_once n s <> PFuel) by (apply IH1; lia).
      destruct (scan_once n s) as [v r1| | |] eqn:E; simpl; try congruence.
      apply (proj1 (scan_consumes n)) in E.
      pose proof (skip_ws_length r1) as Hs.
      destruct (skip_ws r1) as [|c r2]; [discriminate|].
      destruct (Ascii.eqb c ",").
      { pose proof (skip_ws_length r2) as Hs2.
        assert (H2 : parse_elements n (skip_ws r2) <> PFuel)
          by (apply IH2; simpl in *; lia).
        destruct (parse_elements n (skip_ws r2)); simpl; congruence. }
      destruct (Ascii.eqb c "]"); discriminate.
    + intros s Hf. cbn [parse_members].
      destruct s as [|q r]; [discriminate|]. simpl in Hf.
      destruct (Ascii.eqb q dquote); [|discriminate].
      pose proof (scanstring_fuel r) as H0.
      destruct (scanstring r) as [k r1| | |] eqn:E0; simpl; try congruence.
      apply scanstring_length in E0.
      pose proof (skip_ws_length r1) as Hs1.
      destruct (skip_ws r1) as [|c r2]; [discriminate|].
      destruct (Ascii.eqb c ":"); [|discriminate].
      pose proof (skip_ws_length r2) as Hs2.
      assert (H1 : scan_once n (skip_ws r2) <> PFuel)
        by (apply IH1; simpl in *; lia).
      destruct (scan_once n (skip_ws r2)) as [v r3| | |] eqn:E; simpl;
        try congruence.
      apply (proj1 (scan_consumes n)) in E.
      pose proof (skip_ws_length r3) as Hs3.
      destruct (skip_ws r3) as [|c2 r4]; [discriminate|].
      destruct (Ascii.eqb c2 ",").
      { pose proof (skip_ws_length r4) as Hs4.
        assert (H2 : parse_members n (skip_ws r4) <> PFuel)
          by (apply IH3; simpl in *; lia).
        destruct (parse_members n (skip_ws r4)); simpl; congruence. }
      destruct (Ascii.eqb c2 "}"); discriminate.
Qed.

(** [json.loads] answers with a value or [JSONDecodeError], or stops at
    a float or a character it does not model, never for lack of fuel. *)
Lemma json_loads_fuel s :
  scan_once (scan_fuel (skip_ws (list_ascii_of_string s)))
    (skip_ws (list_ascii_of_string s)) <> PFuel.
Proof.
  apply (proj1 (scan_fuel_suffices _)). unfold scan_fuel. lia.
Qed.

(** * Further properties of the code *)

(** ** Opening a path that does not exist *)

Lemma get_model_no_models self d fp name :
  _db self = Some (JDict d) ->
  Dict.get "models" d = Some (JDict []) ->
  get_model self fp name = Ok None.
Proof.
  intros Hdb Hm. unfold get_model, self_db. rewrite Hdb.
  cbn [rbind py_getitem]. rewrite Hm. cbn [rbind py_contains_str Dict.mem Dict.get].
  destruct name as [n|]; cbn [truthy_str].
  - destruct (negb (n =? EmptyString)%string) eqn:En; cbn [rbind negb].
    + destruct fp as [f|]; [|reflexivity].
      cbn [truthy_str]. destruct (negb (f =? EmptyString)%string); reflexivity.
    + apply negb_false_iff in En. apply String.eqb_eq in En. subst n.
      reflexivity.
  - cbn [rbind]. destruct fp as [f|]; [|reflexivity].
    cbn [truthy_str]. destruct (negb (f =? EmptyString)%string); reflexivity.
Qed.

(** X1: opening a path that holds no file raises [FileNotFoundError]
    and changes nothing unless [create] is set.  With [create], whenever
    the constructor returns, it has written a new database file and the
    store it returns is empty: no model, no label (a key resolves to
    itself), nothing logged, no worker started; and opening the path
    again, with or without [create], loads the very document the first
    call returned. *)
Theorem open_missing_path w path loc py :
  Dict.get path (files w) = None ->
  ThicketDB_init path loc py false w = (Raise FileNotFoundError, w) /\
  forall self w1,
    ThicketDB_init path loc py true w = (Ok self, w1) ->
    model_count self = Ok 0 /\
    (forall fp name, get_model self fp name = Ok None) /\
    (forall key l, get_label self (JStr key) l = Ok (JStr key)) /\
    (exists doc,
       _db self = Some doc /\
       Dict.get path (files w1) = Some (json_dumps doc)) /\
    log w1 = log w /\ events w1 = events w /\
    (forall loc' py' create,
       exists self',
         ThicketDB_init path loc' py' create w1 = (Ok self', w1) /\
         _db self' = _db self).
Proof.
  intros Hnone. split.
  - unfold ThicketDB_init, try_catch. rewrite mbind_run. unfold read_file.
    rewrite Hnone. reflexivity.
  - destruct (lbw_version_info w) as [[major minor] micro] eqn:Hv.
    set (info := JDict [("sdk_version", JStr (lbw_version w));
                        ("sdk_major", JInt major);
                        ("sdk_minor", JInt minor);
                        ("sdk_micro", JInt micro);
                        ("schema_version", JInt SCHEMA_VERSION)]).
    set (doc := JDict [("info", info); ("labels", JDict []);
                       ("models", JDict [])]).
    set (self0 := {| _db_filename := path; locale := str_replace "_" "-" loc;
                     python := py; _db := Some doc |}).
    set (w0 := with_files
                 (with_files w (Dict.set path EmptyString (files w)))
                 (Dict.set path (json_dumps doc)
                    (Dict.set path EmptyString (files w)))).
    assert (Hopen : ThicketDB_init path loc py true w = (Ok self0, w0)).
    { unfold ThicketDB_init, try_catch. rewrite mbind_run. unfold read_file.
      rewrite Hnone. cbv beta iota. rewrite mbind_run. unfold initialize.
      rewrite Hv. reflexivity. }
    intros self w1 Hret. rewrite Hopen in Hret.
    inversion Hret; subst self w1; clear Hret.
    assert (Hfile : Dict.get path (files w0) = Some (json_dumps doc)).
    { unfold w0. cbn [files with_files]. apply dict_get_set_eq. }
    split; [reflexivity|]. split.
    { intros fp name. eapply get_model_no_models; reflexivity. }
    split.
    { intros key l. apply get_label_no_entry. reflexivity. }
    split.
    { exists doc. split; [reflexivity | exact Hfile]. }
    split; [reflexivity|]. split; [reflexivity|].
    intros loc' py' create.
    rewrite (ThicketDB_init_loaded w0 path loc' py' create (json_dumps doc)
               doc info SCHEMA_VERSION).
    + eexists. split; reflexivity.
    + exact Hfile.
    + apply json_loads_dumps. reflexivity.
    + reflexivity.
    + reflexivity.
Qed.

Lemma open_missing_path_witness :
  ThicketDB_init "thicket.db" "en_US" "python" false (world_of [])
  = (Raise FileNotFoundError, world_of []) /\
  exists self w1,
    ThicketDB_init "thicket.db" "en_US" "python" true (world_of [])
    = (Ok self, w1) /\
    model_count self = Ok 0 /\
    (forall fp name, get_model self fp name = Ok None) /\
    (forall key l, get_label self (JStr key) l = Ok (JStr key)) /\
    (exists doc,
       _db self = Some doc /\
       Dict.get "thicket.db" (files w1) = Some (json_dumps doc)) /\
    log w1 = log (world_of []) /\ events w1 = events (world_of []) /\
    (forall loc' py' create,
       exists self',
         ThicketDB_init "thicket.db" loc' py' create w1 = (Ok self', w1) /\
         _db self' = _db self).
Proof.
  destruct (open_missing_path (world_of []) "thicket.db" "en_US" "python"
              eq_refl) as [Hraise Hcreate].
  split; [exact Hraise|].
  eexists. eexists. split; [reflexivity|].
  apply Hcreate. reflexivity.
Defined.

(** ** Locales written with an underscore *)

Lemma str_replace_idem a b s :
  a <> b -> str_replace a b (str_replace a b s) = str_replace a b s.
Proof.
  intros Hab. unfold str_replace.
  rewrite list_ascii_of_string_of_list_ascii, map_map. f_equal.
  apply map_ext. intros c.
  destruct (Ascii.eqb c a) eqn:E; [|now rewrite E].
  destruct (Ascii.eqb_spec b a) as [->|_]; [now elim Hab|reflexivity].
Qed.

Lemma str_replace_empty a b s :
  (str_replace a b s =? EmptyString)%string = (s =? EmptyString)%string.
Proof. destruct s; reflexivity. Qed.

(** X2: a locale written with underscores and the same locale written
    with hyphens are one locale, for the store's own locale given to the
    constructor and for the locale given to [get_label]: the two
    spellings open the same store and resolve every key alike. *)
Theorem locale_separator_insensitive self key l path py create w :
  get_label self key (Some l) =
  get_label self key (Some (str_replace "_" "-" l)) /\
  ThicketDB_init path l py create w =
  ThicketDB_init path (str_replace "_" "-" l) py create w.
Proof.
  split.
  - unfold get_label. rewrite str_replace_empty.
    rewrite str_replace_idem by discriminate. reflexivity.
  - unfold ThicketDB_init. rewrite str_replace_idem by discriminate.
    reflexivity.
Qed.

(** ** Saving a store that holds no document *)

(** X4: [save] opens the database file for writing before it looks at
    the document.  On a store that holds none, as the constructor leaves
    it after a file that does not decode, [save] raises
    [AttributeError] and the file is left empty: opening a corrupt
    database and saving the store loses the text the file held. *)
Theorem save_after_corrupt_open_empties w path loc py create text :
  Dict.get path (files w) = Some text ->
  json_loads text = Raise JSONDecodeError ->
  exists self w1 w2,
    ThicketDB_init path loc py create w = (Ok self, w1) /\
    save self w1 = (Raise AttributeError, w2) /\
    Dict.get path (files w2) = Some EmptyString /\
    log w2 = log w ++ [CriticalJSONDecodeError].
Proof.
  intros Hf Hj.
  assert (Hopen : ThicketDB_init path loc py create w =
                  (Ok {| _db_filename := path;
                         locale := str_replace "_" "-" loc;
                         python := py; _db := None |},
                   add_log w CriticalJSONDecodeError)).
  { unfold ThicketDB_init, try_catch. rewrite mbind_run. unfold read_file.
    rewrite Hf. rewrite mbind_run. unfold lift. rewrite Hj. reflexivity. }
  do 3 eexists. split; [exact Hopen|].
  unfold save, mbind, write_file, lift, self_db. cbn [_db _db_filename].
  split; [reflexivity|]. split.
  - cbn [files with_files add_log]. apply dict_get_set_eq.
  - reflexivity.
Qed.

Lemma save_after_corrupt_open_empties_witness :
  exists self w1 w2,
    ThicketDB_init "thicket.db" "en_US" "python" false
      (world_of [("thicket.db", "{")]) = (Ok self, w1) /\
    save self w1 = (Raise AttributeError, w2) /\
    Dict.get "thicket.db" (files w2) = Some EmptyString /\
    log w2 = log (world_of [("thicket.db", "{")]) ++ [CriticalJSONDecodeError].
Proof.
  apply (save_after_corrupt_open_empties (world_of [("thicket.db", "{")])
           "thicket.db" "en_US" "python" false "{").
  - reflexivity.
  - vm_compute. reflexivity.
Defined.

(** ** What [build] leaves behind *)


(** The loop touches no file. *)
Lemma build_loop_files n :
  forall fuel st w, files (snd (build_loop fuel n st w)) = files w.
Proof.
  induction fuel as [|fuel IH]; intros st w; [reflexivity|].
  cbn [build_loop].
  destruct ((0 <? List.length (bs_model_files st))
            || (0 <? List.length (bs_jobs st)))%nat; [|reflexivity].
  rewrite mbind_run.
  destruct (top_up_spec (S (List.length (bs_model_files st))) n st w
              (Nat.lt_succ_diag_r _))
    as [taken [rest [_ [Hrun _]]]].
  rewrite Hrun. cbn [bs_jobs bs_self bs_model_files bs_f].
  destruct (bs_jobs st ++ spawn_jobs (List.length (events w)) taken)
    as [|j js]; [reflexivity|].
  rewrite mbind_run. unfold communicate. rewrite mbind_run.
  match goal with
  | |- context [merge_result ?s ?o ?x] =>
      destruct (merge_result_frame s o x) as [l [Hw _]];
      destruct (merge_result s o x) as [[st2|e] w2]
  end; cbn [fst snd] in *; subst w2.
  - rewrite IH. reflexivity.
  - reflexivity.
Qed.






(** ** The tables [build] fills *)

Lemma dict_set_fresh {V} (k : string) (v : V) d :
  ~ In k (Dict.keys d) -> Dict.set k v d = d ++ [(k, v)].
Proof.
  induction d as [|[k1 v1] r IH]; simpl; intros H; auto.
  destruct (String.eqb_spec k1 k) as [->|Hne].
  - exfalso. apply H. now left.
  - f_equal. apply IH. intros Hin. apply H. now right.
Qed.


Lemma parsed_models_app w a b :
  parsed_models w (a ++ b) = parsed_models w a ++ parsed_models w b.
Proof. unfold parsed_models. apply flat_map_app. Qed.






(** ** Output that decodes but is no record *)

Lemma merge_result_not_a_record st outs w :
  not_a_record outs = true ->
  exists e,
    merge_result st outs w = (Raise e, w) /\ (e = KeyError \/ e = TypeError).
Proof.
  unfold not_a_record, merge_result, try_catch, mbind, lift.
  destruct (json_loads_bytes outs) as [m_rec|]; [|discriminate].
  destruct (py_getitem m_rec (JStr "model")) as [|e] eqn:E; [discriminate|].
  intros _. exists e.
  assert (He : e = KeyError \/ e = TypeError).
  { destruct m_rec as [| | | |l|d]; simpl in E; try (inversion E; auto).
    destruct (Dict.get "model" d); inversion E; auto. }
  split; [|exact He]. destruct He as [->| ->]; reflexivity.
Qed.

Lemma build_loop_aborts_on (P : exn -> Prop) n bad :
  1 <= n ->
  forall fuel st w ms ls,
    List.length (pending st) < fuel ->
    (bs_jobs st <> [] -> bs_f st <> None) ->
    db_tables (bs_self st) ms ls ->
    In bad (pending st) ->
    (forall st0 w0,
       exists e,
         merge_result st0 (worker_stdout w bad) w0 = (Raise e, w0) /\ P e) ->
    (forall f, In f (pending st) -> f <> bad -> is_other w f = false) ->
    exists e w',
      build_loop fuel n st w = (Raise e, w') /\ P e.
Proof.
  intros Hn. induction fuel as [|fuel IH];
    intros st w ms ls Hfuel Hf Hdb Hin Hbad Hother; [lia|].
  assert (Hp : pending st <> []) by (intros Hq; rewrite Hq in Hin; elim Hin).
  destruct (build_loop_step fuel n st w Hn Hp)
    as [taken [rest [j [js [Hsplit [Hjobs [Hb Hloop]]]]]]].
  rewrite Hloop, mbind_run. clear Hloop.
  pose proof (pending_step st rest taken j js _ Hsplit Hjobs) as Hpend.
  set (st_mid := {| bs_self := bs_self st; bs_model_files := rest;
                    bs_jobs := js;
                    bs_f := match rev taken with
                            | f :: _ => Some f
                            | [] => bs_f st
                            end |}).
  set (w_mid := extend w (map DebugParsing taken)
                  (spawn_events (spawn_jobs (List.length (events w)) taken)
                   ++ [Reap (pid j)])).
  assert (Hpm : pending st = job_file j :: pending st_mid) by exact Hpend.
  assert (Hfm : bs_f st_mid <> None).
  { unfold st_mid. simpl. destruct taken as [|t ts].
    - simpl in *. rewrite app_nil_r in Hjobs. apply Hf. rewrite Hjobs.
      discriminate.
    - simpl. destruct (rev ts ++ [t]) eqn:E; [|discriminate].
      now apply app_eq_nil in E. }
  rewrite Hpm in Hfuel, Hother, Hin. simpl in Hfuel.
  destruct (string_dec (job_file j) bad) as [Heq|Hne].
  - (* the oldest job is the one that printed no record *)
    rewrite Heq.
    destruct (Hbad st_mid w_mid) as [e [Hm He]].
    rewrite Hm. eauto.
  - assert (Hin' : In bad (pending st_mid)).
    { destruct Hin as [Hq|Hq]; [now elim Hne|exact Hq]. }
    assert (Hcls : is_other w (job_file j) = false)
      by (apply Hother; [now left|exact Hne]).
    unfold is_other in Hcls.
    destruct (classify (worker_stdout w (job_file j))) as [|nm model lbls|] eqn:Hc;
      [| |discriminate].
    + destruct (bs_f st_mid) as [f|] eqn:Hfs; [|now elim Hfm].
      rewrite (merge_result_malformed st_mid _ w_mid f Hc Hfs).
      apply (IH st_mid (add_log w_mid (ErrorJSONDecodeError f)) ms ls); auto.
      * lia.
      * intros _. rewrite Hfs. discriminate.
      * intros f' Hf' Hnb. apply (Hother f'); [now right|exact Hnb].
    + destruct (merge_result_parsed st_mid _ w_mid nm model lbls ms ls Hc Hdb)
        as [self' [Hmerge Hdb']].
      rewrite Hmerge.
      apply (IH {| bs_self := self'; bs_model_files := bs_model_files st_mid;
                   bs_jobs := bs_jobs st_mid; bs_f := bs_f st_mid |}
               (add_log w_mid (InfoAdded (JStr nm)))
               (Dict.set nm model ms) (Dict.update ls lbls)); auto.
      * unfold pending in *. simpl in *. lia.
      * intros f' Hf' Hnb. apply (Hother f'); [now right|exact Hnb].
Qed.

Lemma build_loop_aborts n bad :
  1 <= n ->
  forall fuel st w ms ls,
    List.length (pending st) < fuel ->
    (bs_jobs st <> [] -> bs_f st <> None) ->
    db_tables (bs_self st) ms ls ->
    In bad (pending st) ->
    not_a_record (worker_stdout w bad) = true ->
    (forall f, In f (pending st) -> f <> bad -> is_other w f = false) ->
    exists e w',
      build_loop fuel n st w = (Raise e, w') /\
      (e = KeyError \/ e = TypeError).
Proof.
  intros Hn fuel st w ms ls Hfuel Hf Hdb Hin Hbad Hother.
  apply (build_loop_aborts_on (fun e => e = KeyError \/ e = TypeError)
           n bad Hn fuel st w ms ls); auto.
  intros st0 w0. now apply merge_result_not_a_record.
Qed.

(** X7: the scheduler contains only output that does not decode.  When
    the worker of one scanned file prints text that decodes to a value
    without a [model] entry, and the other workers print records or
    text that does not decode, [build] raises [KeyError] or [TypeError]
    out of its merge step and writes no file: the database file, if
    there is one, keeps its old text. *)
Theorem build_aborts_on_non_record self models_dir sdk_path w bad :
  In bad (glob w (models_dir ++ "/*/*.lbw.gz")%string) ->
  not_a_record (worker_stdout w bad) = true ->
  (forall f, In f (glob w (models_dir ++ "/*/*.lbw.gz")%string) ->
             f <> bad -> is_other w f = false) ->
  exists e w',
    build self models_dir sdk_path w = (Raise e, w') /\
    (e = KeyError \/ e = TypeError) /\
    files w' = files w.
Proof.
  set (files0 := glob w (models_dir ++ "/*/*.lbw.gz")%string).
  intros Hin Hbad Hother.
  rewrite build_unfold. unfold build_entry. fold files0. cbv zeta.
  unfold initialize. destruct (lbw_version_info w) as [[major minor] micro].
  cbn [bs_model_files]. rewrite mbind_run.
  match goal with
  | |- context [build_loop ?fuel ?n ?st0 ?w0] =>
      pose proof (build_loop_files n fuel st0 w0) as Hfiles;
      destruct (build_loop_aborts n bad (num_jobs_of_pos _) fuel st0 w0 [] [])
        as [e [w' [Hrun He]]]
  end.
  { unfold pending. simpl. rewrite length_rev. lia. }
  { simpl. intros H. now elim H. }
  { eexists. split; [reflexivity|]. split; reflexivity. }
  { unfold pending. simpl. now apply in_rev in Hin. }
  { exact Hbad. }
  { unfold pending. simpl. intros f Hf Hnb. apply Hother; [|exact Hnb].
    now apply in_rev. }
  rewrite Hrun in Hfiles |- *. exists e, w'. split; [reflexivity|].
  split; [exact He|]. exact Hfiles.
Qed.

Lemma build_aborts_on_non_record_witness :
  exists e w',
    build fresh_store "/plants" "/sdk" stray_world = (Raise e, w') /\
    (e = KeyError \/ e = TypeError) /\
    files w' = files stray_world.
Proof.
  apply (build_aborts_on_non_record fresh_store "/plants" "/sdk" stray_world
           "/plants/b/b.lbw.gz").
  - vm_compute. auto.
  - vm_compute. reflexivity.
  - intros f [<-|[<-|[<-|[]]]] Hne; try (vm_compute; reflexivity).
    now elim Hne.
Defined.

(** ** Output that is no text *)

Lemma merge_result_not_text st outs w :
  json_loads_bytes outs = Raise UnicodeDecodeError ->
  merge_result st outs w = (Raise UnicodeDecodeError, w).
Proof.
  intros H. unfold merge_result, try_catch, mbind, lift. now rewrite H.
Qed.

(** X24: neither does the scheduler contain output that is no text.
    When the worker of one scanned file writes bytes on which
    [json.loads] raises [UnicodeDecodeError], and the other workers
    print records or text that does not decode as JSON, [build] ends
    with [UnicodeDecodeError], which its [except] clause does not
    name, and writes no file: the database file, if there is one,
    keeps its old text. *)
Theorem build_aborts_on_bytes_not_text self models_dir sdk_path w bad :
  In bad (glob w (models_dir ++ "/*/*.lbw.gz")%string) ->
  json_loads_bytes (worker_stdout w bad) = Raise UnicodeDecodeError ->
  (forall f, In f (glob w (models_dir ++ "/*/*.lbw.gz")%string) ->
             f <> bad -> is_other w f = false) ->
  exists w',
    build self models_dir sdk_path w = (Raise UnicodeDecodeError, w') /\
    files w' = files w.
Proof.
  set (files0 := glob w (models_dir ++ "/*/*.lbw.gz")%string).
  intros Hin Hbad Hother.
  rewrite build_unfold. unfold build_entry. fold files0. cbv zeta.
  unfold initialize. destruct (lbw_version_info w) as [[major minor] micro].
  cbn [bs_model_files]. rewrite mbind_run.
  match goal with
  | |- context [build_loop ?fuel ?n ?st0 ?w0] =>
      pose proof (build_loop_files n fuel st0 w0) as Hfiles;
      destruct (build_loop_aborts_on (fun e => e = UnicodeDecodeError)
                  n bad (num_jobs_of_pos _) fuel st0 w0 [] [])
        as [e [w' [Hrun He]]]
  end.
  { unfold pending. simpl. rewrite length_rev. lia. }
  { simpl. intros H. now elim H. }
  { eexists. split; [reflexivity|]. split; reflexivity. }
  { unfold pending. simpl. now apply in_rev in Hin. }
  { intros st0 w0. exists UnicodeDecodeError. split; [|reflexivity].
    now apply merge_result_not_text. }
  { unfold pending. simpl. intros f Hf Hnb. apply Hother; [|exact Hnb].
    now apply in_rev. }
  subst e. rewrite Hrun in Hfiles |- *. exists w'. split; [reflexivity|].
  exact Hfiles.
Qed.

Lemma build_aborts_on_bytes_not_text_witness :
  exists w',
    build fresh_store "/plants" "/sdk" garbled_world
    = (Raise UnicodeDecodeError, w') /\
    files w' = files garbled_world.
Proof.
  apply (build_aborts_on_bytes_not_text fresh_store "/plants" "/sdk"
           garbled_world "/plants/b/b.lbw.gz").
  - vm_compute. auto.
  - vm_compute. reflexivity.
  - intros f [<-|[<-|[<-|[]]]] Hne; try (vm_compute; reflexivity).
    now elim Hne.
Defined.

(** ** The file an error record names *)

Lemma errors_named_app cur a b :
  errors_named cur (a ++ b) =
  errors_named cur a && errors_named (last_parsing cur a) b.
Proof.
  revert cur. induction a as [|r a IH]; intros cur; [reflexivity|].
  destruct r; simpl; rewrite ?IH; try reflexivity.
  now rewrite andb_assoc.
Qed.

Lemma last_parsing_app cur a b :
  last_parsing cur (a ++ b) = last_parsing (last_parsing cur a) b.
Proof.
  revert cur. induction a as [|r a IH]; intros cur; [reflexivity|].
  destruct r; simpl; now rewrite ?IH.
Qed.

Lemma errors_named_parsing cur fs :
  errors_named cur (map DebugParsing fs) = true.
Proof. revert cur. induction fs; simpl; auto. Qed.

Lemma last_parsing_parsing cur fs :
  last_parsing cur (map DebugParsing fs) =
  match rev fs with
  | f :: _ => Some f
  | [] => cur
  end.
Proof.
  revert cur. induction fs as [|f r IH]; intros cur; [reflexivity|].
  simpl. rewrite IH. destruct (rev r) as [|x t] eqn:E; reflexivity.
Qed.

(** What the merge step logs: at most one record, and an error record
    under the name the variable [f] holds. *)
Lemma merge_result_log st outs w :
  exists l,
    snd (merge_result st outs w) = extend w l [] /\
    errors_named (bs_f st) l = true /\
    last_parsing (bs_f st) l = bs_f st.
Proof.
  unfold merge_result, try_catch, mbind, lift, logger, ret.
  destruct_results;
    try (cbn [fst snd];
         first [ rewrite add_log_extend; eexists; split; [reflexivity|];
                 split; reflexivity
               | exists []; rewrite extend_nil; split; [reflexivity|];
                 split; reflexivity ]).
  destruct (bs_f st) as [f|] eqn:Hf; cbn [fst snd].
  - rewrite add_log_extend. eexists. split; [reflexivity|]. simpl.
    rewrite String.eqb_refl. auto.
  - exists []. rewrite extend_nil. auto.
Qed.

Lemma build_loop_log n :
  1 <= n ->
  forall fuel st w,
    exists l,
      log (snd (build_loop fuel n st w)) = log w ++ l /\
      errors_named (bs_f st) l = true.
Proof.
  intros Hn. induction fuel as [|fuel IH]; intros st w.
  - exists []. simpl. now rewrite app_nil_r.
  - destruct (list_eq_dec string_dec (pending st) []) as [Hp|Hp].
    + unfold pending in Hp. apply app_eq_nil in Hp.
      destruct Hp as [Hj Hfl]. apply map_eq_nil in Hj.
      assert (Hf' : bs_model_files st = []).
      { destruct (bs_model_files st) as [|x r]; auto.
        simpl in Hfl. now apply app_eq_nil in Hfl. }
      rewrite (build_loop_done fuel n st w Hf' Hj).
      exists []. simpl. now rewrite app_nil_r.
    + destruct (build_loop_step fuel n st w Hn Hp)
        as [taken [rest [j [js [Hsplit [Hjobs [Hb Hloop]]]]]]].
      rewrite Hloop, mbind_run. clear Hloop.
      match goal with
      | |- context [merge_result ?s ?o ?x] =>
          destruct (merge_result_log s o x) as [lm [Hw [He Hl]]];
          destruct (merge_result_frame s o x) as [_ [_ [_ Hst]]];
          destruct (merge_result s o x) as [[st2|e] w2]
      end; cbn [fst snd bs_f] in *; subst w2.
      * destruct (Hst st2 eq_refl) as [_ [_ Hf2]]. cbn [bs_f] in Hf2.
        destruct (IH st2 (extend
                            (extend w (map DebugParsing taken)
                               (spawn_events
                                  (spawn_jobs (List.length (events w)) taken)
                                ++ [Reap (pid j)])) lm []))
          as [l [Hlog Hnamed]].
        rewrite Hlog. cbn [log extend].
        exists (map DebugParsing taken ++ lm ++ l).
        split; [now rewrite <- !app_assoc|].
        rewrite errors_named_app, errors_named_parsing, last_parsing_parsing.
        rewrite errors_named_app, He, Hl, <- Hf2. exact Hnamed.
      * cbn [log extend]. exists (map DebugParsing taken ++ lm).
        split; [now rewrite <- !app_assoc|].
        rewrite errors_named_app, errors_named_parsing, last_parsing_parsing.
        rewrite He. reflexivity.
Qed.

(** X8: an error record that [build] logs for output that does not
    decode names the file most recently handed to a worker, which is
    what the variable [f] of the scheduler holds when the output is
    merged: in the log [build] writes, every [ErrorJSONDecodeError]
    record carries the file of the closest [DebugParsing] record before
    it. *)
Theorem build_error_names_last_started self models_dir sdk_path w :
  exists l,
    log (snd (build self models_dir sdk_path w)) = log w ++ l /\
    errors_named None l = true.
Proof.
  rewrite build_unfold. unfold build_entry. cbv zeta. rewrite mbind_run.
  match goal with
  | |- context [build_loop ?fuel ?n ?st0 ?x] =>
      destruct (build_loop_log n (num_jobs_of_pos _) fuel st0 x)
        as [l [Hlog Hnamed]];
      destruct (build_loop fuel n st0 x) as [[st|e] w1]
  end; cbn [fst snd log add_log bs_f] in Hlog, Hnamed.
  - unfold mbind, save, write_file, lift, logger, ret.
    destruct (0 <? List.length (bs_model_files st))%nat,
             (0 <? List.length (bs_jobs st))%nat; cbv beta iota;
      unfold mbind;
      destruct (self_db (bs_self st)) as [doc|];
      try destruct (model_count (bs_self st));
      cbn [fst snd log add_log with_files]; rewrite Hlog;
      rewrite <- !app_assoc; eexists; (split; [reflexivity|]);
      cbn [app errors_named]; rewrite ?errors_named_app, Hnamed;
      reflexivity.
  - cbn [snd]. rewrite Hlog, <- app_assoc. eexists. split; [reflexivity|].
    exact Hnamed.
Qed.

(** With two jobs at a time over three files, the worker of the second
    file fails after the first file has been handed out: the error
    record names the first file. *)
Example build_error_names_other_file :
  filter (is_malformed farm_world) farm_files = ["/plants/b/b.lbw.gz"] /\
  log (snd (build fresh_store "/plants" "/sdk" farm_world)) =
  [InfoParsingModels 3 2;
   DebugParsing "/plants/c/c.lbw.gz"; DebugParsing "/plants/b/b.lbw.gz";
   InfoAdded (JStr "/plants/c/c.lbw.gz");
   DebugParsing "/plants/a/a.lbw.gz";
   ErrorJSONDecodeError "/plants/a/a.lbw.gz";
   InfoAdded (JStr "/plants/a/a.lbw.gz");
   InfoProcessed 2 3].
Proof. vm_compute. split; reflexivity. Qed.

(** ** Looking a model up by the path of its file *)

Lemma dict_get_nodup {V} (k : string) (v : V) d :
  NoDup (Dict.keys d) -> In (k, v) d -> Dict.get k d = Some v.
Proof.
  induction d as [|[k1 v1] r IH]; simpl; intros Hnd Hin; [elim Hin|].
  inversion Hnd as [|? ? Hnotin Hnd']; subst.
  destruct Hin as [Heq|Hin].
  - inversion Heq; subst. now rewrite String.eqb_refl.
  - destruct (String.eqb_spec k1 k) as [->|Hne].
    + exfalso. apply Hnotin. unfold Dict.keys.
      change k with (fst (k, v)). now apply in_map.
    + now apply IH.
Qed.

Lemma find_snoc {A} (P : A -> bool) l x :
  find P (l ++ [x]) =
  match find P l with
  | Some y => Some y
  | None => if P x then Some x else None
  end.
Proof.
  induction l as [|a l IH]; simpl; [reflexivity|].
  destruct (P a); auto.
Qed.

Lemma scan_filepath_last ms fp :
  forall l acc,
    (forall kv, In kv l ->
       Dict.get (fst kv) ms = Some (snd kv) /\ has_filepath (snd kv) = true) ->
    scan_filepath (JDict ms) fp (map JStr (Dict.keys l)) acc =
    Ok match find (fun kv => filepath_is fp (snd kv)) (rev l) with
       | Some kv => JStr (fst kv)
       | None => acc
       end.
Proof.
  induction l as [|[k rec] l IH]; intros acc Hl; [reflexivity|].
  destruct (Hl (k, rec) (or_introl eq_refl)) as [Hget Hfp].
  cbn [fst snd] in Hget, Hfp.
  cbn [Dict.keys map scan_filepath py_getitem fst]. rewrite Hget.
  cbn [rbind]. unfold has_filepath in Hfp.
  destruct (py_getitem rec (JStr "filepath")) as [v|] eqn:Ev; [|discriminate].
  cbn [rbind]. change (map JStr (map fst l)) with (map JStr (Dict.keys l)).
  rewrite IH by (intros kv Hin; apply Hl; now right).
  cbn [rev]. rewrite find_snoc. cbn [snd fst].
  destruct (find (fun kv => filepath_is fp (snd kv)) (rev l)); [reflexivity|].
  unfold filepath_is. rewrite Ev. destruct (py_eq_str v fp); reflexivity.
Qed.

(** X9: [get_model] by file path alone, on a store whose model records
    all have a [filepath] entry, finds the model stored last in the
    table among those with that path, and returns its view; it returns
    [None] when no model has the path, and also when the model found is
    stored under the empty name.  A name that is not in the table is
    dropped in favour of the path; the empty name is not: with it the
    call returns [None] whatever the path. *)
Theorem get_model_by_filepath self d ms fp :
  _db self = Some (JDict d) ->
  Dict.get "models" d = Some (JDict ms) ->
  NoDup (Dict.keys ms) ->
  forallb (fun kv => has_filepath (snd kv)) ms = true ->
  fp <> EmptyString ->
  get_model self (Some fp) None =
  match last_with_filepath fp ms with
  | Some n => if (n =? EmptyString)%string then Ok None
              else m <- DBModel_init self (JStr n) ;; Ok (Some m)
  | None => Ok None
  end /\
  (forall n, n <> EmptyString -> Dict.get n ms = None ->
             get_model self (Some fp) (Some n) = get_model self (Some fp) None) /\
  get_model self (Some fp) (Some EmptyString) = Ok None.
Proof.
  intros Hdb Hm Hnd Hall Hfp.
  assert (Ht : truthy_str (Some fp) = true).
  { simpl. destruct (String.eqb_spec fp EmptyString); [now elim Hfp|reflexivity]. }
  assert (Hscan : forall acc,
             scan_filepath (JDict ms) fp (map JStr (Dict.keys ms)) acc =
             Ok match find (fun kv => filepath_is fp (snd kv)) (rev ms) with
                | Some kv => JStr (fst kv)
                | None => acc
                end).
  { intros acc. apply scan_filepath_last. intros [k rec] Hin. split.
    - now apply dict_get_nodup.
    - rewrite forallb_forall in Hall. apply (Hall _ Hin). }
  assert (Hnone : get_model self (Some fp) None =
                  match last_with_filepath fp ms with
                  | Some n => if (n =? EmptyString)%string then Ok None
                              else m <- DBModel_init self (JStr n) ;; Ok (Some m)
                  | None => Ok None
                  end).
  { unfold get_model. cbn [rbind]. rewrite Ht. unfold self_db. rewrite Hdb.
    cbn [rbind py_getitem]. rewrite Hm. cbn [rbind py_iter]. rewrite Hscan.
    cbn [rbind]. unfold last_with_filepath.
    destruct (find (fun kv => filepath_is fp (snd kv)) (rev ms)) as [[n rec]|];
      [|reflexivity].
    cbn [fst py_truthy]. destruct (n =? EmptyString)%string; reflexivity. }
  split; [exact Hnone|]. split; [|reflexivity].
  intros n Hn Hget. rewrite Hnone.
  unfold get_model.
  assert (Htn : truthy_str (Some n) = true).
  { simpl. destruct (String.eqb_spec n EmptyString); [now elim Hn|reflexivity]. }
  rewrite Htn, Ht. unfold self_db. rewrite Hdb.
  cbn [rbind py_getitem]. rewrite Hm.
  cbn [rbind py_contains_str]. unfold Dict.mem. rewrite Hget.
  cbn [negb rbind py_iter]. rewrite Hscan. cbn [rbind].
  unfold last_with_filepath.
  destruct (find (fun kv => filepath_is fp (snd kv)) (rev ms)) as [[k rec]|];
    [|reflexivity].
  cbn [fst py_truthy]. destruct (k =? EmptyString)%string; reflexivity.
Qed.

Lemma get_model_by_filepath_witness :
  get_model
    (store_of (doc_of 2 [] [("oak", model_rec "oak" "young");
                            ("elm", model_rec "elm" "young")]))
    (Some "/plants/oak.lbw.gz") None =
  (m <- DBModel_init
          (store_of (doc_of 2 [] [("oak", model_rec "oak" "young");
                                  ("elm", model_rec "elm" "young")]))
          (JStr "elm") ;; Ok (Some m)) /\
  (forall n, n <> EmptyString ->
             Dict.get n [("oak", model_rec "oak" "young");
                         ("elm", model_rec "elm" "young")] = None ->
             get_model
               (store_of (doc_of 2 [] [("oak", model_rec "oak" "young");
                                       ("elm", model_rec "elm" "young")]))
               (Some "/plants/oak.lbw.gz") (Some n) =
             get_model
               (store_of (doc_of 2 [] [("oak", model_rec "oak" "young");
                                       ("elm", model_rec "elm" "young")]))
               (Some "/plants/oak.lbw.gz") None) /\
  get_model
    (store_of (doc_of 2 [] [("oak", model_rec "oak" "young");
                            ("elm", model_rec "elm" "young")]))
    (Some "/plants/oak.lbw.gz") (Some EmptyString) = Ok None.
Proof.
  apply (get_model_by_filepath
           (store_of (doc_of 2 [] [("oak", model_rec "oak" "young");
                                   ("elm", model_rec "elm" "young")]))
           [("info", JDict [("sdk_version", JStr "1.0.33");
                            ("schema_version", JInt 2)]);
            ("labels", JDict []);
            ("models", JDict [("oak", model_rec "oak" "young");
                              ("elm", model_rec "elm" "young")])]
           [("oak", model_rec "oak" "young"); ("elm", model_rec "elm" "young")]
           "/plants/oak.lbw.gz").
  - reflexivity.
  - reflexivity.
  - repeat constructor; simpl; intuition discriminate.
  - reflexivity.
  - discriminate.
Defined.

(** ** Lookups in the views *)

Lemma py_eq_str_true x n : py_eq_str x n = true <-> x = JStr n.
Proof.
  destruct x; simpl; split; intros H; try discriminate.
  - apply String.eqb_eq in H. now subst.
  - inversion H. apply String.eqb_refl.
Qed.

Lemma find_py_eq_str_in items n :
  In (JStr n) items -> find (fun x => py_eq_str x n) items = Some (JStr n).
Proof.
  induction items as [|x r IH]; intros Hin; [elim Hin|]. simpl.
  destruct (py_eq_str x n) eqn:E.
  - apply py_eq_str_true in E. now subst.
  - destruct Hin as [->|Hin]; [|now apply IH].
    simpl in E. now rewrite String.eqb_refl in E.
Qed.

Lemma find_py_eq_str_notin items n :
  ~ In (JStr n) items -> find (fun x => py_eq_str x n) items = None.
Proof.
  induction items as [|x r IH]; intros Hin; [reflexivity|]. simpl.
  destruct (py_eq_str x n) eqn:E.
  - apply py_eq_str_true in E. subst. exfalso. apply Hin. now left.
  - apply IH. intros H. apply Hin. now right.
Qed.

(** Looking a key up among the views built from a list of keys. *)
Lemma find_mapM {B} (f : json -> result B) (key : B -> json) n l ys :
  mapM f l = Ok ys ->
  (forall x y, f x = Ok y -> key y = x) ->
  match find (fun x => py_eq_str x n) l with
  | Some x => exists y, f x = Ok y /\
                        find (fun y => py_eq_str (key y) n) ys = Some y
  | None => find (fun y => py_eq_str (key y) n) ys = None
  end.
Proof.
  intros Hm Hkey. revert ys Hm.
  induction l as [|x r IH]; intros ys Hm; simpl in Hm.
  - inversion Hm. reflexivity.
  - destruct (f x) as [y|] eqn:Ey; [|discriminate]. cbn [rbind] in Hm.
    destruct (mapM f r) as [ys'|] eqn:Er; [|discriminate].
    cbn [rbind] in Hm. inversion Hm. subst ys. simpl.
    rewrite (Hkey x y Ey).
    destruct (py_eq_str x n); [eauto|]. now apply IH.
Qed.

Lemma DBSeason_init_name db name s :
  DBSeason_init db name = Ok s -> s_name s = name.
Proof.
  unfold DBSeason_init. destruct (get_label db name None); [|discriminate].
  cbn [rbind]. intros H. inversion H. reflexivity.
Qed.

Lemma DBVariant_init_inv db name v_rec preview v :
  DBVariant_init db name v_rec preview = Ok v ->
  v_name v = name /\
  exists ss items ds,
    py_getitem v_rec (JStr "seasons") = Ok ss /\
    py_iter ss = Ok items /\
    mapM (DBSeason_init db) items = Ok (v_seasons v) /\
    py_getitem v_rec (JStr "default_season") = Ok ds /\
    DBSeason_init db ds = Ok (v_default_season v).
Proof.
  unfold DBVariant_init.
  destruct (get_label db name None); [|discriminate]. cbn [rbind].
  destruct (py_getitem v_rec (JStr "seasons")) as [ss|] eqn:E1;
    [|discriminate].
  cbn [rbind]. destruct (py_iter ss) as [items|] eqn:E2; [|discriminate].
  cbn [rbind].
  destruct (mapM (DBSeason_init db) items) as [seasons|] eqn:E3;
    [|discriminate].
  cbn [rbind].
  destruct (py_getitem v_rec (JStr "default_season")) as [ds|] eqn:E4;
    [|discriminate].
  cbn [rbind]. destruct (DBSeason_init db ds) as [s|] eqn:E5; [|discriminate].
  cbn [rbind].
  destruct (py_getitem v_rec (JStr "preview")) as [p|]; [|discriminate].
  cbn [rbind]. intros H. inversion H. cbn. split; [reflexivity|].
  exists ss, items, ds. auto.
Qed.

(** X10: on a Variant view built from a record whose seasons are a
    list, [get_season] with the name of a listed season returns the
    view of that season, the one the constructor of [DBSeason] builds
    for the name; with a name that is not listed, or with none, it
    returns the default season, built from the record's
    [default_season].  It never raises. *)
Theorem get_season_finds db name r items preview v :
  Dict.get "seasons" r = Some (JList items) ->
  DBVariant_init db name (JDict r) preview = Ok v ->
  (forall s, In (JStr s) items ->
             DBSeason_init db (JStr s) = Ok (get_season v (Some s))) /\
  (forall s, ~ In (JStr s) items ->
             get_season v (Some s) = get_season v None) /\
  exists ds,
    Dict.get "default_season" r = Some ds /\
    DBSeason_init db ds = Ok (get_season v None).
Proof.
  intros Hs Hv.
  destruct (DBVariant_init_inv _ _ _ _ _ Hv)
    as [_ [ss [items' [ds [E1 [E2 [E3 [E4 E5]]]]]]]].
  cbn [py_getitem] in E1, E4. rewrite Hs in E1. inversion E1. subst ss.
  cbn [py_iter] in E2. inversion E2. subst items'.
  split; [|split].
  - intros s Hin.
    pose proof (find_mapM (DBSeason_init db) s_name s items (v_seasons v) E3
                  (DBSeason_init_name db)) as Hf.
    rewrite (find_py_eq_str_in _ _ Hin) in Hf.
    destruct Hf as [y [Hy Hfind]]. cbn [get_season]. rewrite Hfind.
    exact Hy.
  - intros s Hnin.
    pose proof (find_mapM (DBSeason_init db) s_name s items (v_seasons v) E3
                  (DBSeason_init_name db)) as Hf.
    rewrite (find_py_eq_str_notin _ _ Hnin) in Hf.
    cbn [get_season]. now rewrite Hf.
  - destruct (Dict.get "default_season" r) as [ds'|]; [|discriminate].
    inversion E4. subst ds'. exists ds. split; [reflexivity|exact E5].
Qed.

Lemma get_season_finds_witness :
  exists v,
    DBVariant_init oak_db (JStr "young") variant_rec (JStr "/plants/oak.png")
    = Ok v /\
    (forall s, In (JStr s) [JStr "summer"] ->
               DBSeason_init oak_db (JStr s) = Ok (get_season v (Some s))) /\
    (forall s, ~ In (JStr s) [JStr "summer"] ->
               get_season v (Some s) = get_season v None) /\
    exists ds,
      Dict.get "default_season"
        [("index", JInt 0); ("seasons", JList [JStr "summer"]);
         ("default_season", JStr "summer"); ("preview", JStr EmptyString)]
      = Some ds /\
      DBSeason_init oak_db ds = Ok (get_season v None).
Proof.
  destruct (DBVariant_init oak_db (JStr "young") variant_rec
              (JStr "/plants/oak.png")) as [v|e] eqn:Hv.
  - exists v. split; [reflexivity|].
    apply (get_season_finds oak_db (JStr "young")
             [("index", JInt 0); ("seasons", JList [JStr "summer"]);
              ("default_season", JStr "summer");
              ("preview", JStr EmptyString)]
             [JStr "summer"] (JStr "/plants/oak.png") v);
      [reflexivity|exact Hv].
  - exfalso. vm_compute in Hv. discriminate Hv.
Defined.

Lemma DBVariant_init_name db name v_rec preview v :
  DBVariant_init db name v_rec preview = Ok v -> v_name v = name.
Proof. intros H. now destruct (DBVariant_init_inv _ _ _ _ _ H). Qed.

Lemma DBModel_init_inv db name m :
  DBModel_init db name = Ok m ->
  m_name m = name /\
  exists d models m_rec preview vs names def_v v_rec,
    self_db db = Ok d /\
    py_getitem d (JStr "models") = Ok models /\
    py_getitem models name = Ok m_rec /\
    py_getitem m_rec (JStr "preview") = Ok preview /\
    py_getitem m_rec (JStr "variants") = Ok vs /\
    py_iter vs = Ok names /\
    mapM (fun v => v_rec <- py_getitem vs v ;;
                   DBVariant_init db v v_rec preview) names
    = Ok (m_variants m) /\
    py_getitem m_rec (JStr "default_variant") = Ok def_v /\
    py_getitem vs def_v = Ok v_rec /\
    DBVariant_init db def_v v_rec preview = Ok (m_default_variant m).
Proof.
  unfold DBModel_init.
  destruct (self_db db) as [d|] eqn:E0; [|discriminate]. cbn [rbind].
  destruct (py_getitem d (JStr "models")) as [models|] eqn:E1; [|discriminate].
  cbn [rbind].
  destruct (py_getitem models name) as [m_rec|] eqn:E2; [|discriminate].
  cbn [rbind].
  destruct (py_getitem m_rec (JStr "md5")) as [md5|]; [|discriminate].
  cbn [rbind].
  destruct (py_getitem m_rec (JStr "filepath")) as [fp|]; [|discriminate].
  cbn [rbind]. destruct (get_label db name None); [|discriminate].
  cbn [rbind].
  destruct (py_getitem m_rec (JStr "preview")) as [preview|] eqn:E3;
    [|discriminate].
  cbn [rbind].
  destruct (py_getitem m_rec (JStr "variants")) as [vs|] eqn:E4;
    [|discriminate].
  cbn [rbind]. destruct (py_iter vs) as [names|] eqn:E5; [|discriminate].
  cbn [rbind].
  match goal with
  | |- context [mapM ?f names] =>
      destruct (mapM f names) as [variants|] eqn:E6; [|discriminate]
  end.
  cbn [rbind].
  destruct (py_getitem m_rec (JStr "default_variant")) as [def_v|] eqn:E7;
    [|discriminate].
  cbn [rbind].
  destruct (py_getitem vs def_v) as [v_rec|] eqn:E8; [|discriminate].
  cbn [rbind].
  destruct (DBVariant_init db def_v v_rec preview) as [dv|] eqn:E9;
    [|discriminate].
  cbn [rbind]. intros H. inversion H. cbn. split; [reflexivity|].
  exists d, models, m_rec, preview, vs, names, def_v, v_rec.
  repeat (split; [first [assumption|reflexivity]|]). assumption.
Qed.

(** X11: on a Model view built from a stored record whose variants are
    a table, [get_variant] with the name of a stored variant returns
    the view of that variant, the one the constructor of [DBVariant]
    builds from its record and the model's preview; with a name that is
    not in the table, or with none, it returns the default variant,
    built from the record [default_variant] names.  It never raises. *)
Theorem get_variant_finds db name r vs m :
  stored_model db name = Ok (JDict r) ->
  Dict.get "variants" r = Some (JDict vs) ->
  DBModel_init db (JStr name) = Ok m ->
  exists preview,
    Dict.get "preview" r = Some preview /\
    (forall n v_rec, Dict.get n vs = Some v_rec ->
       DBVariant_init db (JStr n) v_rec preview = Ok (get_variant m (Some n))) /\
    (forall n, Dict.get n vs = None ->
               get_variant m (Some n) = get_variant m None) /\
    exists dv v_rec,
      Dict.get "default_variant" r = Some (JStr dv) /\
      Dict.get dv vs = Some v_rec /\
      DBVariant_init db (JStr dv) v_rec preview = Ok (get_variant m None).
Proof.
  intros Hs Hvs Hm.
  destruct (DBModel_init_inv _ _ _ Hm)
    as [_ [d [models [m_rec [preview [vs' [names [def_v [v_rec
         [E0 [E1 [E2 [E3 [E4 [E5 [E6 [E7 [E8 E9]]]]]]]]]]]]]]]]]].
  unfold stored_model in Hs. rewrite E0 in Hs. cbn [rbind] in Hs.
  rewrite E1 in Hs. cbn [rbind] in Hs. rewrite E2 in Hs.
  inversion Hs. subst m_rec. cbn [py_getitem] in E3, E4, E7.
  rewrite Hvs in E4. inversion E4. subst vs'.
  cbn [py_iter] in E5. inversion E5. subst names.
  destruct (Dict.get "preview" r) as [p|]; [|discriminate].
  inversion E3. subst p. exists preview. split; [reflexivity|].
  assert (Hkey : forall x y,
             (v_rec0 <- py_getitem (JDict vs) x ;;
              DBVariant_init db x v_rec0 preview) = Ok y -> v_name y = x).
  { intros x y.
    destruct (py_getitem (JDict vs) x) as [vr|]; [|discriminate].
    cbn [rbind]. apply DBVariant_init_name. }
  split; [|split].
  - intros n vr Hget.
    pose proof (find_mapM _ v_name n _ _ E6 Hkey) as Hf.
    rewrite find_py_eq_str_in in Hf.
    2:{ apply in_map. apply dict_get_some_in in Hget.
        unfold Dict.keys. change n with (fst (n, vr)). now apply in_map. }
    destruct Hf as [y [Hy Hfind]]. cbn [get_variant]. rewrite Hfind.
    cbn [py_getitem] in Hy. rewrite Hget in Hy. exact Hy.
  - intros n Hget.
    pose proof (find_mapM _ v_name n _ _ E6 Hkey) as Hf.
    rewrite find_py_eq_str_notin in Hf.
    2:{ intros Hin. apply in_map_iff in Hin. destruct Hin as [k [Hk Hin]].
        inversion Hk. subst k.
        destruct (dict_keys_get _ _ Hin) as [x [Hx _]]. congruence. }
    cbn [get_variant]. now rewrite Hf.
  - destruct (Dict.get "default_variant" r) as [dv|]; [|discriminate].
    inversion E7. subst dv.
    destruct def_v as [| | |dv| |]; cbn [py_getitem] in E8; try discriminate.
    destruct (Dict.get dv vs) as [vr|] eqn:Hdv; [|discriminate].
    inversion E8. subst vr. exists dv, v_rec. auto.
Qed.

Lemma get_variant_finds_witness :
  exists m,
    DBModel_init
      (store_of (doc_of 2 [] [("oak", model_rec "oak" "young")])) (JStr "oak")
    = Ok m /\
    exists preview,
      Dict.get "preview"
        [("name", JStr "oak"); ("filepath", JStr "/plants/oak.lbw.gz");
         ("md5", JStr "d41d8cd98f00b204e9800998ecf8427e");
         ("default_variant", JStr "young");
         ("preview", JStr "/plants/oak.png");
         ("variants", JDict [("young", variant_rec)])] = Some preview /\
      (forall n v_rec, Dict.get n [("young", variant_rec)] = Some v_rec ->
         DBVariant_init
           (store_of (doc_of 2 [] [("oak", model_rec "oak" "young")]))
           (JStr n) v_rec preview = Ok (get_variant m (Some n))) /\
      (forall n, Dict.get n [("young", variant_rec)] = None ->
                 get_variant m (Some n) = get_variant m None) /\
      exists dv v_rec,
        Dict.get "default_variant"
          [("name", JStr "oak"); ("filepath", JStr "/plants/oak.lbw.gz");
           ("md5", JStr "d41d8cd98f00b204e9800998ecf8427e");
           ("default_variant", JStr "young");
           ("preview", JStr "/plants/oak.png");
           ("variants", JDict [("young", variant_rec)])] = Some (JStr dv) /\
        Dict.get dv [("young", variant_rec)] = Some v_rec /\
        DBVariant_init
          (store_of (doc_of 2 [] [("oak", model_rec "oak" "young")]))
          (JStr dv) v_rec preview = Ok (get_variant m None).
Proof.
  destruct (DBModel_init
              (store_of (doc_of 2 [] [("oak", model_rec "oak" "young")]))
              (JStr "oak")) as [m|e] eqn:Hm.
  - exists m. split; [reflexivity|].
    apply (get_variant_finds
             (store_of (doc_of 2 [] [("oak", model_rec "oak" "young")]))
             "oak" _ [("young", variant_rec)] m);
      [reflexivity|reflexivity|exact Hm].
  - exfalso. vm_compute in Hm. discriminate Hm.
Defined.

(** ** Iterating over the store *)

Lemma ascii_compare_lt_trans a b c :
  Ascii.compare a b = Lt -> Ascii.compare b c = Lt -> Ascii.compare a c = Lt.
Proof.
  unfold Ascii.compare. rewrite !N.compare_lt_iff. lia.
Qed.

Lemma string_ltb_trans a : forall b c,
  String.ltb a b = true -> String.ltb b c = true -> String.ltb a c = true.
Proof.
  unfold String.ltb.
  induction a as [|x a IH]; intros [|y b] [|z c]; simpl; try discriminate; auto.
  destruct (Ascii.compare x y) eqn:Exy; try discriminate;
    destruct (Ascii.compare y z) eqn:Eyz; try discriminate; intros H1 H2.
  - apply Ascii.compare_eq_iff in Exy, Eyz. subst.
    assert (Hr : Ascii.compare z z = Eq).
    { unfold Ascii.compare. apply N.compare_refl. }
    rewrite Hr. now apply (IH b c).
  - apply Ascii.compare_eq_iff in Exy. subst. now rewrite Eyz.
  - apply Ascii.compare_eq_iff in Eyz. subst. now rewrite Exy.
  - now rewrite (ascii_compare_lt_trans _ _ _ Exy Eyz).
Qed.

Lemma string_ltb_total a b :
  a <> b -> String.ltb a b = false -> String.ltb b a = true.
Proof.
  unfold String.ltb. intros Hne. rewrite (String.compare_antisym b a).
  destruct (String.compare a b) eqn:E; try discriminate; auto.
  apply String.compare_eq_iff in E. contradiction.
Qed.

Lemma insert_str_perm k l : Permutation (k :: l) (insert_str k l).
Proof.
  induction l as [|y r IH]; simpl; auto.
  destruct (String.ltb k y); auto.
  eapply perm_trans; [apply perm_swap|]. now apply perm_skip.
Qed.

Lemma sort_str_perm_gen l : forall acc,
  Permutation (acc ++ l) (fold_left (fun acc k => insert_str k acc) l acc).
Proof.
  induction l as [|k r IH]; intros acc; simpl.
  - now rewrite app_nil_r.
  - eapply perm_trans; [|apply IH].
    eapply perm_trans; [apply Permutation_sym, Permutation_middle|].
    apply (Permutation_app_tail r (insert_str_perm k acc)).
Qed.

Lemma sort_str_perm l : Permutation l (sort_str l).
Proof. apply (sort_str_perm_gen l []). Qed.

Lemma insert_str_sorted k l :
  ~ In k l ->
  StronglySorted (fun a b => String.ltb a b = true) l ->
  StronglySorted (fun a b => String.ltb a b = true) (insert_str k l).
Proof.
  intros Hnin Hs. induction Hs as [|y r Hs IH Hall]; simpl.
  - repeat constructor.
  - destruct (String.ltb k y) eqn:E.
    + constructor; [now constructor|]. constructor; [exact E|].
      rewrite Forall_forall in *. intros z Hz.
      eapply string_ltb_trans; [exact E|]. now apply Hall.
    + assert (Hyk : String.ltb y k = true).
      { apply string_ltb_total; [|exact E]. intros ->. apply Hnin. now left. }
      constructor.
      * apply IH. intros Hin. apply Hnin. now right.
      * rewrite Forall_forall in *. intros z Hz.
        apply (Permutation_in _ (Permutation_sym (insert_str_perm k r))) in Hz.
        destruct Hz as [<-|Hz]; auto.
Qed.

Lemma sort_str_sorted_gen l : forall acc,
  NoDup (acc ++ l) ->
  StronglySorted (fun a b => String.ltb a b = true) acc ->
  StronglySorted (fun a b => String.ltb a b = true)
    (fold_left (fun acc k => insert_str k acc) l acc).
Proof.
  induction l as [|k r IH]; intros acc Hnd Hs; simpl; [exact Hs|].
  apply IH.
  - eapply Permutation_NoDup; [|exact Hnd].
    eapply perm_trans; [apply Permutation_sym, Permutation_middle|].
    apply (Permutation_app_tail r (insert_str_perm k acc)).
  - apply insert_str_sorted; [|exact Hs].
    apply NoDup_remove_2 in Hnd. intros Hin. apply Hnd.
    apply in_or_app. now left.
Qed.

(** Sorting the items by name sorts their names. *)
Lemma insert_sorted_names x k l ks :
  m_name x = JStr k -> map m_name l = map JStr ks ->
  exists l',
    insert_sorted x l = Ok l' /\
    map m_name l' = map JStr (insert_str k ks) /\
    Permutation (x :: l) l'.
Proof.
  intros Hx. revert ks. induction l as [|y r IH]; intros ks Hl.
  - destruct ks; [|discriminate]. exists [x]. simpl. rewrite Hx. auto.
  - destruct ks as [|k1 ks]; [discriminate|]. simpl in Hl.
    inversion Hl as [[Hy Hr]]. simpl. rewrite Hx, Hy. cbn [py_lt rbind].
    destruct (String.ltb k k1).
    + eexists. split; [reflexivity|]. simpl. rewrite Hx, Hy, Hr. auto.
    + destruct (IH ks Hr) as [l' [Hi [Hn Hp]]]. rewrite Hi. cbn [rbind].
      eexists. split; [reflexivity|]. simpl. rewrite Hy, Hn.
      split; [reflexivity|].
      eapply perm_trans; [apply perm_swap|]. now apply perm_skip.
Qed.

Lemma sort_by_name_names l : forall ks acc aks,
  map m_name l = map JStr ks ->
  map m_name acc = map JStr aks ->
  exists l',
    fold_left (fun acc x => acc <- acc ;; insert_sorted x acc) l (Ok acc)
    = Ok l' /\
    map m_name l' =
    map JStr (fold_left (fun acc k => insert_str k acc) ks aks) /\
    Permutation (acc ++ l) l'.
Proof.
  induction l as [|x r IH]; intros ks acc aks Hl Hacc.
  - destruct ks; [|discriminate]. exists acc. simpl.
    rewrite app_nil_r. auto.
  - destruct ks as [|k ks]; [discriminate|]. simpl in Hl.
    inversion Hl as [[Hx Hr]].
    destruct (insert_sorted_names x k acc aks Hx Hacc) as [a' [Hi [Hn Hp]]].
    cbn [fold_left rbind]. rewrite Hi.
    destruct (IH ks a' (insert_str k aks) Hr Hn) as [l' [Hf [Hn' Hp']]].
    exists l'. split; [exact Hf|]. split; [exact Hn'|].
    eapply perm_trans; [|exact Hp'].
    eapply perm_trans; [apply Permutation_sym, Permutation_middle|].
    apply (Permutation_app_tail r Hp).
Qed.

Lemma DBModel_init_name db name m :
  DBModel_init db name = Ok m -> m_name m = name.
Proof. intros H. now destruct (DBModel_init_inv _ _ _ H). Qed.

Lemma mapM_names {B} (f : json -> result B) (key : B -> json) l ys :
  mapM f l = Ok ys ->
  (forall x y, f x = Ok y -> key y = x) ->
  map key ys = l /\ Forall (fun y => f (key y) = Ok y) ys.
Proof.
  intros Hm Hkey. revert ys Hm.
  induction l as [|x r IH]; intros ys Hm; simpl in Hm.
  - inversion Hm. auto.
  - destruct (f x) as [y|] eqn:Ey; [|discriminate]. cbn [rbind] in Hm.
    destruct (mapM f r) as [ys'|] eqn:Er; [|discriminate].
    cbn [rbind] in Hm. inversion Hm. subst ys.
    destruct (IH ys' eq_refl) as [H1 H2]. simpl.
    rewrite (Hkey x y Ey), H1. split; [reflexivity|].
    constructor; [|exact H2]. now rewrite (Hkey x y Ey).
Qed.

(** The loop over an iterator yields the items from its index on and
    leaves it exhausted. *)
Lemma for_each_from items : forall fuel i,
  List.length items - i < fuel ->
  for_each fuel {| _items := items; _index := i |} =
  Ok (skipn i items,
      {| _items := items; _index := Nat.max i (List.length items) |}).
Proof.
  induction fuel as [|fuel IH]; intros i Hf; [lia|].
  cbn [for_each]. unfold DBIter_next. cbn [_items _index].
  destruct (i <? List.length items)%nat eqn:E.
  - apply Nat.ltb_lt in E.
    destruct (nth_error items i) as [x|] eqn:Ex.
    2:{ apply nth_error_None in Ex. lia. }
    rewrite IH by lia. cbn [rbind fst snd].
    f_equal. f_equal.
    + clear - Ex. revert i Ex. induction items as [|a r IHr]; intros i Ex.
      * destruct i; discriminate.
      * destruct i as [|i]; simpl in *.
        -- inversion Ex. reflexivity.
        -- now apply IHr.
    + f_equal. lia.
  - apply Nat.ltb_ge in E. rewrite skipn_all2 by lia.
    f_equal. f_equal. f_equal. lia.
Qed.

Lemma models_views db d ms :
  _db db = Some (JDict d) ->
  Dict.get "models" d = Some (JDict ms) ->
  labels_ok db = true ->
  forallb (fun kv => model_rec_ok (snd kv)) ms = true ->
  forall k m_rec, Dict.get k ms = Some m_rec ->
    if default_variant_present m_rec
    then exists m, DBModel_init db (JStr k) = Ok m
    else DBModel_init db (JStr k) = Raise KeyError.
Proof.
  intros Hdb Hm Hl Hall k m_rec Hget.
  apply DBModel_init_cases; auto.
  - unfold stored_model, self_db. rewrite Hdb. cbn [rbind py_getitem].
    rewrite Hm. cbn [rbind py_getitem]. now rewrite Hget.
  - rewrite forallb_forall in Hall.
    apply (Hall _ (dict_get_some_in _ _ _ Hget)).
Qed.

(** X12: iterating over a store whose model records are all sound (a
    label table of locale mappings, Model records with their fields,
    every default variant among the variants) yields one view per stored
    model, each the view [DBModel] builds for its name, in ascending
    order of the names compared code point by code point; the loop ends
    after as many items as [model_count] reports, and the exhausted
    iterator keeps answering [StopIteration]. *)
Theorem iterate_sorted db d ms :
  _db db = Some (JDict d) ->
  Dict.get "models" d = Some (JDict ms) ->
  labels_ok db = true ->
  NoDup (Dict.keys ms) ->
  forallb (fun kv => model_rec_ok (snd kv) && default_variant_present (snd kv))
    ms = true ->
  exists it items it' names,
    ThicketDB_iter db = Ok it /\
    for_each (S (List.length ms)) it = Ok (items, it') /\
    DBIter_next it' = None /\
    model_count db = Ok (List.length items) /\
    Forall (fun m => DBModel_init db (m_name m) = Ok m) items /\
    map m_name items = map JStr names /\
    Permutation names (Dict.keys ms) /\
    StronglySorted (fun a b => String.ltb a b = true) names.
Proof.
  intros Hdb Hm Hl Hnd Hall.
  assert (Hrec : forallb (fun kv => model_rec_ok (snd kv)) ms = true).
  { rewrite forallb_forall in *. intros kv Hin.
    specialize (Hall kv Hin). now apply andb_true_iff in Hall. }
  destruct (mapM_ok (DBModel_init db) (map JStr (Dict.keys ms)))
    as [items0 Hitems0].
  { intros x Hx. apply in_map_iff in Hx. destruct Hx as [k [<- Hk]].
    destruct (dict_keys_get _ _ Hk) as [m_rec [Hget Hin]].
    pose proof (models_views db d ms Hdb Hm Hl Hrec k m_rec Hget) as Hc.
    rewrite forallb_forall in Hall. specialize (Hall _ Hin).
    apply andb_true_iff in Hall. destruct Hall as [_ Hp].
    cbn [snd] in Hp. now rewrite Hp in Hc. }
  destruct (mapM_names _ m_name _ _ Hitems0 (DBModel_init_name db))
    as [Hnames0 Hviews0].
  destruct (sort_by_name_names items0 (Dict.keys ms) [] [] Hnames0 eq_refl)
    as [items [Hsort [Hnames Hperm]]].
  cbn [app] in Hperm.
  assert (Hlen : List.length items = List.length ms).
  { rewrite <- (Permutation_length Hperm).
    rewrite <- (length_map m_name), Hnames0. unfold Dict.keys.
    now rewrite !length_map. }
  exists {| _items := items; _index := 0 |}, items,
    {| _items := items; _index := Nat.max 0 (List.length items) |},
    (sort_str (Dict.keys ms)).
  split.
  { unfold ThicketDB_iter, DBIter_init, self_db. rewrite Hdb.
    cbn [rbind py_getitem]. rewrite Hm. cbn [rbind py_iter].
    rewrite Hitems0. cbn [rbind]. unfold sort_by_name. rewrite Hsort.
    reflexivity. }
  split.
  { rewrite for_each_from by lia. reflexivity. }
  split.
  { unfold DBIter_next. cbn [_items _index].
    rewrite (proj2 (Nat.ltb_ge _ _)) by lia. reflexivity. }
  split.
  { unfold model_count, self_db. rewrite Hdb. cbn [rbind py_getitem].
    rewrite Hm. cbn [rbind py_len]. now rewrite Hlen. }
  split.
  { rewrite Forall_forall in *. intros m Hin. apply Hviews0.
    apply (Permutation_in _ (Permutation_sym Hperm) Hin). }
  split; [exact Hnames|]. split.
  - apply Permutation_sym, sort_str_perm.
  - apply sort_str_sorted_gen; [exact Hnd|constructor].
Qed.

Lemma iterate_sorted_witness :
  exists it items it' names,
    ThicketDB_iter
      (store_of (doc_of 2 [] [("oak", model_rec "oak" "young");
                              ("elm", model_rec "elm" "young")])) = Ok it /\
    for_each 3 it = Ok (items, it') /\
    DBIter_next it' = None /\
    model_count
      (store_of (doc_of 2 [] [("oak", model_rec "oak" "young");
                              ("elm", model_rec "elm" "young")]))
    = Ok (List.length items) /\
    Forall (fun m =>
              DBModel_init
                (store_of (doc_of 2 [] [("oak", model_rec "oak" "young");
                                        ("elm", model_rec "elm" "young")]))
                (m_name m) = Ok m) items /\
    map m_name items = map JStr names /\
    Permutation names ["oak"; "elm"] /\
    StronglySorted (fun a b => String.ltb a b = true) names.
Proof.
  apply (iterate_sorted
           (store_of (doc_of 2 [] [("oak", model_rec "oak" "young");
                                   ("elm", model_rec "elm" "young")]))
           [("info", JDict [("sdk_version", JStr "1.0.33");
                            ("schema_version", JInt 2)]);
            ("labels", JDict []);
            ("models", JDict [("oak", model_rec "oak" "young");
                              ("elm", model_rec "elm" "young")])]
           [("oak", model_rec "oak" "young"); ("elm", model_rec "elm" "young")]).
  - reflexivity.
  - reflexivity.
  - reflexivity.
  - repeat constructor; simpl; intuition discriminate.
  - reflexivity.
Defined.

Lemma mapM_raise {A B} (f : A -> result B) e l :
  (forall x, In x l -> (exists y, f x = Ok y) \/ f x = Raise e) ->
  (exists x, In x l /\ f x = Raise e) ->
  mapM f l = Raise e.
Proof.
  induction l as [|x r IH]; intros Hall [z [Hin Hz]]; [elim Hin|].
  simpl. destruct (Hall x (or_introl eq_refl)) as [[y Hy]|Hx].
  - rewrite Hy. cbn [rbind]. rewrite IH; [reflexivity| |].
    + intros x' Hx'. apply Hall. now right.
    + destruct Hin as [->|Hin]; [congruence|]. eauto.
  - now rewrite Hx.
Qed.

(** X13: on a store whose label table maps keys to locale mappings and
    whose Model records all have their fields, one record whose default
    variant is not among its variants makes the whole store impossible
    to iterate: the iterator builds every view before it yields the
    first, so [__iter__] raises [KeyError] and no model is yielded, the
    sound ones included. *)
Theorem iterate_fails_on_broken_record db d ms :
  _db db = Some (JDict d) ->
  Dict.get "models" d = Some (JDict ms) ->
  labels_ok db = true ->
  NoDup (Dict.keys ms) ->
  forallb (fun kv => model_rec_ok (snd kv)) ms = true ->
  existsb (fun kv => negb (default_variant_present (snd kv))) ms = true ->
  ThicketDB_iter db = Raise KeyError.
Proof.
  intros Hdb Hm Hl Hnd Hrec Hbad.
  unfold ThicketDB_iter, DBIter_init, self_db. rewrite Hdb.
  cbn [rbind py_getitem]. rewrite Hm. cbn [rbind py_iter].
  rewrite (mapM_raise (DBModel_init db) KeyError); [reflexivity| |].
  - intros x Hx. apply in_map_iff in Hx. destruct Hx as [k [<- Hk]].
    destruct (dict_keys_get _ _ Hk) as [m_rec [Hget _]].
    pose proof (models_views db d ms Hdb Hm Hl Hrec k m_rec Hget) as Hc.
    destruct (default_variant_present m_rec); auto.
  - apply existsb_exists in Hbad. destruct Hbad as [[k m_rec] [Hin Hp]].
    cbn [snd] in Hp. apply negb_true_iff in Hp.
    exists (JStr k). split.
    + apply in_map. unfold Dict.keys. change k with (fst (k, m_rec)).
      now apply in_map.
    + pose proof (models_views db d ms Hdb Hm Hl Hrec k m_rec
                    (dict_get_nodup _ _ _ Hnd Hin)) as Hc.
      now rewrite Hp in Hc.
Qed.

Lemma iterate_fails_on_broken_record_witness :
  ThicketDB_iter
    (store_of (doc_of 2 [] [("oak", model_rec "oak" "young");
                            ("elm", model_rec "elm" "old")]))
  = Raise KeyError.
Proof.
  apply (iterate_fails_on_broken_record
           (store_of (doc_of 2 [] [("oak", model_rec "oak" "young");
                                   ("elm", model_rec "elm" "old")]))
           [("info", JDict [("sdk_version", JStr "1.0.33");
                            ("schema_version", JInt 2)]);
            ("labels", JDict []);
            ("models", JDict [("oak", model_rec "oak" "young");
                              ("elm", model_rec "elm" "old")])]
           [("oak", model_rec "oak" "young"); ("elm", model_rec "elm" "old")]).
  - reflexivity.
  - reflexivity.
  - reflexivity.
  - repeat constructor; simpl; intuition discriminate.
  - reflexivity.
  - reflexivity.
Defined.

(** ** [md5sum] *)

Lemma string_app_nil s : (s ++ EmptyString)%string = s.
Proof. induction s; simpl; congruence. Qed.

Lemma string_app_assoc a b c :
  ((a ++ b) ++ c)%string = (a ++ (b ++ c))%string.
Proof. induction a; simpl; congruence. Qed.

Lemma read_block_split size : forall rest,
  (fst (read_block size rest) ++ snd (read_block size rest))%string = rest.
Proof.
  induction size as [|n IH]; intros [|c r]; try reflexivity.
  simpl. specialize (IH r). destruct (read_block n r). simpl in *.
  congruence.
Qed.

Lemma read_block_empty size rest :
  1 <= size -> fst (read_block size rest) = EmptyString ->
  rest = EmptyString.
Proof.
  destruct size as [|n]; [lia|]. destruct rest as [|c r]; [reflexivity|].
  simpl. destruct (read_block n r). discriminate.
Qed.

Lemma string_length_app a b :
  String.length (a ++ b) = String.length a + String.length b.
Proof. induction a; simpl; congruence. Qed.

(** The loop feeds the hash the block in hand and all that is left of
    the file. *)
Lemma md5sum_loop_feeds size :
  1 <= size ->
  forall fuel md5 buf rest,
    String.length buf + String.length rest < fuel ->
    (buf = EmptyString -> rest = EmptyString) ->
    md5sum_loop size fuel md5 buf rest = Ok (md5 ++ (buf ++ rest))%string.
Proof.
  intros Hsize. induction fuel as [|fuel IH]; intros md5 buf rest Hf He;
    [lia|].
  cbn [md5sum_loop].
  destruct (String.eqb_spec buf EmptyString) as [->|Hne]; cbn [negb].
  - rewrite (He eq_refl). simpl. now rewrite string_app_nil.
  - pose proof (read_block_split size rest) as Hs.
    pose proof (read_block_empty size rest Hsize) as Hemp.
    destruct (read_block size rest) as [buf' rest']. cbn [fst snd] in *.
    rewrite IH.
    + now rewrite string_app_assoc, Hs.
    + rewrite <- Hs, string_length_app in Hf.
      destruct buf; [now elim Hne|]. simpl in Hf. lia.
    + intros Hb. rewrite (Hemp Hb), Hb in Hs. simpl in Hs. exact Hs.
Qed.

(** X14: [md5sum] returns the digest of the whole content of the file,
    whatever its length, although it reads the file 4096 bytes at a
    time: an empty file gives the digest of no bytes, a file that is
    missing raises [FileNotFoundError]; nothing is written or logged. *)
Theorem md5sum_whole_file hexdigest filename w :
  md5sum hexdigest filename w =
  match Dict.get filename (files w) with
  | Some content => (Ok (hexdigest content), w)
  | None => (Raise FileNotFoundError, w)
  end.
Proof.
  unfold md5sum. rewrite mbind_run. unfold read_file.
  destruct (Dict.get filename (files w)) as [content|]; [|reflexivity].
  pose proof (read_block_split 4096 content) as Hs.
  pose proof (read_block_empty 4096 content) as Hemp.
  destruct (read_block 4096 content) as [buf rest]. cbn [fst snd] in *.
  rewrite mbind_run. unfold lift.
  rewrite md5sum_loop_feeds.
  - unfold ret. cbn [String.append]. now rewrite Hs.
  - apply Nat.leb_le. reflexivity.
  - rewrite <- Hs, string_length_app. lia.
  - intros Hb. rewrite Hb in Hs. cbn [String.append] in Hs.
    rewrite Hs. apply Hemp; [apply Nat.leb_le; reflexivity|exact Hb].
Qed.

(** ** What a worker prints is what the coordinator decodes *)

Lemma scanstring_escape_char_ascii c tail :
  scanstring (escape_char_ascii c ++ tail) = pcons c (scanstring tail).
Proof.
  destruct c as [[] [] [] [] [] [] [] []]; reflexivity.
Qed.

Lemma scanstring_encode_ascii s rest :
  scanstring (flat_map escape_char_ascii (list_ascii_of_string s)
              ++ dquote :: rest) = POk s rest.
Proof.
  induction s as [|c s IH].
  - reflexivity.
  - cbn [list_ascii_of_string flat_map]. rewrite <- app_assoc.
    rewrite scanstring_escape_char_ascii, IH. reflexivity.
Qed.

Lemma scanstring_basestring_ascii k t :
  exists body,
    encode_basestring_ascii k ++ t = dquote :: body /\
    scanstring body = POk k t.
Proof.
  exists (flat_map escape_char_ascii (list_ascii_of_string k) ++ dquote :: t).
  split.
  - unfold encode_basestring_ascii. cbn [app]. now rewrite <- app_assoc.
  - apply scanstring_encode_ascii.
Qed.

Lemma dump_compact_head v :
  exists c r, dump_compact v = c :: r /\ value_start c = true.
Proof.
  destruct v as [|[]|z|s|[|x xs]|[|[k x] xs]];
    try (do 2 eexists; split; reflexivity).
  destruct (dump_int_head z) as [c [r [Hz Hc]]].
  exists c, r. split; [exact Hz | now apply digit_value_start].
Qed.

Lemma skip_ws_dump_compact v s :
  skip_ws (dump_compact v ++ s) = dump_compact v ++ s.
Proof.
  destruct (dump_compact_head v) as [c [r [Hd Hc]]]. rewrite Hd. simpl.
  unfold value_start in Hc. destruct (is_ws c); [discriminate|reflexivity].
Qed.

Lemma dump_compact_list_cons x xs :
  dump_compact (JList (x :: xs)) =
  "["%char :: dump_compact x ++ compact_items xs ++ ["]"%char].
Proof. reflexivity. Qed.

Lemma dump_compact_dict_cons k x xs :
  dump_compact (JDict ((k, x) :: xs)) =
  "{"%char :: encode_basestring_ascii k
  ++ ":"%char :: " "%char :: dump_compact x ++ compact_members xs
  ++ ["}"%char].
Proof. reflexivity. Qed.

Lemma compact_items_cons y ys :
  compact_items (y :: ys) =
  ","%char :: " "%char :: dump_compact y ++ compact_items ys.
Proof.
  unfold compact_items. cbn [map List.concat lit list_ascii_of_string app].
  rewrite <- ?app_assoc. reflexivity.
Qed.

Lemma compact_members_cons k y ys :
  compact_members ((k, y) :: ys) =
  ","%char :: " "%char :: encode_basestring_ascii k
  ++ ":"%char :: " "%char :: dump_compact y ++ compact_members ys.
Proof.
  unfold compact_members.
  cbn [map List.concat lit list_ascii_of_string app fst snd].
  rewrite <- ?app_assoc. reflexivity.
Qed.

Lemma dump_compact_int z : dump_compact (JInt z) = dump_int z.
Proof. reflexivity. Qed.

Lemma dump_compact_str s : dump_compact (JStr s) = encode_basestring_ascii s.
Proof. reflexivity. Qed.

Opaque dump_compact encode_basestring_ascii compact_items compact_members.

Lemma parse_elements_compact rest :
  forall xs x m,
    Forall scans_back_compact (x :: xs) ->
    forallb json_wf (x :: xs) = true ->
    list_sum (map (fun x => S (fsize x)) (x :: xs)) <= m ->
    parse_elements m (dump_compact x ++ compact_items xs ++ "]"%char :: rest)
    = POk (x :: xs) rest.
Proof.
  induction xs as [|y ys IH]; intros x m HF Hwf Hm;
    (destruct m as [|m]; [simpl in Hm; lia|]);
    inversion HF as [|? ? Hx HF']; subst;
    cbn [forallb] in Hwf; apply andb_true_iff in Hwf; destruct Hwf as [Hwx Hwf];
    cbn [map list_sum fold_right] in Hm; cbn [parse_elements].
  - change (compact_items []) with (@nil ascii). cbn [app].
    rewrite (Hx Hwx _ m); [|reflexivity|lia]. reflexivity.
  - rewrite compact_items_cons. cbn [app].
    rewrite (Hx Hwx _ m); [|reflexivity|lia].
    cbn [pbind skip_ws]. cbn. rewrite <- ?app_assoc.
    rewrite skip_ws_dump_compact.
    rewrite (IH y m HF' Hwf); [reflexivity|].
    cbn [map list_sum fold_right]. lia.
Qed.

Lemma parse_members_key_ascii m k t :
  parse_members (S m) (encode_basestring_ascii k ++ t) =
  match skip_ws t with
  | c :: r1 =>
      if Ascii.eqb c ":" then
        pbind (scan_once m (skip_ws r1)) (fun v rest2 =>
          match skip_ws rest2 with
          | c2 :: r3 =>
              if Ascii.eqb c2 "," then
                pbind (parse_members m (skip_ws r3))
                  (fun ps rest3 => POk ((k, v) :: ps) rest3)
              else if Ascii.eqb c2 "}" then POk [(k, v)] r3
              else PErr
          | [] => PErr
          end)
      else PErr
  | [] => PErr
  end.
Proof.
  destruct (scanstring_basestring_ascii k t) as [body [Hb Hs]]. rewrite Hb.
  cbn [parse_members]. rewrite Ascii.eqb_refl, Hs. reflexivity.
Qed.

Lemma parse_members_compact rest :
  forall xs k x m,
    Forall (fun kv => scans_back_compact (snd kv)) ((k, x) :: xs) ->
    forallb (fun kv => json_wf (snd kv)) ((k, x) :: xs) = true ->
    list_sum (map (fun kv => S (fsize (snd kv))) ((k, x) :: xs)) <= m ->
    parse_members m (encode_basestring_ascii k
                     ++ ":"%char :: " "%char :: dump_compact x
                     ++ compact_members xs ++ "}"%char :: rest)
    = POk ((k, x) :: xs) rest.
Proof.
  induction xs as [|[k' y] ys IH]; intros k x m HF Hwf Hm;
    (destruct m as [|m]; [simpl in Hm; lia|]);
    inversion HF as [|? ? Hx HF']; subst;
    cbn [forallb snd] in Hwf; apply andb_true_iff in Hwf;
    destruct Hwf as [Hwx Hwf];
    cbn [map list_sum fold_right snd] in Hm, Hx;
    rewrite parse_members_key_ascii;
    cbn [lit list_ascii_of_string app]; cbn; rewrite skip_ws_dump_compact.
  - change (compact_members []) with (@nil ascii). cbn [app].
    rewrite (Hx Hwx _ m); [|reflexivity|lia]. reflexivity.
  - rewrite compact_members_cons. cbn [app].
    rewrite (Hx Hwx _ m); [|reflexivity|lia].
    cbn [pbind skip_ws]. cbn. rewrite <- ?app_assoc.
    assert (Hq : forall t, skip_ws (encode_basestring_ascii k' ++ t)
                           = encode_basestring_ascii k' ++ t).
    { intros t. destruct (scanstring_basestring_ascii k' t) as [body [Hb _]].
      rewrite Hb. reflexivity. }
    rewrite Hq. cbn [app]. rewrite <- ?app_assoc.
    rewrite (IH k' y m HF' Hwf); [reflexivity|].
    cbn [map list_sum fold_right snd]. lia.
Qed.

(** Scanning what [dump_compact] printed for a well-formed value returns
    the value and the text after it. *)
Lemma scan_once_dump_compact v : scans_back_compact v.
Proof.
  induction v as [|b|z|s|l IHl|d IHd] using json_ind2;
    intros Hwf rest fuel Hrest Hfuel;
    (destruct fuel as [|n]; [simpl in Hfuel; lia|]).
  - reflexivity.
  - destruct b; reflexivity.
  - rewrite dump_compact_int.
    destruct (dump_int_head z) as [c [r [Hz Hc]]].
    pose proof (scan_number_dump_int z rest Hrest) as Hn.
    rewrite Hz in *. cbn [app] in *.
    rewrite (scan_once_number n c _ Hc). exact Hn.
  - rewrite dump_compact_str.
    destruct (scanstring_basestring_ascii s rest) as [body [Hb Hs]].
    rewrite Hb.
    cbn [scan_once]. change (Ascii.eqb dquote dquote) with true.
    cbv beta iota. rewrite Hs. reflexivity.
  - destruct l as [|x xs]; [reflexivity|].
    rewrite dump_compact_list_cons. norm_text.
    rewrite scan_once_list.
    + rewrite skip_ws_dump_compact.
      cbn [json_wf] in Hwf. cbn [fsize] in Hfuel.
      rewrite (parse_elements_compact rest xs x n IHl Hwf); [reflexivity|].
      lia.
    + rewrite skip_ws_dump_compact.
      destruct (dump_compact_head x) as [c [r [Hd Hc]]]. rewrite Hd.
      cbn [app]. eauto.
  - destruct d as [|[k x] xs]; [reflexivity|].
    rewrite dump_compact_dict_cons. norm_text.
    destruct (scanstring_basestring_ascii k
                (":"%char :: " "%char :: dump_compact x
                 ++ compact_members xs ++ "}"%char :: rest))
      as [body [Hb _]].
    cbn [json_wf] in Hwf. apply andb_true_iff in Hwf.
    destruct Hwf as [Hnd Hwf]. cbn [fsize] in Hfuel.
    rewrite (scan_once_dict n _ body).
    + rewrite Hb. cbn [skip_ws].
      change (is_ws dquote) with false. cbv beta iota. rewrite <- Hb.
      rewrite (parse_members_compact rest xs k x n IHd Hwf); [|lia].
      cbn [pbind]. now rewrite of_pairs_nodup.
    + rewrite Hb. reflexivity.
Qed.

Transparent dump_compact encode_basestring_ascii compact_items compact_members.

Lemma fsize_dump_compact v : fsize v <= 2 * List.length (dump_compact v).
Proof.
  induction v as [|b|z|s|l IHl|d IHd] using json_ind2.
  - simpl. lia.
  - destruct b; simpl; lia.
  - destruct (dump_compact_head (JInt z)) as [c [r [Hd _]]]. rewrite Hd.
    simpl. lia.
  - destruct (dump_compact_head (JStr s)) as [c [r [Hd _]]]. rewrite Hd.
    simpl. lia.
  - destruct l as [|x xs]; [simpl; lia|].
    rewrite dump_compact_list_cons. cbn [fsize List.length].
    rewrite !length_app.
    assert (Hitems : forall ys,
              Forall (fun v => fsize v <= 2 * List.length (dump_compact v)) ys ->
              list_sum (map (fun x => S (fsize x)) ys)
              <= 2 * List.length (compact_items ys)).
    { induction ys as [|y ys IHys]; intros HF; [simpl; lia|].
      inversion HF as [|? ? Hy HF']; subst.
      rewrite compact_items_cons. cbn [map list_sum fold_right List.length].
      rewrite !length_app. specialize (IHys HF').
      unfold list_sum in IHys. lia. }
    inversion IHl as [|? ? Hx HF]; subst.
    specialize (Hitems xs HF).
    cbn [map list_sum fold_right]. unfold list_sum in Hitems.
    simpl List.length. lia.
  - destruct d as [|[k x] xs]; [simpl; lia|].
    rewrite dump_compact_dict_cons. cbn [fsize List.length].
    rewrite !length_app.
    assert (Hitems : forall ys,
              Forall (fun kv => fsize (snd kv)
                                <= 2 * List.length (dump_compact (snd kv))) ys ->
              list_sum (map (fun kv => S (fsize (snd kv))) ys)
              <= 2 * List.length (compact_members ys)).
    { induction ys as [|[k' y] ys IHys]; intros HF; [simpl; lia|].
      inversion HF as [|? ? Hy HF']; subst.
      rewrite compact_members_cons.
      cbn [map list_sum fold_right List.length snd].
      rewrite !length_app. cbn [List.length]. rewrite !length_app.
      specialize (IHys HF'). cbn [snd] in Hy. unfold list_sum in IHys. lia. }
    inversion IHd as [|? ? Hx HF]; subst.
    specialize (Hitems xs HF). cbn [snd] in Hx.
    cbn [map list_sum fold_right snd]. unfold list_sum in Hitems.
    cbn [List.length]. rewrite !length_app. simpl List.length. lia.
Qed.

(** [json.loads] inverts [print(json.dumps(...))] on values whose dicts
    have distinct keys. *)
Lemma json_loads_print_json v :
  json_wf v = true -> json_loads (print_json v) = Ok v.
Proof.
  intros Hwf. unfold json_loads, print_json.
  rewrite list_ascii_of_string_of_list_ascii, skip_ws_dump_compact.
  rewrite (scan_once_dump_compact v Hwf ["010"%char]); [reflexivity|reflexivity|].
  unfold scan_fuel. rewrite length_app.
  pose proof (fsize_dump_compact v). lia.
Qed.

(** What [json.dumps] prints are ASCII characters, which [json.loads]
    takes for UTF-8 and decodes to themselves. *)
Lemma utf8_decode_plain s :
  forallb is_plain (list_ascii_of_string s) = true -> utf8_decode s = DText s.
Proof.
  induction s as [|c r IH]; [reflexivity|].
  cbn [list_ascii_of_string forallb]. intros H.
  apply andb_true_iff in H. destruct H as [Hc Hr].
  unfold is_plain in Hc. apply andb_true_iff in Hc. destruct Hc as [_ Hc].
  cbn [utf8_decode]. rewrite Hc, (IH Hr). reflexivity.
Qed.

Lemma is_plain_not_byte c n :
  is_plain c = true -> (n = 0 \/ 128 <= n)%N -> byte_is n c = false.
Proof.
  unfold is_plain, byte_is. intros H Hn.
  apply andb_true_iff in H. destruct H as [H0 H1].
  apply N.ltb_lt in H0, H1. apply N.eqb_neq. lia.
Qed.

Lemma detect_encoding_plain s :
  forallb is_plain (list_ascii_of_string s) = true -> detect_encoding s = utf_8.
Proof.
  intros H. unfold detect_encoding.
  destruct s as [|b0 s]; [reflexivity|].
  cbn [list_ascii_of_string forallb] in H.
  apply andb_true_iff in H. destruct H as [H0 H].
  cbn [bytes_start].
  rewrite (is_plain_not_byte b0 0), (is_plain_not_byte b0 255),
    (is_plain_not_byte b0 254), (is_plain_not_byte b0 239)
    by (auto; right; lia).
  cbn [andb orb].
  assert (Hz : forall c, is_plain c = true -> is_nul c = false).
  { intros c Hc. apply (is_plain_not_byte c 0 Hc). now left. }
  rewrite (Hz b0 H0).
  destruct s as [|b1 s]; [reflexivity|].
  cbn [list_ascii_of_string forallb] in H.
  apply andb_true_iff in H. destruct H as [H1 H].
  rewrite (Hz b1 H1).
  destruct s as [|b2 [|b3 s]]; reflexivity.
Qed.

Lemma bytes_decode_plain s :
  forallb is_plain (list_ascii_of_string s) = true -> bytes_decode s = Ok s.
Proof.
  intros H. unfold bytes_decode, decode_utf8.
  now rewrite (detect_encoding_plain s H), (utf8_decode_plain s H).
Qed.

Lemma forallb_lit_plain s :
  forallb is_plain (list_ascii_of_string s) = true ->
  forallb is_plain (lit s) = true.
Proof. auto. Qed.

Lemma hex_digit_plain n : (n < 16)%N -> is_plain (hex_digit n) = true.
Proof.
  intros H. unfold hex_digit, is_plain.
  destruct (n <? 10)%N eqn:E; rewrite N_ascii_embedding by lia;
    apply andb_true_iff; split; apply N.ltb_lt; lia.
Qed.

Lemma escape_char_ascii_plain c :
  forallb is_plain (escape_char_ascii c) = true.
Proof.
  unfold escape_char_ascii.
  repeat match goal with
         | |- context [if Ascii.eqb c ?x then _ else _] =>
             destruct (Ascii.eqb c x); [reflexivity|]
         end.
  destruct ((N_of_ascii c <? 32) || (126 <? N_of_ascii c))%N eqn:E.
  - rewrite forallb_app. cbn [forallb]. 
    pose proof (N_ascii_bounded c) as Hb.
    rewrite !hex_digit_plain; [reflexivity| |].
    + apply N.mod_lt. discriminate.
    + apply N.Div0.div_lt_upper_bound. lia.
  - cbn [forallb]. rewrite andb_true_r.
    apply orb_false_iff in E. destruct E as [E1 E2].
    apply N.ltb_ge in E1, E2. unfold is_plain.
    apply andb_true_iff; split; apply N.ltb_lt; lia.
Qed.

Lemma encode_basestring_ascii_plain s :
  forallb is_plain (encode_basestring_ascii s) = true.
Proof.
  unfold encode_basestring_ascii. cbn [forallb]. rewrite forallb_app.
  cbn [forallb andb]. rewrite andb_true_r.
  induction (list_ascii_of_string s) as [|c r IH]; [reflexivity|].
  cbn [flat_map]. rewrite forallb_app, escape_char_ascii_plain. exact IH.
Qed.

Lemma dump_int_plain z : forallb is_plain (dump_int z) = true.
Proof.
  unfold dump_int, lit. 
  assert (Hu : forall u, forallb is_plain
                 (list_ascii_of_string (NilEmpty.string_of_uint u)) = true).
  { induction u; cbn; auto. }
  assert (Hz : forall u, forallb is_plain
                 (list_ascii_of_string (NilZero.string_of_uint u)) = true).
  { intros u. destruct u; cbn; auto; apply (Hu (_ u)) || apply Hu. }
  destruct (Z.to_int z) as [u|u]; cbn [NilZero.string_of_int].
  - apply Hz.
  - cbn [list_ascii_of_string forallb]. rewrite Hz. reflexivity.
Qed.

Lemma concat_map_plain {A} (f : A -> text) (l : list A) :
  Forall (fun x => forallb is_plain (f x) = true) l ->
  forallb is_plain (List.concat (map f l)) = true.
Proof.
  induction 1 as [|x r Hx _ IH]; [reflexivity|].
  cbn [map List.concat]. now rewrite forallb_app, Hx, IH.
Qed.

Lemma dump_compact_plain v : forallb is_plain (dump_compact v) = true.
Proof.
  induction v as [|b|z|s|l IHl|d IHd] using json_ind2.
  - reflexivity.
  - destruct b; reflexivity.
  - apply dump_int_plain.
  - apply encode_basestring_ascii_plain.
  - destruct l as [|x xs]; [reflexivity|].
    cbn [dump_compact]. rewrite !forallb_app.
    inversion IHl as [|? ? Hx Hxs]; subst.
    rewrite Hx, concat_map_plain; [reflexivity|].
    eapply Forall_impl; [|exact Hxs].
    intros y Hy. cbv beta in Hy |- *. now rewrite forallb_app, Hy.
  - destruct d as [|[k x] xs]; [reflexivity|].
    cbn [dump_compact]. rewrite !forallb_app.
    inversion IHd as [|? ? Hx Hxs]; subst. cbn [snd] in Hx.
    rewrite Hx, encode_basestring_ascii_plain, concat_map_plain;
      [reflexivity|].
    eapply Forall_impl; [|exact Hxs].
    intros y Hy. cbv beta in Hy |- *.
    now rewrite !forallb_app, Hy, encode_basestring_ascii_plain.
Qed.

Lemma print_json_plain v :
  forallb is_plain (list_ascii_of_string (print_json v)) = true.
Proof.
  unfold print_json. rewrite list_ascii_of_string_of_list_ascii.
  rewrite forallb_app, dump_compact_plain. reflexivity.
Qed.

(** The coordinator's [json.loads], given the bytes a worker prints for
    a value whose dicts have distinct keys, returns the value. *)
Lemma json_loads_bytes_print_json v :
  json_wf v = true -> json_loads_bytes (print_json v) = Ok v.
Proof.
  intros Hwf. unfold json_loads_bytes.
  rewrite (bytes_decode_plain _ (print_json_plain v)). cbn [rbind].
  now apply json_loads_print_json.
Qed.

(** X15: what a worker prints for a record reaches the coordinator as
    that very record.  The strings of the model hold characters up to
    U+00FF; whichever of them the strings of a record hold, quotes,
    backslashes, control and non-ASCII characters among them,
    [json.dumps] prints the record in ASCII characters other than NUL,
    so that [json.loads], given the bytes, takes them for UTF-8 and
    returns the record.  For a record with the two entries [model] and
    [labels], a label dict and a model named by a string, the merge
    step of [build] then stores the model under that name, merges the
    labels and logs the addition. *)
Theorem printed_record_is_merged st w model ls n ms old :
  json_wf model = true ->
  json_wf (JDict ls) = true ->
  py_getitem model (JStr "name") = Ok (JStr n) ->
  db_tables (bs_self st) ms old ->
  forallb is_plain
    (list_ascii_of_string
       (print_json (JDict [("model", model); ("labels", JDict ls)]))) = true /\
  json_loads_bytes
    (print_json (JDict [("model", model); ("labels", JDict ls)]))
  = Ok (JDict [("model", model); ("labels", JDict ls)]) /\
  exists self',
    merge_result st
      (print_json (JDict [("model", model); ("labels", JDict ls)])) w =
    (Ok {| bs_self := self'; bs_model_files := bs_model_files st;
           bs_jobs := bs_jobs st; bs_f := bs_f st |},
     add_log w (InfoAdded (JStr n))) /\
    db_tables self' (Dict.set n model ms) (Dict.update old ls).
Proof.
  intros Hm Hl Hn Hdb.
  assert (Hloads : json_loads_bytes
                     (print_json (JDict [("model", model); ("labels", JDict ls)]))
                   = Ok (JDict [("model", model); ("labels", JDict ls)])).
  { apply json_loads_bytes_print_json.
    cbn [json_wf map fst snd forallb nodupb existsb] in *.
    rewrite Hm. cbn [andb] in *. rewrite Hl. reflexivity. }
  split; [apply print_json_plain|].
  split; [exact Hloads|].
  apply (merge_result_parsed st _ w n model ls ms old); [|exact Hdb].
  unfold classify. rewrite Hloads. cbn [py_getitem Dict.get String.eqb].
  cbn. rewrite Hn. reflexivity.
Qed.

Lemma printed_record_is_merged_witness :
  forallb is_plain
    (list_ascii_of_string (print_json (farm_record "oak"))) = true /\
  json_loads_bytes (print_json (farm_record "oak")) = Ok (farm_record "oak") /\
  exists self',
    merge_result
      {| bs_self := oak_db; bs_model_files := []; bs_jobs := [];
         bs_f := None |}
      (print_json (farm_record "oak")) (world_of []) =
    (Ok {| bs_self := self'; bs_model_files := []; bs_jobs := [];
           bs_f := None |},
     add_log (world_of []) (InfoAdded (JStr "oak"))) /\
    db_tables self' (Dict.set "oak" (model_rec "oak" "young") [])
      (Dict.update [("oak", JDict [("en", JStr "Oak")])]
         [("oak", JDict [("en", JStr "Tree")])]).
Proof.
  apply (printed_record_is_merged
           {| bs_self := oak_db; bs_model_files := []; bs_jobs := [];
              bs_f := None |}
           (world_of []) (model_rec "oak" "young")
           [("oak", JDict [("en", JStr "Tree")])] "oak" []
           [("oak", JDict [("en", JStr "Oak")])]).
  - reflexivity.
  - reflexivity.
  - reflexivity.
  - eexists. split; [reflexivity|]. split; reflexivity.
Defined.

(** ** The record [parse_model] builds *)

Lemma wbind_done {A B} (c : W A) (k : A -> W B) w b l :
  wbind c k w = (Done b, l) ->
  exists a l1 l2, c w = (Done a, l1) /\ k a w = (Done b, l2) /\ l = l1 ++ l2.
Proof.
  unfold wbind. destruct (c w) as [[a|e|] l1]; try discriminate.
  destruct (k a w) as [r l2] eqn:Hk. intros H. inversion H. subst.
  exists a, l1, l2. auto.
Qed.

Lemma wlift_done {A} (r : result A) w a l :
  wlift r w = (Done a, l) -> r = Ok a /\ l = [].
Proof.
  unfold wlift. destruct r; intros H; inversion H. auto.
Qed.

Lemma wend_done {A} (r : ending A) w a l :
  wend r w = (Done a, l) -> r = Done a /\ l = [].
Proof. unfold wend. intros H. inversion H. auto. Qed.

Lemma wret_done {A} (x : A) w a l :
  wret x w = (Done a, l) -> a = x /\ l = [].
Proof. unfold wret. intros H. inversion H. auto. Qed.

Lemma is_file_done path w b l :
  is_file path w = (Done b, l) -> b = Dict.mem path (files w) /\ l = [].
Proof. unfold is_file. intros H. inversion H. auto. Qed.

(** Peels the first step off a computation of the worker that ended
    with a value: [a] is what the step returned, [H1] how. *)
Ltac wstep H a H1 :=
  let l1 := fresh "l" in
  let l2 := fresh "l" in
  let Hl := fresh "Hl" in
  let E := fresh "E" in
  let H0 := fresh "H" in
  apply wbind_done in H; destruct H as [a [l1 [l2 [H0 [H Hl]]]]];
  first [ destruct (wlift_done _ _ _ _ H0) as [H1 E]; clear H0
        | destruct (wend_done _ _ _ _ H0) as [H1 E]; clear H0
        | destruct (is_file_done _ _ _ _ H0) as [H1 E]; clear H0
        | rename H0 into H1 ];
  subst.

Lemma py_dict_update_dict d o r :
  py_dict_update (JDict d) o = Ok r -> exists d', r = JDict d'.
Proof.
  destruct o as [| | |s0|l0|d0]; cbn [py_dict_update]; try discriminate.
  - destruct s0; cbn; intros H; inversion H; eauto.
  - destruct l0; cbn; intros H; inversion H; eauto.
  - intros H. inversion H. eauto.
Qed.

Lemma py_setitem_dict d k v r :
  py_setitem (JDict d) k v = Ok r -> exists d', r = JDict d'.
Proof.
  destruct k; cbn [py_setitem]; try discriminate.
  intros H. inversion H. eauto.
Qed.

Lemma variants_loop_entries lib filepath stem pv seasons dsidx s_labels w :
  forall names labels variants i labels' variants' warnings,
    variants_loop lib filepath stem pv seasons dsidx s_labels
      (map JStr names) (JDict labels) (JDict variants) i w
    = (Done (labels', variants'), warnings) ->
    NoDup (Dict.keys variants ++ names) ->
    exists ds ls,
      labels' = JDict ls /\
      variants' = JDict (variants
                         ++ variant_entries lib filepath stem seasons ds w
                              names i) /\
      (names <> [] -> py_getitem (JList seasons) dsidx = Ok ds).
Proof.
  induction names as [|n names IH];
    intros labels variants i labels' variants' warnings H Hnd.
  - cbn [map variants_loop] in H. apply wret_done in H. destruct H as [H _].
    inversion H. subst. exists JNull, labels. cbn [variant_entries].
    rewrite app_nil_r. split; [reflexivity|]. split; [reflexivity|].
    intros Hq. now elim Hq.
  - cbn [map variants_loop] in H.
    wstep H labels1 Hlabels1.
    wstep H ds Hds0.
    wstep H vn Hvn. cbn [str_of] in Hvn. inversion Hvn. subst vn.
    wstep H found Hfound.
    wstep H preview Hpreview0.
    wstep H variants1 Hvariants1.
    wstep H options Hoptions.
    wstep H opt Hopt.
    wstep H ls Hls0.
    wstep H v_labels Hv_labels.
    wstep H labels2 Hlabels2.
    cbn [py_setitem] in Hvariants1. inversion Hvariants1. subst variants1.
    assert (Hfresh : ~ In n (Dict.keys variants)).
    { intros Hin. apply NoDup_remove_2 in Hnd. apply Hnd.
      apply in_or_app. now left. }
    rewrite (dict_set_fresh _ _ _ Hfresh) in H.
    assert (Hl1 : exists d1, labels1 = JDict d1).
    { destruct s_labels as [| | |s0|l0|d0];
        cbn [py_dict_update] in Hlabels1; try discriminate.
      - destruct s0; inversion Hlabels1; eauto.
      - destruct l0; inversion Hlabels1; eauto.
      - inversion Hlabels1; eauto. }
    destruct Hl1 as [d1 ->]. cbn [py_setitem] in Hlabels2.
    inversion Hlabels2. subst labels2.
    destruct (IH _ _ _ _ _ _ H) as [ds' [ls' [Hls [Hvs Hds]]]].
    { unfold Dict.keys in *. rewrite map_app. cbn [map fst].
      rewrite <- app_assoc. exact Hnd. }
    assert (Hpreview : preview =
              if Dict.mem
                   (path_join lib
                      (path_join lib (path_parent_absolute lib filepath) "models")
                      (stem ++ "_" ++ n ++ ".png")) (files w)
              then path_join lib
                     (path_join lib (path_parent_absolute lib filepath) "models")
                     (stem ++ "_" ++ n ++ ".png")
              else EmptyString).
    { destruct (Dict.mem _ (files w)).
      - apply wret_done in Hpreview0. now destruct Hpreview0.
      - wstep Hpreview0 u Hu. apply wret_done in Hpreview0.
        now destruct Hpreview0. }
    exists ds, ls'. split; [exact Hls|]. split; [|intros _; exact Hds0].
    rewrite Hvs. rewrite <- app_assoc. cbn [app variant_entries].
    unfold variant_record at 1. rewrite <- Hpreview.
    destruct names as [|n2 names'].
    + reflexivity.
    + rewrite Hds0 in Hds. specialize (Hds ltac:(discriminate)).
      inversion Hds. reflexivity.
Qed.

(** The parts of the record, and where the default variant comes
    from. *)
Lemma parse_model_record_parts lib m filepath w names rec warnings :
  lbw_variants m = map JStr names ->
  NoDup names ->
  parse_model_record lib m filepath w = (Done rec, warnings) ->
  exists content params p enum idx options opt default_variant preview stem
         seasons ds labels,
    Dict.get filepath (files w) = Some content /\
    py_iter (lbw_params m) = Ok params /\
    next_named "variant" params = Done p /\
    py_getitem p (JStr "enum") = Ok enum /\
    py_getitem enum (JStr "default") = Ok idx /\
    py_getitem enum (JStr "options") = Ok options /\
    py_getitem options idx = Ok opt /\
    py_getitem opt (JStr "name") = Ok default_variant /\
    rec =
    JDict [("model",
            JDict [("name", lbw_name m);
                   ("filepath", JStr filepath);
                   ("md5", JStr (md5_hexdigest lib content));
                   ("default_variant", default_variant);
                   ("preview", JStr preview);
                   ("variants",
                    JDict (variant_entries lib filepath stem seasons ds w
                             names 0))]);
           ("labels", JDict labels)] /\
    (preview = EmptyString \/ Dict.mem preview (files w) = true) /\
    (stem = path_stem lib filepath \/
     stem = splitext_root lib (path_stem lib filepath)).
Proof.
  intros Hnames Hnd H. unfold parse_model_record in H.
  wstep H md5 Hmd5. rewrite md5sum_whole_file in Hmd5.
  destruct (Dict.get filepath (files w)) as [content|] eqn:Hfile;
    [|discriminate].
  inversion Hmd5. subst md5.
  wstep H params Hparams.
  wstep H p Hp.
  wstep H params_variant Hpv.
  wstep H default_variant_idx Hidx.
  wstep H options Hoptions.
  wstep H opt Hopt.
  wstep H default_variant Hdv.
  wstep H found Hfound.
  wstep H sp Hsp.
  wstep H ls Hls.
  wstep H m_labels Hm_labels.
  wstep H labels0 Hlabels0.
  wstep H params2 Hparams2.
  wstep H p2 Hp2.
  wstep H params_season Hps.
  wstep H options2 Hoptions2.
  wstep H ss Hss.
  wstep H default_season Hds.
  wstep H lv Hlv.
  apply wret_done in H. destruct H as [Hrec _].
  destruct (py_setitem_dict _ _ _ _ Hlabels0) as [d0 ->].
  destruct lv as [labels' variants'].
  rewrite Hnames in Hlv.
  destruct (variants_loop_entries _ _ _ _ _ _ _ _ _ _ _ _ _ _ _ Hlv)
    as [ds [labels [Hlabels [Hvariants _]]]].
  { exact Hnd. }
  cbn [app] in Hvariants. cbn [fst snd] in Hrec. subst labels' variants'.
  exists content, params, p, params_variant, default_variant_idx, options,
    opt, default_variant, (snd sp), (fst sp), (fst ss), ds, labels.
  repeat (split; [first [reflexivity|assumption]|]).
  destruct (Dict.mem (path_join lib (path_parent_absolute lib filepath)
                        (path_stem lib filepath ++ ".png")) (files w)) eqn:E1.
  - apply wret_done in Hsp. destruct Hsp as [-> _]. cbn [fst snd]. auto.
  - wstep Hsp found2 Hfound2.
    destruct (Dict.mem (path_join lib (path_parent_absolute lib filepath)
                          (splitext_root lib (path_stem lib filepath) ++ ".png"))
                (files w)) eqn:E2.
    + apply wret_done in Hsp. destruct Hsp as [-> _]. cbn [fst snd]. auto.
    + wstep Hsp u Hu. apply wret_done in Hsp. destruct Hsp as [-> _].
      cbn [fst snd]. auto.
Qed.

(** X16: the record [parse_model] returns has the two entries [model]
    and [labels], and no [name] beside them.  The model keeps the
    object's name, the path it was asked for and the digest of the whole
    file; when the object's variants have distinct names, the variants
    table lists them in the object's order, the record of the variant
    at position [i] carrying the index [i], and every variant record
    the same list of seasons and the same default season; a preview is
    either empty or the path of a file that exists. *)
Theorem parse_model_record_shape lib m filepath w names rec warnings :
  lbw_variants m = map JStr names ->
  NoDup names ->
  parse_model_record lib m filepath w = (Done rec, warnings) ->
  exists content default_variant preview stem seasons ds labels,
    Dict.get filepath (files w) = Some content /\
    rec =
    JDict [("model",
            JDict [("name", lbw_name m);
                   ("filepath", JStr filepath);
                   ("md5", JStr (md5_hexdigest lib content));
                   ("default_variant", default_variant);
                   ("preview", JStr preview);
                   ("variants",
                    JDict (variant_entries lib filepath stem seasons ds w
                             names 0))]);
           ("labels", JDict labels)] /\
    py_getitem rec (JStr "name") = Raise KeyError /\
    (preview = EmptyString \/ Dict.mem preview (files w) = true) /\
    (stem = path_stem lib filepath \/
     stem = splitext_root lib (path_stem lib filepath)).
Proof.
  intros Hnames Hnd H.
  destruct (parse_model_record_parts _ _ _ _ _ _ _ Hnames Hnd H)
    as [content [params [p [enum [idx [options [opt [dv [preview [stem
         [seasons [ds [labels [Hf [_ [_ [_ [_ [_ [_ [_ [Hrec [Hp Hs]]]]]]]]]]]]]]]]]]]]]]].
  exists content, dv, preview, stem, seasons, ds, labels.
  split; [exact Hf|]. split; [exact Hrec|]. split; [|split; assumption].
  rewrite Hrec. reflexivity.
Qed.

Lemma variant_entries_keys lib filepath stem seasons ds w names : forall i,
  Dict.keys (variant_entries lib filepath stem seasons ds w names i) = names.
Proof.
  induction names as [|n names IH]; intros i; [reflexivity|].
  cbn [variant_entries Dict.keys map fst]. f_equal. apply IH.
Qed.

Lemma dict_mem_keys {V} (k : string) (d : list (string * V)) :
  Dict.mem k d = true <-> In k (Dict.keys d).
Proof.
  split.
  - intros H. destruct (dict_mem_get _ _ H) as [v Hv].
    apply dict_get_some_in in Hv. unfold Dict.keys.
    change k with (fst (k, v)). now apply in_map.
  - intros H. destruct (dict_keys_get _ _ H) as [v [Hv _]].
    unfold Dict.mem. now rewrite Hv.
Qed.

(** X17: the default variant of the record is the name of the option
    that the default index of the [variant] parameter selects among the
    parameter's options; [parse_model] does not compare it with the
    variants of the object.  When the variants have distinct names, the
    Model record is one a view can be built from, its default variant
    being among its variants, exactly when that name is a string that
    names a variant of the object. *)
Theorem parse_model_default_variant lib m filepath w names rec warnings :
  lbw_variants m = map JStr names ->
  NoDup names ->
  parse_model_record lib m filepath w = (Done rec, warnings) ->
  exists params p enum idx options opt dv model,
    py_iter (lbw_params m) = Ok params /\
    next_named "variant" params = Done p /\
    py_getitem p (JStr "enum") = Ok enum /\
    py_getitem enum (JStr "default") = Ok idx /\
    py_getitem enum (JStr "options") = Ok options /\
    py_getitem options idx = Ok opt /\
    py_getitem opt (JStr "name") = Ok dv /\
    py_getitem rec (JStr "model") = Ok model /\
    py_getitem model (JStr "default_variant") = Ok dv /\
    (default_variant_present model = true <->
     exists s, dv = JStr s /\ In s names).
Proof.
  intros Hnames Hnd H.
  destruct (parse_model_record_parts _ _ _ _ _ _ _ Hnames Hnd H)
    as [content [params [p [enum [idx [options [opt [dv [preview [stem
         [seasons [ds [labels [Hf [H1 [H2 [H3 [H4 [H5 [H6 [H7
         [Hrec _]]]]]]]]]]]]]]]]]]]]]].
  exists params, p, enum, idx, options, opt, dv.
  eexists. repeat (split; [eassumption|]).
  rewrite Hrec. split; [reflexivity|]. split; [reflexivity|].
  unfold default_variant_present.
  cbn [Dict.get String.eqb Ascii.eqb Bool.eqb].
  destruct dv as [| | |s| |]; try (split; [discriminate|]);
    try (intros [s' [Hs' _]]; discriminate Hs').
  rewrite dict_mem_keys, variant_entries_keys. split.
  - intros Hin. exists s. auto.
  - intros [s' [Hs' Hin]]. inversion Hs'. now subst.
Qed.

Lemma parse_model_default_variant_witness :
  exists rec warnings,
    parse_model_record oak_libs oak_plant "/plants/oak/oak.lbw.gz" oak_world
    = (Done rec, warnings) /\
    exists params p enum idx options opt dv model,
      py_iter (lbw_params oak_plant) = Ok params /\
      next_named "variant" params = Done p /\
      py_getitem p (JStr "enum") = Ok enum /\
      py_getitem enum (JStr "default") = Ok idx /\
      py_getitem enum (JStr "options") = Ok options /\
      py_getitem options idx = Ok opt /\
      py_getitem opt (JStr "name") = Ok dv /\
      py_getitem rec (JStr "model") = Ok model /\
      py_getitem model (JStr "default_variant") = Ok dv /\
      (default_variant_present model = true <->
       exists s, dv = JStr s /\ In s ["young"; "old"]).
Proof.
  destruct (parse_model_record oak_libs oak_plant "/plants/oak/oak.lbw.gz"
              oak_world) as [[rec|e|] warnings] eqn:Hp.
  - exists rec, warnings. split; [reflexivity|].
    apply (parse_model_default_variant oak_libs oak_plant
             "/plants/oak/oak.lbw.gz" oak_world ["young"; "old"] rec warnings).
    + reflexivity.
    + repeat constructor; simpl; intuition discriminate.
    + exact Hp.
  - exfalso. vm_compute in Hp. discriminate Hp.
  - exfalso. vm_compute in Hp. discriminate Hp.
Defined.

(** The record of the sample plant.  The preview of the model is found
    under the stem without its second suffix; the variant [young] has
    no preview, which is logged; of the two English labels of the plant
    the first is kept, of the two of the variant [old] the last. *)
Example parse_model_oak :
  parse_model_of oak_libs "/plants/oak/oak.lbw.gz" oak_world =
  (Done
     (JDict
        [("model",
          JDict
            [("name", JStr "Quercus robur");
             ("filepath", JStr "/plants/oak/oak.lbw.gz");
             ("md5", JStr "d41d8cd98f00b204e9800998ecf8427e");
             ("default_variant", JStr "old");
             ("preview", JStr "/plants/oak/oak.png");
             ("variants",
              JDict
                [("young",
                  JDict [("index", JInt 0);
                         ("seasons", JList [JStr "summer"; JStr "winter"]);
                         ("default_season", JStr "summer");
                         ("preview", JStr EmptyString)]);
                 ("old",
                  JDict [("index", JInt 1);
                         ("seasons", JList [JStr "summer"; JStr "winter"]);
                         ("default_season", JStr "summer");
                         ("preview",
                          JStr "/plants/oak/models/oak_old.png")])])]);
         ("labels",
          JDict
            [("Quercus robur",
              JDict [("en", JStr "English oak"); ("de", JStr "Stieleiche")]);
             ("summer", JDict [("en", JStr "Summer")]);
             ("winter", JDict [("en", JStr "Winter")]);
             ("young", JDict [("en", JStr "Young")]);
             ("old", JDict [("en", JStr "Aged")])])]),
   ["/plants/oak/models/oak_young.png"]).
Proof. vm_compute. reflexivity. Qed.

Lemma parse_model_record_shape_witness :
  exists rec warnings,
    parse_model_record oak_libs oak_plant "/plants/oak/oak.lbw.gz" oak_world
    = (Done rec, warnings) /\
    exists content default_variant preview stem seasons ds labels,
      Dict.get "/plants/oak/oak.lbw.gz" (files oak_world) = Some content /\
      rec =
      JDict [("model",
              JDict [("name", lbw_name oak_plant);
                     ("filepath", JStr "/plants/oak/oak.lbw.gz");
                     ("md5", JStr (md5_hexdigest oak_libs content));
                     ("default_variant", default_variant);
                     ("preview", JStr preview);
                     ("variants",
                      JDict (variant_entries oak_libs "/plants/oak/oak.lbw.gz"
                               stem seasons ds oak_world ["young"; "old"] 0))]);
             ("labels", JDict labels)] /\
      py_getitem rec (JStr "name") = Raise KeyError /\
      (preview = EmptyString \/ Dict.mem preview (files oak_world) = true) /\
      (stem = path_stem oak_libs "/plants/oak/oak.lbw.gz" \/
       stem = splitext_root oak_libs
                (path_stem oak_libs "/plants/oak/oak.lbw.gz")).
Proof.
  destruct (parse_model_record oak_libs oak_plant "/plants/oak/oak.lbw.gz"
              oak_world) as [[rec|e|] warnings] eqn:Hp.
  - exists rec, warnings. split; [reflexivity|].
    apply (parse_model_record_shape oak_libs oak_plant
             "/plants/oak/oak.lbw.gz" oak_world ["young"; "old"] rec warnings).
    + reflexivity.
    + repeat constructor; simpl; intuition discriminate.
    + exact Hp.
  - exfalso. vm_compute in Hp. discriminate Hp.
  - exfalso. vm_compute in Hp. discriminate Hp.
Defined.

(** ** First and last labels *)

Lemma first_labels_spec pairs : forall acc,
  exists d,
    first_labels (map label_entry pairs) (JDict acc) = Ok (JDict d) /\
    forall lang,
      Dict.get lang d =
      match Dict.get lang acc with
      | Some v => Some v
      | None => option_map snd
                  (find (fun p => (fst p =? lang)%string) pairs)
      end.
Proof.
  induction pairs as [|[l t] pairs IH]; intros acc.
  - exists acc. split; [reflexivity|]. intros lang.
    destruct (Dict.get lang acc); reflexivity.
  - cbn [map first_labels label_entry fst snd py_getitem Dict.get String.eqb
           Ascii.eqb Bool.eqb rbind py_contains py_contains_str].
    unfold Dict.mem. destruct (Dict.get l acc) as [v|] eqn:Hl.
    + cbn [rbind]. destruct (IH acc) as [d [Hd Hget]]. exists d.
      split; [exact Hd|]. intros lang. rewrite Hget.
      destruct (Dict.get lang acc) as [v'|] eqn:Hlang; [reflexivity|].
      cbn [find fst]. destruct (String.eqb_spec l lang) as [->|Hne];
        [congruence|reflexivity].
    + cbn [rbind py_setitem]. destruct (IH (Dict.set l t acc)) as [d [Hd Hget]].
      exists d. split; [exact Hd|]. intros lang. rewrite Hget.
      cbn [find fst]. destruct (String.eqb_spec l lang) as [->|Hne].
      * rewrite dict_get_set_eq, Hl. reflexivity.
      * now rewrite dict_get_set_neq.
Qed.

Lemma last_labels_spec pairs : forall acc,
  exists d,
    last_labels (map label_entry pairs) (JDict acc) = Ok (JDict d) /\
    forall lang,
      Dict.get lang d =
      match find (fun p => (fst p =? lang)%string) (rev pairs) with
      | Some p => Some (snd p)
      | None => Dict.get lang acc
      end.
Proof.
  induction pairs as [|[l t] pairs IH]; intros acc.
  - exists acc. split; reflexivity.
  - cbn [map last_labels label_entry fst snd py_getitem Dict.get String.eqb
           Ascii.eqb Bool.eqb rbind py_setitem].
    destruct (IH (Dict.set l t acc)) as [d [Hd Hget]].
    exists d. split; [exact Hd|]. intros lang. rewrite Hget.
    cbn [rev]. rewrite find_snoc. cbn [fst snd].
    destruct (find (fun p => (fst p =? lang)%string) (rev pairs));
      [reflexivity|].
    destruct (String.eqb_spec l lang) as [->|Hne].
    + apply dict_get_set_eq.
    + now apply dict_get_set_neq.
Qed.

(** X18: of several labels in one language, [parse_model] keeps the
    first for the plant itself and the last for a variant.  Over a list
    of labels with a language and a text each, the loop over the
    plant's labels stores, for every language, the text of the first
    label in that language, and the loop over a variant's labels the
    text of the last one. *)
Theorem labels_first_and_last pairs :
  exists d1 d2,
    first_labels (map label_entry pairs) (JDict []) = Ok (JDict d1) /\
    last_labels (map label_entry pairs) (JDict []) = Ok (JDict d2) /\
    forall lang,
      Dict.get lang d1 =
      option_map snd (find (fun p => (fst p =? lang)%string) pairs) /\
      Dict.get lang d2 =
      option_map snd (find (fun p => (fst p =? lang)%string) (rev pairs)).
Proof.
  destruct (first_labels_spec pairs []) as [d1 [H1 G1]].
  destruct (last_labels_spec pairs []) as [d2 [H2 G2]].
  exists d1, d2. split; [exact H1|]. split; [exact H2|].
  intros lang. split.
  - apply G1.
  - rewrite G2.
    destruct (find (fun p => (fst p =? lang)%string) (rev pairs));
      reflexivity.
Qed.

(** ** A plant without the parameter the parser looks for *)

Lemma next_named_none name xs :
  Forall (fun x => exists n, py_getitem x (JStr "name") = Ok n /\
                             py_eq_str n name = false) xs ->
  next_named name xs = StopIteration.
Proof.
  induction 1 as [|x xs [n [Hn He]] _ IH]; [reflexivity|].
  cbn [next_named]. now rewrite Hn, He.
Qed.

(** X19: when the object the SDK loads has no parameter named
    [variant], [parse_model] ends with [StopIteration], not with a
    record: the worker prints nothing, it logs no warning, and the
    coordinator reads an empty output, which its merge step takes for
    output that does not decode. *)
Theorem parse_model_without_variant_parameter lib m filepath w content params :
  Dict.get filepath (files w) = Some content ->
  lbw_load lib filepath = Ok m ->
  lbw_params m = JList params ->
  Forall (fun x => exists n, py_getitem x (JStr "name") = Ok n /\
                             py_eq_str n "variant" = false) params ->
  parse_model_json lib filepath w = (StopIteration, []) /\
  worker_prints lib filepath w = EmptyString /\
  classify (worker_prints lib filepath w) = Malformed.
Proof.
  intros Hfile Hload Hparams Hnone.
  assert (Hp : parse_model_json lib filepath w = (StopIteration, [])).
  { unfold parse_model_json, parse_model_of, parse_model_record, wbind at 1 2.
    unfold wlift at 1. rewrite Hload. unfold wbind at 1.
    rewrite md5sum_whole_file, Hfile. unfold wbind at 1, wlift at 1.
    rewrite Hparams. cbn [py_iter]. unfold wbind at 1, wend at 1.
    rewrite (next_named_none _ _ Hnone). reflexivity. }
  split; [exact Hp|]. unfold worker_prints. rewrite Hp.
  split; reflexivity.
Qed.

Lemma parse_model_without_variant_parameter_witness :
  parse_model_json bare_libs "/plants/oak/oak.lbw.gz" oak_world
  = (StopIteration, []) /\
  worker_prints bare_libs "/plants/oak/oak.lbw.gz" oak_world = EmptyString /\
  classify (worker_prints bare_libs "/plants/oak/oak.lbw.gz" oak_world)
  = Malformed.
Proof.
  apply (parse_model_without_variant_parameter bare_libs bare_plant
           "/plants/oak/oak.lbw.gz" oak_world EmptyString
           [JDict [("name", JStr "season")]] eq_refl eq_refl eq_refl).
  repeat constructor. exists (JStr "season"). split; reflexivity.
Defined.

(** ** From the plant file to the store *)

Lemma rbind_ok {A B} (c : result A) (k : A -> result B) b :
  rbind c k = Ok b -> exists a, c = Ok a /\ k a = Ok b.
Proof. destruct c as [a|]; [|discriminate]. simpl. eauto. Qed.

Ltac rstep H a Ha :=
  apply rbind_ok in H; destruct H as [a [Ha H]].

Lemma py_iter_wf v l :
  json_wf v = true -> py_iter v = Ok l -> forallb json_wf l = true.
Proof.
  destruct v as [| | |s|l0|d]; cbn [py_iter]; try discriminate;
    intros Hwf H; inversion H; subst.
  - unfold chars. rewrite forallb_forall. intros x Hx.
    apply in_map_iff in Hx. destruct Hx as [c [<- _]]. reflexivity.
  - exact Hwf.
  - rewrite forallb_forall. intros x Hx.
    apply in_map_iff in Hx. destruct Hx as [k [<- _]]. reflexivity.
Qed.

Lemma next_named_wf name xs x :
  forallb json_wf xs = true -> next_named name xs = Done x ->
  json_wf x = true.
Proof.
  induction xs as [|y r IH]; cbn [next_named forallb]; [discriminate|].
  intros Hwf. apply andb_true_iff in Hwf. destruct Hwf as [Hy Hr].
  destruct (py_getitem y (JStr "name")) as [n|]; [|discriminate].
  destruct (py_eq_str n name).
  - intros H. inversion H. now subst.
  - now apply IH.
Qed.

Lemma first_labels_wf ls : forall acc r,
  forallb json_wf ls = true -> json_wf acc = true ->
  first_labels ls acc = Ok r -> json_wf r = true.
Proof.
  induction ls as [|label ls IH]; intros acc r Hls Hacc H;
    cbn [first_labels forallb] in *.
  - inversion H. now subst.
  - apply andb_true_iff in Hls. destruct Hls as [Hl Hls].
    rstep H lang Hlang. rstep H b Hb. rstep H acc' Hacc'.
    apply (IH acc' r Hls); [|exact H].
    destruct b.
    + inversion Hacc'. now subst.
    + rstep Hacc' txt Htext. rstep Hacc' lang' Hlang'.
      apply (py_setitem_wf _ _ _ _ Hacc (py_getitem_wf _ _ _ Hl Htext) Hacc').
Qed.

Lemma last_labels_wf ls : forall acc r,
  forallb json_wf ls = true -> json_wf acc = true ->
  last_labels ls acc = Ok r -> json_wf r = true.
Proof.
  induction ls as [|label ls IH]; intros acc r Hls Hacc H;
    cbn [last_labels forallb] in *.
  - inversion H. now subst.
  - apply andb_true_iff in Hls. destruct Hls as [Hl Hls].
    rstep H txt Htext. rstep H lang Hlang. rstep H acc' Hacc'.
    apply (IH acc' r Hls); [|exact H].
    apply (py_setitem_wf _ _ _ _ Hacc (py_getitem_wf _ _ _ Hl Htext) Hacc').
Qed.

Lemma season_labels_wf s ls : forall acc r,
  forallb json_wf ls = true -> json_wf acc = true ->
  season_labels s ls acc = Ok r -> json_wf r = true.
Proof.
  induction ls as [|label ls IH]; intros acc r Hls Hacc H;
    cbn [season_labels forallb] in *.
  - inversion H. now subst.
  - apply andb_true_iff in Hls. destruct Hls as [Hl Hls].
    rstep H txt Htext. rstep H name Hname. rstep H inner Hinner.
    rstep H lang Hlang. rstep H inner' Hinner'. rstep H acc' Hacc'.
    apply (IH acc' r Hls); [|exact H].
    apply (py_setitem_wf _ _ _ _ Hacc) in Hacc'; [exact Hacc'|].
    apply (py_setitem_wf _ _ _ _ (py_getitem_wf _ _ _ Hacc Hinner)
             (py_getitem_wf _ _ _ Hl Htext) Hinner').
Qed.

Lemma seasons_loop_wf options : forall seasons s_labels r,
  forallb json_wf options = true ->
  forallb json_wf seasons = true -> json_wf s_labels = true ->
  seasons_loop options seasons s_labels = Ok r ->
  forallb json_wf (fst r) = true /\ json_wf (snd r) = true.
Proof.
  induction options as [|s options IH]; intros seasons s_labels r Ho Hs Hl H;
    cbn [seasons_loop forallb] in *.
  - inversion H. now subst.
  - apply andb_true_iff in Ho. destruct Ho as [Hs0 Ho].
    rstep H name Hname. rstep H name' Hname'. rstep H s_labels1 Hs1.
    rstep H ls Hls. rstep H items Hitems. rstep H s_labels2 Hs2.
    apply (IH (seasons ++ [name]) s_labels2 r Ho); [| |exact H].
    + rewrite forallb_app, Hs. cbn [forallb].
      now rewrite (py_getitem_wf _ _ _ Hs0 Hname).
    + apply (season_labels_wf s items s_labels1 s_labels2); [| |exact Hs2].
      * apply (py_iter_wf ls); [|exact Hitems].
        apply (py_getitem_wf _ _ _ Hs0 Hls).
      * apply (py_setitem_wf s_labels name' (JDict []) _ Hl eq_refl Hs1).
Qed.

Lemma variants_loop_wf lib filepath stem pv seasons dsidx s_labels w :
  json_wf pv = true -> forallb json_wf seasons = true ->
  json_wf s_labels = true ->
  forall vs labels variants i r warnings,
    json_wf labels = true -> json_wf variants = true ->
    variants_loop lib filepath stem pv seasons dsidx s_labels vs labels
      variants i w = (Done r, warnings) ->
    json_wf (fst r) = true /\ json_wf (snd r) = true.
Proof.
  intros Hpv Hseasons Hsl.
  induction vs as [|v vs IH]; intros labels variants i r warnings Hl Hv H;
    cbn [variants_loop] in H.
  - apply wret_done in H. destruct H as [-> _]. auto.
  - wstep H labels1 Hlabels1.
    wstep H ds Hds.
    wstep H vn Hvn.
    wstep H found Hfound.
    wstep H preview Hpreview.
    wstep H variants1 Hvariants1.
    wstep H options Hoptions.
    wstep H opt Hopt.
    wstep H ls Hls.
    wstep H v_labels Hv_labels.
    wstep H labels2 Hlabels2.
    rstep Hoptions o Ho. rstep Hls lo Hlo.
    apply (IH labels2 variants1 (i + 1)%Z r l1); [| |exact H].
    + apply (py_setitem_wf _ _ _ _
               (py_dict_update_wf _ _ _ Hl Hsl Hlabels1)) in Hlabels2;
        [exact Hlabels2|].
      apply (last_labels_wf ls (JDict [])); [|reflexivity|exact Hv_labels].
      apply (py_iter_wf lo); [|exact Hls].
      apply (py_getitem_wf opt (JStr "labels")); [|exact Hlo].
      apply (next_named_wf vn options); [|exact Hopt].
      apply (py_iter_wf o); [|exact Hoptions].
      apply (py_getitem_wf _ _ _ Hpv Ho).
    + apply (py_setitem_wf _ _ _ _ Hv) in Hvariants1; [exact Hvariants1|].
      cbn [json_wf map fst snd nodupb existsb forallb String.eqb Ascii.eqb
             Bool.eqb negb andb orb].
      rewrite Hseasons.
      assert (Hdsw : json_wf ds = true).
      { apply (py_getitem_wf (JList seasons) dsidx); [exact Hseasons|exact Hds]. }
      rewrite Hdsw. reflexivity.
Qed.

Lemma parse_model_record_wf lib m filepath w rec warnings :
  json_wf (lbw_name m) = true ->
  json_wf (lbw_params m) = true ->
  json_wf (lbw_plant_meta m) = true ->
  parse_model_record lib m filepath w = (Done rec, warnings) ->
  json_wf rec = true.
Proof.
  intros Hname Hparams Hmeta H. unfold parse_model_record in H.
  wstep H md5 Hmd5.
  wstep H params Hparams1.
  wstep H p Hp.
  wstep H params_variant Hpv.
  wstep H default_variant_idx Hidx.
  wstep H options Hoptions.
  wstep H opt Hopt.
  wstep H default_variant Hdv.
  wstep H found Hfound.
  wstep H sp Hsp.
  wstep H ls Hls.
  wstep H m_labels Hm_labels.
  wstep H labels0 Hlabels0.
  wstep H params2 Hparams2.
  wstep H p2 Hp2.
  wstep H params_season Hps.
  wstep H options2 Hoptions2.
  wstep H ss Hss.
  wstep H default_season Hds.
  wstep H lv Hlv.
  apply wret_done in H. destruct H as [-> _].
  rstep Hls lo Hlo. rstep Hoptions2 o2 Ho2.
  pose proof (py_iter_wf _ _ Hparams Hparams1) as Wparams.
  pose proof (next_named_wf _ _ _ Wparams Hp) as Wp.
  pose proof (py_getitem_wf _ _ _ Wp Hpv) as Wpv.
  pose proof (py_getitem_wf _ _ _ Wpv Hoptions) as Woptions.
  pose proof (py_getitem_wf _ _ _ Woptions Hopt) as Wopt.
  pose proof (py_getitem_wf _ _ _ Wopt Hdv) as Wdv.
  pose proof (py_iter_wf _ _ (py_getitem_wf _ _ _ Hmeta Hlo) Hls) as Wls.
  pose proof (first_labels_wf ls (JDict []) _ Wls eq_refl Hm_labels)
    as Wm_labels.
  pose proof (py_setitem_wf (JDict []) _ _ _ eq_refl Wm_labels Hlabels0)
    as Wlabels0.
  pose proof (py_iter_wf _ _ Hparams Hparams2) as Wparams2.
  pose proof (next_named_wf _ _ _ Wparams2 Hp2) as Wp2.
  pose proof (py_getitem_wf _ _ _ Wp2 Hps) as Wps.
  pose proof (py_iter_wf _ _ (py_getitem_wf _ _ _ Wps Ho2) Hoptions2) as Wo2.
  destruct (seasons_loop_wf options2 [] (JDict []) _ Wo2 eq_refl eq_refl Hss)
    as [Wseasons Wsl].
  destruct (variants_loop_wf _ _ _ _ _ _ _ _ Wpv Wseasons Wsl _ labels0
              (JDict []) _ _ _ Wlabels0 eq_refl Hlv) as [Wl Wv].
  cbn [json_wf map fst snd nodupb existsb forallb String.eqb Ascii.eqb
         Bool.eqb negb andb orb].
  now rewrite Hname, Wdv, Wv, Wl.
Qed.

Lemma variants_loop_labels lib filepath stem pv seasons dsidx s_labels w :
  forall vs labels variants i r warnings,
    variants_loop lib filepath stem pv seasons dsidx s_labels vs
      (JDict labels) variants i w = (Done r, warnings) ->
    exists ls, fst r = JDict ls.
Proof.
  induction vs as [|v vs IH]; intros labels variants i r warnings H;
    cbn [variants_loop] in H.
  - apply wret_done in H. destruct H as [-> _]. exists labels. reflexivity.
  - wstep H labels1 Hlabels1.
    wstep H ds Hds.
    wstep H vn Hvn.
    wstep H found Hfound.
    wstep H preview Hpreview.
    wstep H variants1 Hvariants1.
    wstep H options Hoptions.
    wstep H opt Hopt.
    wstep H ls Hls.
    wstep H v_labels Hv_labels.
    wstep H labels2 Hlabels2.
    destruct (py_dict_update_dict _ _ _ Hlabels1) as [d1 ->].
    destruct (py_setitem_dict _ _ _ _ Hlabels2) as [d2 ->].
    apply (IH d2 variants1 (i + 1)%Z r l1 H).
Qed.

Lemma parse_model_record_outer lib m filepath w rec warnings :
  parse_model_record lib m filepath w = (Done rec, warnings) ->
  exists md5 default_variant preview variants labels,
    rec =
    JDict [("model",
            JDict [("name", lbw_name m);
                   ("filepath", JStr filepath);
                   ("md5", JStr md5);
                   ("default_variant", default_variant);
                   ("preview", JStr preview);
                   ("variants", variants)]);
           ("labels", JDict labels)].
Proof.
  intros H. unfold parse_model_record in H.
  wstep H md5 Hmd5.
  wstep H params Hparams1.
  wstep H p Hp.
  wstep H params_variant Hpv.
  wstep H default_variant_idx Hidx.
  wstep H options Hoptions.
  wstep H opt Hopt.
  wstep H default_variant Hdv.
  wstep H found Hfound.
  wstep H sp Hsp.
  wstep H ls Hls.
  wstep H m_labels Hm_labels.
  wstep H labels0 Hlabels0.
  wstep H params2 Hparams2.
  wstep H p2 Hp2.
  wstep H params_season Hps.
  wstep H options2 Hoptions2.
  wstep H ss Hss.
  wstep H default_season Hds.
  wstep H lv Hlv.
  apply wret_done in H. destruct H as [-> _].
  destruct (py_setitem_dict _ _ _ _ Hlabels0) as [d0 ->].
  destruct (variants_loop_labels _ _ _ _ _ _ _ _ _ _ _ _ _ _ Hlv) as [ls' Hl].
  rewrite Hl. do 5 eexists. reflexivity.
Qed.

(** X20: from the plant file to the store.  When [parse_model] returns
    a record for a file whose object has a string for a name, the text
    the worker prints is decoded and merged by the coordinator: the
    merge step of [build] stores the model of the record, which carries
    the path of the file, under the object's name, merges the labels of
    the record into the label table and logs the addition. *)
Theorem parsed_plant_is_merged lib filepath w m n rec warnings st w2 ms old :
  lbw_load lib filepath = Ok m ->
  lbw_name m = JStr n ->
  json_wf (lbw_params m) = true ->
  json_wf (lbw_plant_meta m) = true ->
  parse_model_of lib filepath w = (Done rec, warnings) ->
  db_tables (bs_self st) ms old ->
  exists model labels self',
    rec = JDict [("model", model); ("labels", JDict labels)] /\
    worker_prints lib filepath w = print_json rec /\
    py_getitem model (JStr "filepath") = Ok (JStr filepath) /\
    merge_result st (worker_prints lib filepath w) w2 =
    (Ok {| bs_self := self'; bs_model_files := bs_model_files st;
           bs_jobs := bs_jobs st; bs_f := bs_f st |},
     add_log w2 (InfoAdded (JStr n))) /\
    db_tables self' (Dict.set n model ms) (Dict.update old labels).
Proof.
  intros Hload Hname Hparams Hmeta Hparse Hdb.
  assert (Hrec : parse_model_record lib m filepath w = (Done rec, warnings)).
  { unfold parse_model_of, wbind, wlift in Hparse. rewrite Hload in Hparse.
    destruct (parse_model_record lib m filepath w) as [r l].
    simpl in Hparse. exact Hparse. }
  assert (Hwf : json_wf rec = true).
  { apply (parse_model_record_wf lib m filepath w rec warnings); auto.
    now rewrite Hname. }
  destruct (parse_model_record_outer _ _ _ _ _ _ Hrec)
    as [md5 [dv [preview [variants [labels Heq]]]]].
  rewrite Hname in Heq.
  set (model := JDict [("name", JStr n); ("filepath", JStr filepath);
                       ("md5", JStr md5); ("default_variant", dv);
                       ("preview", JStr preview); ("variants", variants)])
    in Heq.
  assert (Hout : worker_prints lib filepath w = print_json rec).
  { unfold worker_prints, parse_model_json, wbind. rewrite Hparse.
    reflexivity. }
  assert (Hclass : classify (print_json rec) = Parsed n model labels).
  { unfold classify. rewrite (json_loads_bytes_print_json rec Hwf). rewrite Heq.
    reflexivity. }
  destruct (merge_result_parsed st (print_json rec) w2 n model labels ms old
              Hclass Hdb) as [self' [Hmerge Htables]].
  exists model, labels, self'. rewrite Hout.
  split; [exact Heq|]. split; [reflexivity|]. split; [reflexivity|].
  split; [exact Hmerge|exact Htables].
Qed.

Lemma parsed_plant_is_merged_witness :
  exists rec warnings,
    parse_model_of oak_libs "/plants/oak/oak.lbw.gz" oak_world
    = (Done rec, warnings) /\
    exists model labels self',
      rec = JDict [("model", model); ("labels", JDict labels)] /\
      worker_prints oak_libs "/plants/oak/oak.lbw.gz" oak_world
      = print_json rec /\
      py_getitem model (JStr "filepath") = Ok (JStr "/plants/oak/oak.lbw.gz") /\
      merge_result
        {| bs_self := oak_db; bs_model_files := []; bs_jobs := [];
           bs_f := None |}
        (worker_prints oak_libs "/plants/oak/oak.lbw.gz" oak_world)
        (world_of []) =
      (Ok {| bs_self := self'; bs_model_files := []; bs_jobs := [];
             bs_f := None |},
       add_log (world_of []) (InfoAdded (JStr "Quercus robur"))) /\
      db_tables self' (Dict.set "Quercus robur" model [])
        (Dict.update [("oak", JDict [("en", JStr "Oak")])] labels).
Proof.
  destruct (parse_model_of oak_libs "/plants/oak/oak.lbw.gz" oak_world)
    as [[rec|e|] warnings] eqn:Hp.
  - exists rec, warnings. split; [reflexivity|].
    apply (parsed_plant_is_merged oak_libs "/plants/oak/oak.lbw.gz" oak_world
             oak_plant "Quercus robur" rec warnings
             {| bs_self := oak_db; bs_model_files := []; bs_jobs := [];
                bs_f := None |}
             (world_of []) [] [("oak", JDict [("en", JStr "Oak")])]).
    + reflexivity.
    + reflexivity.
    + reflexivity.
    + reflexivity.
    + exact Hp.
    + eexists. split; [reflexivity|]. split; reflexivity.
  - exfalso. vm_compute in Hp. discriminate Hp.
  - exfalso. vm_compute in Hp. discriminate Hp.
Defined.

(** ** Adding one model *)

(** [add_model] looks the record up under a key [parse_model] never
    sets: it raises before it stores anything. *)
Lemma add_model_raises lib self filepath w self' :
  fst (add_model lib self filepath w) <> Done self'.
Proof.
  unfold add_model, wbind at 1.
  destruct (parse_model_of lib filepath w) as [[rec|e|] l] eqn:Hp;
    [|discriminate|discriminate].
  unfold parse_model_of in Hp. wstep Hp m Hm.
  destruct (parse_model_record_outer _ _ _ _ _ _ Hp)
    as [md5 [dv [pv [vs [labels ->]]]]].
  unfold wbind, wlift.
  cbn [py_getitem Dict.get String.eqb Ascii.eqb Bool.eqb].
  destruct (self_db self) as [d|e]; [|discriminate].
  destruct (py_getitem d (JStr "models")) as [models|e]; discriminate.
Qed.

(** X3: [add_model] never adds anything.  It reads the model's name
    from the key [name] of the record [parse_model] returns, which holds
    the keys [model] and [labels] only.  So the call never returns; all
    it leaves behind are the warnings [parse_model] logged for the
    previews it did not find; and on a loaded store, once the file is
    parsed, what it raises is [KeyError]. *)
Theorem add_model_never_adds lib self filepath w rec warnings d models :
  parse_model_of lib filepath w = (Done rec, warnings) ->
  _db self = Some d ->
  py_getitem d (JStr "models") = Ok models ->
  add_model lib self filepath w = (Fails KeyError, warnings) /\
  forall self0 w0 self',
    fst (add_model lib self0 filepath w0) <> Done self' /\
    snd (add_model lib self0 filepath w0)
    = snd (parse_model_of lib filepath w0).
Proof.
  intros Hp Hdb Hm. split.
  - unfold add_model, wbind at 1. rewrite Hp.
    unfold parse_model_of in Hp. wstep Hp m Hl.
    destruct (parse_model_record_outer _ _ _ _ _ _ Hp)
      as [md5 [dv [pv [vs [labels ->]]]]].
    unfold wbind, wlift, self_db. rewrite Hdb, Hm.
    cbn [py_getitem Dict.get String.eqb Ascii.eqb Bool.eqb].
    now rewrite !app_nil_r.
  - intros self0 w0 self'. split; [apply add_model_raises|].
    unfold add_model, wbind at 1.
    destruct (parse_model_of lib filepath w0) as [[rec0|e|] l] eqn:Hp0;
      [|reflexivity|reflexivity].
    unfold parse_model_of in Hp0. wstep Hp0 m Hl.
    destruct (parse_model_record_outer _ _ _ _ _ _ Hp0)
      as [md5 [dv [pv [vs [labels ->]]]]].
    unfold wbind, wlift.
    cbn [py_getitem Dict.get String.eqb Ascii.eqb Bool.eqb].
    destruct (self_db self0) as [d0|e]; [|cbn; now rewrite !app_nil_r].
    destruct (py_getitem d0 (JStr "models")) as [ms0|e];
      cbn; now rewrite !app_nil_r.
Qed.

Lemma add_model_never_adds_witness :
  add_model oak_libs oak_db "/plants/oak/oak.lbw.gz" oak_world
  = (Fails KeyError, ["/plants/oak/models/oak_young.png"]).
Proof.
  refine (proj1 (add_model_never_adds oak_libs oak_db "/plants/oak/oak.lbw.gz"
                   oak_world
                   (match fst (parse_model_of oak_libs "/plants/oak/oak.lbw.gz"
                                 oak_world) with
                    | Done r => r
                    | _ => JNull
                    end)
                   ["/plants/oak/models/oak_young.png"]
                   (doc_of 2 [("oak", JDict [("en", JStr "Oak")])] [])
                   (JDict []) _ _ _)); reflexivity.
Defined.

(** ** Opening a file that is no database *)

(** X21: a file that decodes, but to a value in which the schema
    version cannot be read or compared (no [info] entry, no
    [schema_version] in it, a version that is no number, a value that is
    no dict), makes the constructor raise the [KeyError] or [TypeError]
    of that lookup: none of its [except] clauses catches it, nothing is
    logged, and with [create] no database is created in its place. *)
Theorem open_not_a_database w path loc py create text d e :
  Dict.get path (files w) = Some text ->
  json_loads text = Ok d ->
  (info <- py_getitem d (JStr "info") ;;
   sv <- py_getitem info (JStr "schema_version") ;;
   py_lt_int sv SCHEMA_VERSION) = Raise e ->
  ThicketDB_init path loc py create w = (Raise e, w) /\
  (e = KeyError \/ e = TypeError).
Proof.
  intros Hf Hj He.
  assert (Hcls : e = KeyError \/ e = TypeError).
  { destruct (py_getitem d (JStr "info")) as [info|e1] eqn:E1.
    - cbn [rbind] in He.
      destruct (py_getitem info (JStr "schema_version")) as [sv|e2] eqn:E2.
      + cbn [rbind] in He. destruct sv; inversion He; auto.
      + cbn [rbind] in He. inversion He. subst e2.
        destruct info as [| | | |l|dd]; simpl in E2; inversion E2; auto.
        destruct (Dict.get "schema_version" dd); inversion E2; auto.
    - cbn [rbind] in He. inversion He. subst e1.
      destruct d as [| | | |l|dd]; simpl in E1; inversion E1; auto.
      destruct (Dict.get "info" dd); inversion E1; auto. }
  split; [|exact Hcls].
  unfold ThicketDB_init, try_catch. rewrite mbind_run. unfold read_file.
  rewrite Hf, mbind_run. unfold lift at 1. rewrite Hj.
  destruct (py_getitem d (JStr "info")) as [info|e1] eqn:E1;
    cbn [rbind] in He.
  - rewrite mbind_run. unfold lift at 1.
    destruct (py_getitem info (JStr "schema_version")) as [sv|e2] eqn:E2;
      cbn [rbind] in He.
    + rewrite mbind_run. unfold lift at 1. rewrite mbind_run. unfold lift.
      rewrite He. destruct Hcls as [-> | ->]; reflexivity.
    + inversion He. subst e2. rewrite mbind_run. unfold lift.
      destruct Hcls as [-> | ->]; reflexivity.
  - inversion He. subst e1. rewrite mbind_run. unfold lift.
    destruct Hcls as [-> | ->]; reflexivity.
Qed.

Lemma open_not_a_database_witness :
  ThicketDB_init "thicket.db" "en_US" "python" true
    (world_of [("thicket.db", "{}")])
  = (Raise KeyError, world_of [("thicket.db", "{}")]) /\
  (KeyError = KeyError \/ KeyError = TypeError).
Proof.
  apply (open_not_a_database (world_of [("thicket.db", "{}")]) "thicket.db"
           "en_US" "python" true "{}" (JDict []) KeyError).
  - reflexivity.
  - vm_compute. reflexivity.
  - reflexivity.
Defined.

(** ** Fetching what [build] stored *)






